(** * Distributed Video Engine: split-process-merge pipeline and job lifecycle

    A shallow embedding of [src/render_engine.py] (chunk planning, parallel
    dispatch, merge, scaling sweep, Amdahl analysis) and of [server.py]
    (job submission and the background render task), followed by the
    theorems that settle the properties stated about them.

    Python values are modelled as follows.
    - [int] is [Z].
    - [float] is abstracted by the class [PyFloat], with two instances:
      [Binary64] (IEEE 754 double precision, what CPython computes with) and
      [Exact] (rationals, arithmetic without rounding).
    - exceptions are values of [PyExn]; a computation that may raise returns
      [Result].
    - external processes (ffprobe, ffmpeg) are fields of an environment record;
      the file system is the list of paths that exist. *)

From Stdlib Require Import ZArith QArith Qround List String Ascii Bool Lia.
From Stdlib Require Import Lqa Floats Permutation Sorted DecimalString.
From Stdlib Require DecimalPos DecimalZ.
From Equations Require Import Equations.
Import ListNotations.

Set Implicit Arguments.
Local Open Scope string_scope.
Local Open Scope Z_scope.

(* ===================================================================== *)
(** * Python base layer *)
(* ===================================================================== *)

(** Exceptions raised by the modelled code. All are subclasses of
    [Exception]. [OSError] stands for the class and its subclasses
    ([FileNotFoundError], [FileExistsError], ...), told apart by their text.
    [CalledProcessError] carries the text of [str(e)], which names the
    command and its exit status, and the captured standard error;
    [KeyError] carries the missing key. *)
Inductive PyExn : Type :=
| ZeroDivisionError (msg : string)
| OverflowError (msg : string)
| ValueError (msg : string)
| IndexError (msg : string)
| RuntimeError (msg : string)
| CalledProcessError (msg : string) (stderr : string)
| OSError (msg : string)
| KeyError (key : string)
| HTTPException (status_code : Z) (detail : string).

(** [repr(s)] for a string: single quotes unless the string holds a single
    quote and no double quote; the backslash, the chosen quote and the
    control characters are escaped. Bytes above 127 are parts of characters
    taken to be printable. *)
Definition backslash : ascii := ascii_of_nat 92.
Definition single_quote : ascii := ascii_of_nat 39.
Definition double_quote : ascii := ascii_of_nat 34.

Definition hex_digit (n : nat) : ascii :=
  nth n (list_ascii_of_string "0123456789abcdef") "0"%char.

Definition repr_char (quote ch : ascii) : string :=
  let n := nat_of_ascii ch in
  if (Ascii.eqb ch quote || Ascii.eqb ch backslash)%bool then
    String backslash (String ch "")
  else if Nat.eqb n 9 then String backslash "t"
  else if Nat.eqb n 10 then String backslash "n"
  else if Nat.eqb n 13 then String backslash "r"
  else if (Nat.ltb n 32 || Nat.eqb n 127)%bool then
    String backslash
      (String "x" (String (hex_digit (Nat.div n 16))
                     (String (hex_digit (Nat.modulo n 16)) "")))
  else String ch "".

Definition repr_str (s : string) : string :=
  let chars := list_ascii_of_string s in
  let quote :=
    if (existsb (Ascii.eqb single_quote) chars
        && negb (existsb (Ascii.eqb double_quote) chars))%bool
    then double_quote else single_quote in
  String quote (String.concat "" (map (repr_char quote) chars) ++ String quote "").

(** [str(e)] *)
Definition str_exn (e : PyExn) : string :=
  match e with
  | ZeroDivisionError m | OverflowError m | ValueError m | IndexError m
  | RuntimeError m | OSError m | CalledProcessError m _ => m
  | KeyError k => repr_str k
  | HTTPException c d => d
  end.

Definition Result (A : Type) : Type := (PyExn + A)%type.

Definition ret {A} (a : A) : Result A := inr a.
Definition raise {A} (e : PyExn) : Result A := inl e.
Definition bind {A B} (m : Result A) (k : A -> Result B) : Result B :=
  match m with
  | inl e => inl e
  | inr a => k a
  end.

Notation "x <- m ;; k" := (bind m (fun x => k))
  (at level 61, m at next level, right associativity).

(** [range(n)] *)
Definition range (n : Z) : list Z := map Z.of_nat (seq 0 (Z.to_nat n)).

(** [str(n)] for an integer. *)
Definition str_int (n : Z) : string := NilZero.string_of_int (Z.to_int n).

(** [f"{i:03d}"] for a non-negative integer: decimal digits padded with
    zeros on the left up to width three. *)
Definition fmt_03d (i : Z) : string :=
  let s := str_int i in
  match String.length s with
  | 1%nat => "00" ++ s
  | 2%nat => "0" ++ s
  | _ => s
  end.

Definition ends_with_slash (s : string) : bool :=
  match String.get (String.length s - 1) s with
  | Some c => Ascii.eqb c "/"
  | None => false
  end.

(** [os.path.join(a, b)] on POSIX, two components. *)
Definition path_join (a b : string) : string :=
  if String.prefix "/" b then b
  else if (String.eqb a "" || ends_with_slash a)%bool then a ++ b
  else a ++ "/" ++ b.

(** [needle in haystack] for strings. *)
Definition contains (needle haystack : string) : bool :=
  match String.index 0 needle haystack with
  | Some _ => true
  | None => false
  end.

(** [os.path.dirname(p)] on POSIX: the part up to the last slash, without
    the slashes that end it unless it consists of slashes only. *)
Fixpoint upto_last_slash (p : string) : string :=
  match p with
  | EmptyString => ""
  | String ch rest =>
      if (Ascii.eqb ch "/" || contains "/" rest)%bool
      then String ch (upto_last_slash rest) else ""
  end.

Fixpoint rstrip_slashes (p : string) : string :=
  match p with
  | EmptyString => ""
  | String ch rest =>
      match rstrip_slashes rest with
      | EmptyString => if Ascii.eqb ch "/" then "" else String ch ""
      | kept => String ch kept
      end
  end.

Definition dirname (p : string) : string :=
  let head := upto_last_slash p in
  match rstrip_slashes head with
  | EmptyString => head
  | stripped => stripped
  end.

(* ===================================================================== *)
(** * Floating-point numbers *)
(* ===================================================================== *)

(** The operations the engine applies to Python floats. [fquot] is the
    quotient for a non-zero divisor; [truediv] below adds Python's check. *)
Class PyFloat (F : Type) : Type := {
  of_int : Z -> F;
  fadd : F -> F -> F;
  fsub : F -> F -> F;
  fmul : F -> F -> F;
  fquot : F -> F -> F;
  fis_zero : F -> bool;
  feq : F -> F -> bool;
  flt : F -> F -> bool;
  to_int : F -> Result Z
}.

(** [a / b] *)
Definition truediv {F} `{PyFloat F} (a b : F) : Result F :=
  if fis_zero b then raise (ZeroDivisionError "float division by zero")
  else ret (fquot a b).

(** [a / n] for a float and an integer, and [m / n] for two integers. The
    integer is converted first; the conversion of a non-zero integer is never
    zero, so the divisor is tested before it. *)
Definition truediv_int {F} `{PyFloat F} (a : F) (n : Z) : Result F :=
  if n =? 0 then raise (ZeroDivisionError "float division by zero")
  else ret (fquot a (of_int n)).

Definition truediv_ints {F} `{PyFloat F} (m n : Z) : Result F :=
  if n =? 0 then raise (ZeroDivisionError "division by zero")
  else ret (fquot (of_int m) (of_int n)).

(** [min(a, b)] and [max(a, b)]: the first argument wins ties. *)
Definition fmin {F} `{PyFloat F} (a b : F) : F := if flt b a then b else a.
Definition fmax {F} `{PyFloat F} (a b : F) : F := if flt a b then b else a.

(** IEEE 754 binary64, through Rocq's primitive floats. [of_int] is
    [float(n)]: the integer rounded to the nearest double, ties to even. An
    integer whose rounding does not fit a double (2^1024 and beyond) becomes
    an infinity here, where Python raises OverflowError at the conversion. *)
Module Binary64.

Definition float_of_int (z : Z) : float :=
  if Z.abs z <? 9223372036854775808 then
    if z <? 0 then PrimFloat.opp (PrimFloat.of_uint63 (Uint63.of_Z (- z)))
    else PrimFloat.of_uint63 (Uint63.of_Z z)
  else SF2Prim (binary_normalize prec emax z 0 false).

(** [int(x)]: truncation toward zero. *)
Definition int_of_float (x : float) : Result Z :=
  match Prim2SF x with
  | S754_zero _ => ret 0
  | S754_finite s m e =>
      let v := if 0 <=? e then Zpos m * 2 ^ e else Z.quot (Zpos m) (2 ^ (- e)) in
      ret (if s then - v else v)
  | S754_infinity _ => raise (OverflowError "cannot convert float infinity to integer")
  | S754_nan => raise (ValueError "cannot convert float NaN to integer")
  end.

#[global] Instance binary64 : PyFloat float := {|
  of_int := float_of_int;
  fadd := PrimFloat.add;
  fsub := PrimFloat.sub;
  fmul := PrimFloat.mul;
  fquot := PrimFloat.div;
  fis_zero := fun x => PrimFloat.eqb x PrimFloat.zero;
  feq := PrimFloat.eqb;
  flt := PrimFloat.ltb;
  to_int := int_of_float
|}.

End Binary64.

(** Rationals: the same operations without rounding. *)
Module Exact.

Definition int_of_rational (q : Q) : Result Z := ret (Z.quot (Qnum q) (Zpos (Qden q))).

#[global] Instance exact : PyFloat Q := {|
  of_int := inject_Z;
  fadd := Qplus;
  fsub := Qminus;
  fmul := Qmult;
  fquot := Qdiv;
  fis_zero := fun q => Qeq_bool q 0;
  feq := Qeq_bool;
  flt := fun a b => negb (Qle_bool b a);
  to_int := int_of_rational
|}.

End Exact.

(* ===================================================================== *)
(** * render_engine.py *)
(* ===================================================================== *)

Module VideoMetadata.
Record t (F : Type) : Type := mk {
  duration : F;
  width : Z;
  height : Z;
  fps : F;
  codec : string;
  has_audio : bool
}.
End VideoMetadata.

Module ChunkTask.
Record t (F : Type) : Type := mk {
  chunk_id : Z;
  start : F;
  duration : F;
  input_path : string;
  output_path : string
}.
End ChunkTask.

Module ChunkResult.
Record t (F : Type) : Type := mk {
  chunk_id : Z;
  success : bool;
  elapsed : F;
  error : option string
}.
End ChunkResult.

Section Planning.

Context {F : Type} `{PyFloat F}.

(** [plan_chunks(input_path, duration, num_chunks, temp_dir)] *)
Definition plan_chunks (input_path : string) (duration : F) (num_chunks : Z)
    (temp_dir : string) : Result (list (ChunkTask.t F)) :=
  chunk_duration <- truediv_int duration num_chunks ;;
  ret (map (fun i =>
              let start := fmul (of_int i) chunk_duration in
              let chunk_dur :=
                if i <? num_chunks - 1 then chunk_duration
                else fsub duration start in
              ChunkTask.mk i start chunk_dur input_path
                (path_join temp_dir ("chunk_" ++ fmt_03d i ++ ".mp4")))
           (range num_chunks)).

(** The first two statements of [run_parallel]:
    [num_chunks = int(num_workers * 1.5)], then
    [num_chunks = max(num_chunks, num_workers)]. The literal [1.5] is 3/2,
    which both instances represent exactly. *)
Definition literal_1_5 : F := fquot (of_int 3) (of_int 2).

Definition num_chunks_of (num_workers : Z) : Result Z :=
  n <- to_int (fmul (of_int num_workers) literal_1_5) ;;
  ret (Z.max n num_workers).

End Planning.

(** ** External processes and the file system *)

(** The commands the engine hands to [subprocess.run]. *)
Inductive Invocation (F : Type) : Type :=
| EncodeChunk (task : ChunkTask.t F) (filter_chain : string)
| ConcatCopy (manifest : list string) (output_path : string)
| ConcatReencode (manifest : list string) (output_path : string)
| EncodeSerial (input_path output_path filter_chain : string).

Arguments ConcatCopy {F} manifest output_path.
Arguments ConcatReencode {F} manifest output_path.
Arguments EncodeSerial {F} input_path output_path filter_chain.

(** What a finished process reports: exit status zero or not, its standard
    error, and the seconds [time.perf_counter] measured around it. *)
Record Completed (F : Type) : Type := mkCompleted {
  returncode_ok : bool;
  stderr : string;
  seconds : F
}.

(** Paths that exist. *)
Definition FS : Type := list string.

Definition exists_path (p : string) (fs : FS) : bool := existsb (String.eqb p) fs.

(** The environment of a run: the external tool (its exit status and what it
    leaves on disk), the text of the [CalledProcessError] that [check=True]
    raises for a command that failed ("Command '[...]' returned non-zero exit
    status 1."), the order in which the pool's futures complete,
    [os.path.abspath], and the wall-clock seconds of the whole run. *)
Record World (F : Type) : Type := mkWorld {
  subprocess_run : Invocation F -> FS -> Completed F * FS;
  failure_text : Invocation F -> Completed F -> string;
  as_completed : list (ChunkTask.t F) -> list (ChunkTask.t F);
  abspath : string -> string;
  wall_seconds : F
}.

(** The state threaded through a run: the file system and the log of the
    commands executed so far, oldest first. *)
Record Sys (F : Type) : Type := mkSys {
  files : FS;
  log : list (Invocation F)
}.

Definition is_merge {F} (c : Invocation F) : bool :=
  match c with
  | ConcatCopy _ _ | ConcatReencode _ _ => true
  | _ => false
  end.

(** [sorted(l, key=key)]: Python's sort is stable. *)
Fixpoint insert_by {A} (key : A -> Z) (x : A) (l : list A) : list A :=
  match l with
  | [] => [x]
  | y :: l' => if key y <=? key x then y :: insert_by key x l' else x :: l
  end.

Definition sort_by {A} (key : A -> Z) (l : list A) : list A :=
  fold_left (fun acc x => insert_by key x acc) l [].

(** [l[i]], negative indices counting from the end. *)
Definition py_index {A} (l : list A) (i : Z) : Result A :=
  let n := Z.of_nat (List.length l) in
  let j := if i <? 0 then i + n else i in
  if (j <? 0) || (n <=? j) then raise (IndexError "list index out of range")
  else match nth_error l (Z.to_nat j) with
       | Some a => ret a
       | None => raise (IndexError "list index out of range")
       end.

Fixpoint mapM {A B} (f : A -> Result B) (l : list A) : Result (list B) :=
  match l with
  | [] => ret []
  | a :: l' => b <- f a ;; bs <- mapM f l' ;; ret (b :: bs)
  end.

(** A dict kept as an association list in insertion order: [d[k] = v],
    [d.get(k)] and [del d[k]]. *)
Section Dict.

Context {K V : Type}.
Variable eqb : K -> K -> bool.

Fixpoint dict_set (k : K) (v : V) (d : list (K * V)) : list (K * V) :=
  match d with
  | [] => [(k, v)]
  | (k', v') :: d' =>
      if eqb k k' then (k, v) :: d' else (k', v') :: dict_set k v d'
  end.

Definition dict_get (k : K) (d : list (K * V)) : option V :=
  option_map snd (find (fun kv => eqb k (fst kv)) d).

Definition dict_del (k : K) (d : list (K * V)) : list (K * V) :=
  filter (fun kv => negb (eqb k (fst kv))) d.

End Dict.

Section Engine.

Context {F : Type} `{PyFloat F}.
Variable world : World F.

(** [subprocess.run(cmd, capture_output=True, check=True)]: the command is
    logged, the file system becomes what the tool left, and a non-zero
    exit status raises [CalledProcessError]. *)
Definition run_checked (cmd : Invocation F) (sys : Sys F)
    : Result (Completed F) * Sys F :=
  let '(c, fs) := subprocess_run world cmd (files sys) in
  let sys' := mkSys fs (log sys ++ [cmd])%list in
  if returncode_ok c then (ret c, sys')
  else (raise (CalledProcessError (failure_text world cmd c) (stderr c)), sys').

(** [process_chunk(task, filter_chain)] *)
Definition process_chunk (task : ChunkTask.t F) (filter_chain : string) (sys : Sys F)
    : ChunkResult.t F * Sys F :=
  let '(c, fs) := subprocess_run world (EncodeChunk task filter_chain) (files sys) in
  let sys' := mkSys fs (log sys ++ [EncodeChunk task filter_chain])%list in
  if returncode_ok c then
    (ChunkResult.mk (ChunkTask.chunk_id task) true (seconds c) None, sys')
  else
    (ChunkResult.mk (ChunkTask.chunk_id task) false (seconds c)
       (Some (if String.eqb (stderr c) ""
              then str_exn (CalledProcessError
                              (failure_text world (EncodeChunk task filter_chain) c)
                              (stderr c))
              else stderr c)),
     sys').

(** [merge_chunks(chunk_paths, output_path, temp_dir)] *)
Definition merge_chunks (chunk_paths : list string) (output_path temp_dir : string)
    (sys : Sys F) : bool * Sys F :=
  let concat_file := path_join temp_dir "concat_list.txt" in
  let manifest := map (fun path => "file '" ++ abspath world path ++ "'") chunk_paths in
  let sys1 := mkSys (concat_file :: files sys) (log sys) in
  match run_checked (ConcatCopy manifest output_path) sys1 with
  | (inr _, sys2) => (true, sys2)
  | (inl _, sys2) =>
      match run_checked (ConcatReencode manifest output_path) sys2 with
      | (inr _, sys3) => (true, sys3)
      | (inl _, sys3) => (false, sys3)
      end
  end.

(** [run_serial_baseline(input_path, output_path, filter_chain)] *)
Definition run_serial_baseline (input_path output_path filter_chain : string)
    (sys : Sys F) : Result F * Sys F :=
  match run_checked (EncodeSerial input_path output_path filter_chain) sys with
  | (inr c, sys') => (ret (seconds c), sys')
  | (inl e, sys') => (raise e, sys')
  end.

(** The pool: every submitted chunk is processed; results are appended in
    completion order. *)
Fixpoint collect (pending : list (ChunkTask.t F)) (filter_chain : string)
    (sys : Sys F) : list (ChunkResult.t F) * Sys F :=
  match pending with
  | [] => ([], sys)
  | task :: rest =>
      let '(r, sys1) := process_chunk task filter_chain sys in
      let '(rs, sys2) := collect rest filter_chain sys1 in
      (r :: rs, sys2)
  end.

(** [f"{len(failed)} chunks failed"] *)
Definition chunks_failed_message {A} (failed : list A) : string :=
  str_int (Z.of_nat (List.length failed)) ++ " chunks failed".

(** [run_parallel(input_path, output_path, metadata, num_workers,
    filter_chain, temp_dir)]; the live dashboard is left out. *)
Definition run_parallel (input_path output_path : string)
    (metadata : VideoMetadata.t F) (num_workers : Z)
    (filter_chain temp_dir : string) (sys : Sys F)
    : Result (F * list (ChunkResult.t F)) * Sys F :=
  match (num_chunks <- num_chunks_of num_workers ;;
         plan_chunks input_path (VideoMetadata.duration metadata) num_chunks temp_dir) with
  | inl e => (raise e, sys)
  | inr chunks =>
      if num_workers <=? 0 then
        (raise (ValueError "max_workers must be greater than 0"), sys)
      else
        let '(arrived, sys1) := collect (as_completed world chunks) filter_chain sys in
        let results := sort_by (@ChunkResult.chunk_id F) arrived in
        let failed := filter (fun r => negb (ChunkResult.success r)) results in
        match failed with
        | _ :: _ => (raise (RuntimeError (chunks_failed_message failed)), sys1)
        | [] =>
            match mapM (fun r => t <- py_index chunks (ChunkResult.chunk_id r) ;;
                                 ret (ChunkTask.output_path t)) results with
            | inl e => (raise e, sys1)
            | inr chunk_paths =>
                let '(merge_success, sys2) :=
                  merge_chunks chunk_paths output_path temp_dir sys1 in
                if merge_success then (ret (wall_seconds world, results), sys2)
                else (raise (RuntimeError "Merge failed"), sys2)
            end
        end
  end.

End Engine.

(** ** Scaling sweep *)

(** The loop [while w <= max_workers: worker_counts.append(w); w *= 2]. The
    counter starts at 2 and only doubles, so it is a positive number. *)
Equations? doubling (max_workers : Z) (w : positive) (worker_counts : list Z)
    : list Z by wf (Z.to_nat (max_workers + 1 - Zpos w)) lt :=
  doubling max_workers w worker_counts with Z_le_dec (Zpos w) max_workers := {
    | left _ => doubling max_workers (2 * w)%positive (worker_counts ++ [Zpos w])%list
    | right _ => worker_counts
  }.
Proof. lia. Qed.

(** [sorted(set(l))] for integers. *)
Definition sorted_set (l : list Z) : list Z :=
  sort_by (fun x => x) (nodup Z.eq_dec l).

(** The worker counts [run_scaling_sweep] iterates over. *)
Definition worker_series (max_workers : Z) : list Z :=
  let worker_counts := doubling max_workers 2 [1] in
  let worker_counts :=
    if existsb (Z.eqb max_workers) worker_counts then worker_counts
    else (worker_counts ++ [max_workers])%list in
  sorted_set worker_counts.

Module SweepEntry.
Record t (F : Type) : Type := mk {
  time : option F;
  success : bool;
  chunk_times : list F
}.
End SweepEntry.

Section Sweep.

Context {F : Type} `{PyFloat F}.
Variable world : World F.

(** [run_scaling_sweep(input_path, metadata, filter_chain, max_workers, temp_dir)] *)
Definition run_scaling_sweep (input_path : string) (metadata : VideoMetadata.t F)
    (filter_chain : string) (max_workers : Z) (temp_dir : string) (sys : Sys F)
    : list (Z * SweepEntry.t F) * Sys F :=
  fold_left
    (fun '(results, sys) num_workers =>
       let output_path :=
         path_join temp_dir ("output_" ++ str_int num_workers ++ "w.mp4") in
       match run_parallel world input_path output_path metadata num_workers
               filter_chain temp_dir sys with
       | (inr (elapsed, chunk_results), sys') =>
           (dict_set Z.eqb num_workers
              (SweepEntry.mk (Some elapsed) true
                 (map (@ChunkResult.elapsed F) chunk_results)) results, sys')
       | (inl _, sys') =>
           (dict_set Z.eqb num_workers (SweepEntry.mk None false []) results, sys')
       end)
    (worker_series max_workers) ([], sys).

End Sweep.

(** ** Amdahl analysis *)

Module Amdahl.
Record t (F : Type) : Type := mk {
  actual_speedup : F;
  serial_fraction : F;
  theoretical_max : F;
  percent_of_theoretical : F
}.
End Amdahl.

Section AmdahlAnalysis.

Context {F : Type} `{PyFloat F}.

(** The block of [display_results] under "Amdahl's Law analysis", entered
    when the sweep entry for [max_workers] succeeded with time [best_time].
    [None] when [actual_speedup < max_workers] is false and nothing is
    reported. *)
Definition amdahl_analysis (serial_time best_time : F) (max_workers : Z)
    : Result (option (Amdahl.t F)) :=
  actual_speedup <- truediv serial_time best_time ;;
  if flt actual_speedup (of_int max_workers) then
    a <- truediv_int actual_speedup max_workers ;;
    b <- truediv_ints 1 max_workers ;;
    serial_fraction <- truediv (fsub (of_int 1) a) (fsub (of_int 1) b) ;;
    let serial_fraction := fmax (of_int 0) (fmin (of_int 1) serial_fraction) in
    theoretical_max <-
      (if flt (of_int 0) serial_fraction then truediv (of_int 1) serial_fraction
       else ret (of_int max_workers)) ;;
    let theoretical_max := fmin theoretical_max (of_int (max_workers * 2)) in
    ratio <- truediv actual_speedup theoretical_max ;;
    ret (Some (Amdahl.mk actual_speedup serial_fraction theoretical_max
                 (fmul ratio (of_int 100))))
  else ret None.

(** Amdahl's law: the speedup at [n] workers of a job whose serial fraction
    is [f], namely 1 / (f + (1 - f) / n). *)
Definition amdahl_speedup (f : F) (n : Z) : F :=
  fquot (of_int 1) (fadd f (fquot (fsub (of_int 1) f) (of_int n))).

End AmdahlAnalysis.

(* ===================================================================== *)
(** * server.py *)
(* ===================================================================== *)

Module Status.
Inductive t : Type := queued | processing | completed | failed.
End Status.

(** The values [job["phase"]] takes. ["completed"] is also what the
    exception handler writes: it is the terminal marker. *)
Module Phase.
Inductive t : Type := queued | analyzing | benchmarking | parallel | merging | completed.

Definition eqb (a b : t) : bool :=
  match a, b with
  | queued, queued | analyzing, analyzing | benchmarking, benchmarking
  | parallel, parallel | merging, merging | completed, completed => true
  | _, _ => false
  end.
End Phase.

(** What [get_smart_config] and [get_content_aware_config] return, as far as
    [run_render_task] reads it. *)
Module SmartConf.
Record t : Type := mk {
  workers : Z;
  filter : string
}.
End SmartConf.

(** A job record: the dict stored in [JOBS]. Keys that are absent until
    written are options. *)
Module Job.
Record t (F Report : Type) : Type := mk {
  id : string;
  status : Status.t;
  phase : Phase.t;
  progress : Z;
  input : string;
  workers : Z;
  filter_chain : string;
  created_at : F;
  smart_config : option SmartConf.t;
  comparison_report : option Report;
  engine_version : string;
  projected_serial_time : option string;
  output : option string;
  duration : option string;
  error : option string
}.

Definition set_status {F Report} (v : Status.t) (j : t F Report)
    : t F Report :=
  mk (id j) v (phase j) (progress j) (input j) (workers j) (filter_chain j)
    (created_at j) (smart_config j) (comparison_report j)
    (engine_version j) (projected_serial_time j) (output j) (duration j)
    (error j).

Definition set_phase {F Report} (v : Phase.t) (j : t F Report) : t F Report :=
  mk (id j) (status j) v (progress j) (input j) (workers j)
    (filter_chain j) (created_at j) (smart_config j) (comparison_report j)
    (engine_version j) (projected_serial_time j) (output j) (duration j)
    (error j).

Definition set_progress {F Report} (v : Z) (j : t F Report) : t F Report :=
  mk (id j) (status j) (phase j) v (input j) (workers j) (filter_chain j)
    (created_at j) (smart_config j) (comparison_report j)
    (engine_version j) (projected_serial_time j) (output j) (duration j)
    (error j).

Definition set_workers {F Report} (v : Z) (j : t F Report) : t F Report :=
  mk (id j) (status j) (phase j) (progress j) (input j) v (filter_chain j)
    (created_at j) (smart_config j) (comparison_report j)
    (engine_version j) (projected_serial_time j) (output j) (duration j)
    (error j).

Definition set_filter_chain {F Report} (v : string) (j : t F Report)
    : t F Report :=
  mk (id j) (status j) (phase j) (progress j) (input j) (workers j) v
    (created_at j) (smart_config j) (comparison_report j)
    (engine_version j) (projected_serial_time j) (output j) (duration j)
    (error j).

Definition set_smart_config {F Report} (v : option SmartConf.t) (j : t F Report)
    : t F Report :=
  mk (id j) (status j) (phase j) (progress j) (input j) (workers j)
    (filter_chain j) (created_at j) v (comparison_report j)
    (engine_version j) (projected_serial_time j) (output j) (duration j)
    (error j).

Definition set_projected_serial_time {F Report} (v : option string) (j : t F Report)
    : t F Report :=
  mk (id j) (status j) (phase j) (progress j) (input j) (workers j)
    (filter_chain j) (created_at j) (smart_config j) (comparison_report j)
    (engine_version j) v (output j) (duration j) (error j).

Definition set_output {F Report} (v : option string) (j : t F Report)
    : t F Report :=
  mk (id j) (status j) (phase j) (progress j) (input j) (workers j)
    (filter_chain j) (created_at j) (smart_config j) (comparison_report j)
    (engine_version j) (projected_serial_time j) v (duration j) (error j).

Definition set_duration {F Report} (v : option string) (j : t F Report)
    : t F Report :=
  mk (id j) (status j) (phase j) (progress j) (input j) (workers j)
    (filter_chain j) (created_at j) (smart_config j) (comparison_report j)
    (engine_version j) (projected_serial_time j) (output j) v (error j).

Definition set_comparison_report {F Report} (v : option Report) (j : t F Report)
    : t F Report :=
  mk (id j) (status j) (phase j) (progress j) (input j) (workers j)
    (filter_chain j) (created_at j) (smart_config j) v (engine_version j)
    (projected_serial_time j) (output j) (duration j) (error j).

Definition set_error {F Report} (v : option string) (j : t F Report)
    : t F Report :=
  mk (id j) (status j) (phase j) (progress j) (input j) (workers j)
    (filter_chain j) (created_at j) (smart_config j) (comparison_report j)
    (engine_version j) (projected_serial_time j) (output j) (duration j) v.
End Job.

Module GlobalStats.
Record t (F : Type) : Type := mk {
  total_jobs : Z;
  successful_jobs : Z;
  failed_jobs : Z;
  total_frames_processed : Z;
  total_processing_time : F
}.
End GlobalStats.

(** The request body of [POST /jobs]. *)
Module JobCreate.
Record t : Type := mk {
  input_path : string;
  workers : option Z;
  filter_chain : option string;
  smart : option bool;
  engine_version : option string
}.
End JobCreate.

Module Server.

(** What [server.py] calls and does not define in this tree: the probe,
    the adaptive configurators, the serial benchmark, the variant of
    [run_parallel] that takes [progress_callback], the comparison report
    (an external collaborator of the job lifecycle), the formatting
    [f"{x:.2f}"], the two storage directories, and [Path.mkdir] of pathlib
    called with [exist_ok=True], which asks the operating system and raises
    what it reports ([FileNotFoundError] for a missing parent,
    [FileExistsError] for a path that is not a directory, any other
    [OSError]). A call that touches the disk returns the file system it
    leaves. [run_parallel] returns, in call order, the values it passed to
    [progress_callback] before it returned or raised. *)
Record Collaborators (F Report : Type) : Type := mkCollaborators {
  V2_AVAILABLE : bool;
  TEMP_BASE : string;
  OUTPUT_DIR : string;
  mkdir : string -> FS -> Result unit * FS;
  analyze_video : string -> Result (VideoMetadata.t F);
  get_smart_config : VideoMetadata.t F -> Z -> Result SmartConf.t;
  get_content_aware_config : VideoMetadata.t F -> Z -> string -> Result SmartConf.t;
  benchmark_serial : string -> string -> string -> FS -> Result F * FS;
  run_parallel :
    string -> string -> VideoMetadata.t F -> Z -> string -> string -> FS ->
    list Z * Result F * FS;
  generate_comparison_report : string -> string -> F -> Result Report;
  fmt_2f : F -> string
}.

(** The state a render task works on. [job] is the record [JOBS[job_id]];
    [observed] lists, oldest first, every value the record has had since it
    was created, which is what status polls can read. *)
Record St (F Report : Type) : Type := mkSt {
  job : Job.t F Report;
  observed : list (Job.t F Report);
  disk : FS;
  GLOBAL_STATS : GlobalStats.t F
}.

(** [shutil.rmtree(p)] *)
Definition rmtree (p : string) (fs : FS) : FS :=
  filter (fun q => negb (String.eqb q p || String.prefix (p ++ "/") q)) fs.

(** [p.mkdir(exist_ok=True)] on a file system whose existing paths are
    directories: nothing to do when [p] exists, [FileNotFoundError] when
    its parent does not, and otherwise [p] is created. The root and the
    working directory, the parent of a relative path of one component,
    always exist. *)
Definition parent_exists (p : string) (fs : FS) : bool :=
  (String.eqb (dirname p) "" || String.eqb (dirname p) "/"
   || exists_path (dirname p) fs)%bool.

Definition mkdir_exist_ok (p : string) (fs : FS) : Result unit * FS :=
  if exists_path p fs then (ret tt, fs)
  else if parent_exists p fs then (ret tt, p :: fs)
  else
    (raise (OSError ("[Errno 2] No such file or directory: " ++ repr_str p)), fs).

Section Task.

Context {F Report : Type} `{PyFloat F}.
Variable c : Collaborators F Report.

Definition Task (A : Type) : Type := St F Report -> Result A * St F Report.

Definition tret {A} (a : A) : Task A := fun st => (ret a, st).

Definition tbind {A B} (m : Task A) (k : A -> Task B) : Task B :=
  fun st =>
    match m st with
    | (inl e, st') => (inl e, st')
    | (inr a, st') => k a st'
    end.

Notation "x <~ m ;; k" := (tbind m (fun x => k))
  (at level 61, m at next level, right associativity).
Notation "m ;;; k" := (tbind m (fun _ => k))
  (at level 61, right associativity).

(** A call that may raise and leaves the state alone. *)
Definition lift {A} (r : Result A) : Task A := fun st => (r, st).

(** [job[key] = v] *)
Definition assign (f : Job.t F Report -> Job.t F Report) : Task unit :=
  fun st =>
    let j := f (job st) in
    (ret tt, mkSt j (observed st ++ [j])%list (disk st) (GLOBAL_STATS st)).

Definition update_stats (f : GlobalStats.t F -> GlobalStats.t F) : Task unit :=
  fun st => (ret tt, mkSt (job st) (observed st) (disk st) (f (GLOBAL_STATS st))).

Definition on_disk {A} (call : FS -> Result A * FS) : Task A :=
  fun st =>
    let '(r, fs) := call (disk st) in
    (r, mkSt (job st) (observed st) fs (GLOBAL_STATS st)).

(** [def on_progress(p): job["progress"] = p] *)
Definition on_progress (p : Z) : Task unit := assign (Job.set_progress p).

Fixpoint for_each {A} (f : A -> Task unit) (l : list A) : Task unit :=
  match l with
  | [] => tret tt
  | a :: l' => f a ;;; for_each f l'
  end.

(** The call [run_parallel(..., quiet=True, progress_callback=on_progress)]:
    the callback runs for each reported value, then the call returns or
    raises. *)
Definition call_run_parallel (input_path output_path : string)
    (metadata : VideoMetadata.t F) (workers : Z)
    (filter_chain job_temp : string) : Task F :=
  fun st =>
    let '(reported, outcome, fs) :=
      run_parallel c input_path output_path metadata workers filter_chain
        job_temp (disk st) in
    (for_each on_progress reported ;;; lift outcome)
      (mkSt (job st) (observed st) fs (GLOBAL_STATS st)).

Section Body.

Variables (job_id input_path : string).

Definition job_temp : string := path_join (TEMP_BASE c) job_id.
Definition output_filename : string := "output_" ++ job_id ++ ".mp4".
Definition output_path : string := path_join (OUTPUT_DIR c) output_filename.

(** The body of the [try] statement of [run_render_task]. *)
Definition try_block (workers : Z) (filter_chain : string)
    (smart_mode : bool) (engine_version : string) : Task unit :=
  (* 1. Analyze *)
  metadata <~ lift (analyze_video c input_path) ;;
  (* 2. Smart mode override *)
  wf <~ (if smart_mode then
           smart_conf <~ lift
             (if String.eqb engine_version "v2" && V2_AVAILABLE c
              then get_content_aware_config c metadata workers input_path
              else get_smart_config c metadata workers) ;;
           let workers := SmartConf.workers smart_conf in
           let filter_chain := SmartConf.filter smart_conf in
           assign (Job.set_workers workers) ;;;
           assign (Job.set_filter_chain filter_chain) ;;;
           assign (Job.set_smart_config (Some smart_conf)) ;;;
           tret (workers, filter_chain)
         else tret (workers, filter_chain)) ;;
  let workers := fst wf in
  let filter_chain := snd wf in
  (* 3. Serial benchmark *)
  assign (Job.set_phase Phase.benchmarking) ;;;
  serial_sample_time <~
    on_disk (benchmark_serial c input_path job_temp filter_chain) ;;
  let bench_dur := fmin (of_int 2) (VideoMetadata.duration metadata) in
  ratio <~ lift (truediv (VideoMetadata.duration metadata) bench_dur) ;;
  let projected_serial := fmul ratio serial_sample_time in
  assign (Job.set_projected_serial_time
            (Some (fmt_2f c projected_serial ++ "s"))) ;;;
  (* 5. Run parallel *)
  assign (Job.set_phase Phase.parallel) ;;;
  elapsed <~ call_run_parallel input_path output_path metadata workers
               filter_chain job_temp ;;
  assign (Job.set_status Status.completed) ;;;
  assign (Job.set_phase Phase.completed) ;;;
  assign (Job.set_progress 100) ;;;
  assign (Job.set_output (Some ("/outputs/" ++ output_filename))) ;;;
  assign (Job.set_duration (Some (fmt_2f c elapsed ++ "s"))) ;;;
  report <~ lift (generate_comparison_report c input_path output_path
                    (fmin (of_int 8) (VideoMetadata.duration metadata))) ;;
  assign (Job.set_comparison_report (Some report)) ;;;
  (* Update global stats *)
  update_stats (fun g =>
    GlobalStats.mk (GlobalStats.total_jobs g)
      (GlobalStats.successful_jobs g + 1) (GlobalStats.failed_jobs g)
      (GlobalStats.total_frames_processed g)
      (GlobalStats.total_processing_time g)) ;;;
  update_stats (fun g =>
    GlobalStats.mk (GlobalStats.total_jobs g)
      (GlobalStats.successful_jobs g) (GlobalStats.failed_jobs g)
      (GlobalStats.total_frames_processed g)
      (fadd (GlobalStats.total_processing_time g) elapsed)) ;;;
  frames <~ lift (to_int (fmul (VideoMetadata.duration metadata)
                               (VideoMetadata.fps metadata))) ;;
  update_stats (fun g =>
    GlobalStats.mk (GlobalStats.total_jobs g)
      (GlobalStats.successful_jobs g) (GlobalStats.failed_jobs g)
      (GlobalStats.total_frames_processed g + frames)
      (GlobalStats.total_processing_time g)).

(** The [except Exception as e] handler. *)
Definition except_block (e : PyExn) : Task unit :=
  assign (Job.set_status Status.failed) ;;;
  assign (Job.set_phase Phase.completed) ;;;
  assign (Job.set_error (Some (str_exn e))) ;;;
  update_stats (fun g =>
    GlobalStats.mk (GlobalStats.total_jobs g)
      (GlobalStats.successful_jobs g) (GlobalStats.failed_jobs g + 1)
      (GlobalStats.total_frames_processed g)
      (GlobalStats.total_processing_time g)).

(** The [finally] clause. *)
Definition finally_block : Task unit :=
  fun st =>
    if exists_path job_temp (disk st) then
      (ret tt, mkSt (job st) (observed st) (rmtree job_temp (disk st))
                 (GLOBAL_STATS st))
    else (ret tt, st).

(** The statements between [job = JOBS[job_id]] and the [try]: two
    writes to the record, then [job_temp.mkdir(exist_ok=True)], which
    may raise. *)
Definition prologue : Task unit :=
  assign (Job.set_status Status.processing) ;;;
  assign (Job.set_phase Phase.analyzing) ;;;
  on_disk (mkdir c job_temp).

(** [run_render_task(job_id, input_path, workers, filter_chain,
    smart_mode, engine_version)] from the point where [job] is the
    record [JOBS[job_id]]. What the statements before the [try] raise
    leaves the function as it is: no handler and no [finally] clause
    covers them. *)
Definition run_render_task (workers : Z) (filter_chain : string)
    (smart_mode : bool) (engine_version : string) : Task unit :=
  fun st =>
    match prologue st with
    | (inl e, st0) => (raise e, st0)
    | (inr _, st0) =>
        match try_block workers filter_chain smart_mode engine_version st0 with
        | (inr _, st1) => finally_block st1
        | (inl e, st1) => finally_block (snd (except_block e st1))
        end
    end.

End Body.

End Task.

(** ** Job submission *)

(** What [create_job] reads from the host: [resolve_input_path] (the
    resolved path and its display form relative to the project root, or the
    HTTP error it raises), [os.cpu_count()], the first eight characters of a
    fresh UUID, and [time.time()]. *)
Record Host (F : Type) : Type := mkHost {
  resolve_input_path : string -> Result (string * string);
  cpu_count : option Z;
  uuid4_prefix : string;
  time_now : F
}.

(** A call recorded by [background_tasks.add_task(run_render_task, ...)]. *)
Record Scheduled : Type := mkScheduled {
  task_job_id : string;
  task_input_path : string;
  task_workers : Z;
  task_filter_chain : string;
  task_smart_mode : bool;
  task_engine_version : string
}.

Record Store (F Report : Type) : Type := mkStore {
  JOBS : list (string * Job.t F Report);
  stats : GlobalStats.t F;
  background_tasks : list Scheduled
}.

(** [a or b] on optional integers and strings: [None], [0] and the empty
    string are falsy. *)
Definition or_int (a : option Z) (b : option Z) : option Z :=
  match a with
  | Some n => if n =? 0 then b else Some n
  | None => b
  end.

Definition or_else (a : option Z) (b : Z) : Z :=
  match a with
  | Some n => if n =? 0 then b else n
  | None => b
  end.

Definition or_str (a : option string) (b : string) : string :=
  match a with
  | Some s => if String.eqb s "" then b else s
  | None => b
  end.

Definition default_filter : string := "unsharp=5:5:1.5:5:5:0.5".

Section Dispatch.

Context {F Report : Type} `{PyFloat F}.
Variable c : Collaborators F Report.


End Dispatch.

Section Submission.

Context {F Report : Type}.
Variable v2_available : bool.
Variable host : Host F.

(** [create_job(job_req, background_tasks)] *)
Definition create_job (job_req : JobCreate.t) (store : Store F Report)
    : Result (Job.t F Report) * Store F Report :=
  match resolve_input_path host (JobCreate.input_path job_req) with
  | inl e => (raise e, store)
  | inr (resolved_input_path, input_display_path) =>
      let engine_version := or_str (JobCreate.engine_version job_req) "v1" in
      if String.eqb engine_version "v2" && negb v2_available then
        (raise (HTTPException 400 "V2 engine not available"), store)
      else
        let job_id := uuid4_prefix host in
        let workers :=
          or_else (or_int (JobCreate.workers job_req) (cpu_count host)) 4 in
        if workers <? 1 then
          (raise (HTTPException 400 "workers must be >= 1"), store)
        else
          let filter_chain := or_str (JobCreate.filter_chain job_req) default_filter in
          let record :=
            Job.mk job_id Status.queued Phase.queued 0 input_display_path
              workers filter_chain (time_now host) None None engine_version
              None None None None in
          let g := stats store in
          (ret record,
           mkStore (dict_set String.eqb job_id record (JOBS store))
             (GlobalStats.mk (GlobalStats.total_jobs g + 1)
                (GlobalStats.successful_jobs g) (GlobalStats.failed_jobs g)
                (GlobalStats.total_frames_processed g)
                (GlobalStats.total_processing_time g))
             (background_tasks store ++
                [mkScheduled job_id resolved_input_path workers filter_chain
                   (match JobCreate.smart job_req with
                    | Some b => b
                    | None => false
                    end)
                   engine_version])%list)
  end.

End Submission.

End Server.

(* ===================================================================== *)
(** * render_engine.py: console output *)
(* ===================================================================== *)

(** What [display_results] and [get_cpu_bars] compute before handing it to
    the console: the rows of their tables. The formatting of a float to a
    fixed number of decimals ([f"{x:.2f}"], [f"{x:.1f}"], [f"{x:4.1f}"]) is a
    parameter. *)
Module Display.

(** [s * n] on a string: no copy for [n <= 0]. *)
Definition str_repeat (s : string) (n : Z) : string :=
  String.concat "" (repeat s (Z.to_nat n)).

(** [f"{i:02d}"] for a non-negative integer. *)
Definition fmt_02d (i : Z) : string :=
  let s := str_int i in
  match String.length s with
  | 1%nat => "0" ++ s
  | _ => s
  end.

(** [enumerate(l)] *)
Definition enumerate {A} (l : list A) : list (Z * A) :=
  combine (range (Z.of_nat (List.length l))) l.

Section Bars.

Context {F : Type} `{PyFloat F}.
Variable fmt_4_1f : F -> string.

(** ["green" if pct < 50 else "yellow" if pct < 85 else "red"] *)
Definition bar_color (pct : F) : string :=
  if flt pct (of_int 50) then "green"
  else if flt pct (of_int 85) then "yellow"
  else "red".

(** [filled = int(pct / 10)] *)
Definition bar_filled (pct : F) : Result Z :=
  q <- truediv_int pct 10 ;;
  to_int q.

(** One turn of the loop over [enumerate(per_cpu)]: the string appended
    to [bars]. *)
Definition cpu_bar (i : Z) (pct : F) : Result string :=
  let color := bar_color pct in
  filled <- bar_filled pct ;;
  let bar := str_repeat "█" filled ++ str_repeat "░" (10 - filled) in
  ret ("CPU" ++ fmt_02d i ++ ": [" ++ color ++ "]" ++ bar ++ "[/" ++ color ++ "] "
         ++ fmt_4_1f pct ++ "%").

(** The rows added to the grid: [cols = 4],
    [rows = (len(bars) + cols - 1) // cols], and the cell in row [r],
    column [c] is [bars[r + c * rows]] when that index exists and the
    empty string otherwise. *)
Definition grid_rows (bars : list string) : list (list string) :=
  let cols := 4 in
  let rows := (Z.of_nat (List.length bars) + cols - 1) / cols in
  map (fun r =>
         map (fun c =>
                let idx := r + c * rows in
                if idx <? Z.of_nat (List.length bars)
                then nth (Z.to_nat idx) bars ""
                else "")
             (range cols))
      (range rows).

(** [get_cpu_bars()], given the per-core readings of
    [psutil.cpu_percent(percpu=True)]. *)
Definition get_cpu_bars (per_cpu : list F) : Result (list (list string)) :=
  bars <- mapM (fun ip => cpu_bar (fst ip) (snd ip)) (enumerate per_cpu) ;;
  ret (grid_rows bars).

End Bars.

Section Results.

Context {F : Type} `{PyFloat F}.
Variables (fmt_2f fmt_1f : F -> string).

Definition failed_row (workers : Z) : list string :=
  [str_int workers; "FAILED"; "-"; "-"].

(** The row [display_results] adds for one item of the sweep results.
    [data['success'] and data['time']] is the time when the flag is set;
    a missing time and the time 0.0 are falsy. *)
Definition table_row (serial_time : F) (workers : Z) (data : SweepEntry.t F)
    : Result (list string) :=
  match (if SweepEntry.success data then SweepEntry.time data else None) with
  | Some time =>
      if fis_zero time then ret (failed_row workers)
      else
        speedup <- truediv serial_time time ;;
        per_worker <- truediv_int speedup workers ;;
        let efficiency := fmul per_worker (of_int 100) in
        ret [str_int workers; fmt_2f time; fmt_2f speedup ++ "x";
             fmt_1f efficiency ++ "%"]
  | None => ret (failed_row workers)
  end.

(** The rows of the "Scaling Results" table, in the order of
    [sorted(sweep_results.items())]. *)
Definition table_rows (serial_time : F) (sweep_results : list (Z * SweepEntry.t F))
    : Result (list (list string)) :=
  mapM (fun item => table_row serial_time (fst item) (snd item))
       (sort_by fst sweep_results).

End Results.

End Display.

(* ===================================================================== *)
(** * server.py: CORS configuration *)
(* ===================================================================== *)

(** The module-level statements that turn the environment variable
    [HPC_CORS_ORIGINS] into the list of allowed origins. A string is a
    sequence of code points below 256. *)
Module Cors.

(** The characters [str.strip()] removes, among the code points below 256:
    U+0009..U+000D, U+001C..U+0020, U+0085 and U+00A0. *)
Definition is_space (c : ascii) : bool :=
  let n := N_of_ascii c in
  ((9 <=? n)%N && (n <=? 13)%N) || ((28 <=? n)%N && (n <=? 32)%N)
  || (n =? 133)%N || (n =? 160)%N.

Fixpoint lstrip (s : string) : string :=
  match s with
  | EmptyString => EmptyString
  | String c s' => if is_space c then lstrip s' else s
  end.

Fixpoint rstrip (s : string) : string :=
  match s with
  | EmptyString => EmptyString
  | String c s' =>
      match rstrip s' with
      | EmptyString => if is_space c then EmptyString else String c EmptyString
      | r => String c r
      end
  end.

(** [s.strip()] *)
Definition strip (s : string) : string := rstrip (lstrip s).

(** [s.split(sep)] for a one-character separator: the empty string gives
    one empty item. *)
Fixpoint split (sep : ascii) (s : string) : list string :=
  match s with
  | EmptyString => [EmptyString]
  | String c s' =>
      if Ascii.eqb c sep then EmptyString :: split sep s'
      else match split sep s' with
           | item :: items => String c item :: items
           | [] => [String c EmptyString]
           end
  end.

(** [cors_origins], from [os.getenv("HPC_CORS_ORIGINS", "*")]: [None] is
    the unset variable. *)
Definition cors_origins (HPC_CORS_ORIGINS : option string) : list string :=
  let cors_origins_raw :=
    strip (match HPC_CORS_ORIGINS with
           | Some value => value
           | None => "*"
           end) in
  if String.eqb cors_origins_raw "*" then ["*"]
  else map strip
         (filter (fun origin => negb (String.eqb (strip origin) ""))
                 (split "," cors_origins_raw)).

(** The argument [allow_credentials=cors_origins != ["*"]] of the
    middleware. *)
Definition allow_credentials (HPC_CORS_ORIGINS : option string) : bool :=
  if list_eq_dec string_dec (cors_origins HPC_CORS_ORIGINS) ["*"] then false else true.

End Cors.

(* ===================================================================== *)
(** * server.py: comparison report *)
(* ===================================================================== *)

Module Comparison.

(** ** Reading a metric off ffmpeg's log *)

(** The character class [[0-9.]]. *)
Definition is_digit_or_dot (c : ascii) : bool :=
  let n := N_of_ascii c in
  ((48 <=? n)%N && (n <=? 57)%N) || (n =? 46)%N.

(** The longest prefix made of such characters: what the greedy group
    [([0-9.]+)] takes when it is not empty. *)
Fixpoint span_number (s : string) : string :=
  match s with
  | EmptyString => EmptyString
  | String c s' => if is_digit_or_dot c then String c (span_number s') else EmptyString
  end.

(** [s] with the prefix [p] removed, when it starts with [p]. *)
Fixpoint strip_prefix (p s : string) : option string :=
  match p, s with
  | EmptyString, _ => Some s
  | String _ _, EmptyString => None
  | String a p', String b s' => if Ascii.eqb a b then strip_prefix p' s' else None
  end.

(** The pattern [label([0-9.]+)] matched at the start of [s]: group 1. *)
Definition match_here (label s : string) : option string :=
  match strip_prefix label s with
  | Some rest =>
      match span_number rest with
      | EmptyString => None
      | group => Some group
      end
  | None => None
  end.

(** [re.search(label + "([0-9.]+)", s)], for a label without special
    characters: group 1 of the leftmost match, or [None]. *)
Fixpoint search_number (label s : string) : option string :=
  match match_here label s with
  | Some group => Some group
  | None =>
      match s with
      | EmptyString => None
      | String _ s' => search_number label s'
      end
  end.

Section Parsing.

Context {F : Type}.

(** [float(s)] on a string. *)
Variable float_of_str : string -> Result F.

(** [_parse_psnr(stderr)] *)
Definition _parse_psnr (stderr : string) : Result (option F) :=
  match search_number "average:" stderr with
  | Some group => value <- float_of_str group ;; ret (Some value)
  | None => ret None
  end.

(** [_parse_ssim(stderr)] *)
Definition _parse_ssim (stderr : string) : Result (option F) :=
  match search_number "All:" stderr with
  | Some group => value <- float_of_str group ;; ret (Some value)
  | None => ret None
  end.

End Parsing.

(** ** The verdict *)

Section Summary.

Context {F : Type} `{PyFloat F}.

(** [a >= b] and [a <= b] on floats. *)
Definition fge (a b : F) : bool := flt b a || feq a b.
Definition fle (a b : F) : bool := flt a b || feq a b.

(** The literals [0.99], [0.97] and [0.94]: the float nearest to
    [n / 100]. *)
Definition hundredths (n : Z) : F := fquot (of_int n) (of_int 100).

Definition quality (psnr_avg ssim_all : option F) : string :=
  match psnr_avg, ssim_all with
  | Some psnr, Some ssim =>
      if fge psnr (of_int 40) && fge ssim (hundredths 99) then "very high"
      else if fge psnr (of_int 35) && fge ssim (hundredths 97) then "high"
      else if fge psnr (of_int 30) && fge ssim (hundredths 94) then "moderate"
      else "noticeable changes"
  | _, _ => "unknown"
  end.

Definition size_note (size_change_pct : F) : string :=
  if fle size_change_pct (of_int (-5)) then "smaller output size"
  else if fge size_change_pct (of_int 5) then "larger output size"
  else "roughly unchanged".

(** [f"{x:+.1f}"] *)
Variable fmt_signed_1f : F -> string.

(** [_build_comparison_summary(psnr_avg, ssim_all, size_change_pct)] *)
Definition _build_comparison_summary (psnr_avg ssim_all : option F)
    (size_change_pct : F) : string :=
  "Visual similarity is " ++ quality psnr_avg ssim_all ++ ". File size is "
    ++ size_note size_change_pct ++ " (" ++ fmt_signed_1f size_change_pct ++ "%).".

End Summary.

(** ** The report *)

(** The dict [generate_comparison_report] returns. *)
Module Report.
Record t (F : Type) : Type := mk {
  sample_seconds : F;
  input_size_mb : F;
  output_size_mb : F;
  size_change_pct : F;
  psnr_avg : option F;
  ssim_all : option F;
  summary : string;
  generated_at : F
}.
End Report.

(** What the report reads from outside: [os.path.getsize], the standard
    error of [subprocess.run(cmd, capture_output=True, text=True,
    check=True)] or the exception it raises, [float(s)], [round(x, n)],
    the two formats and [time.time()]. *)
Record Env (F : Type) : Type := mkEnv {
  getsize : string -> Result Z;
  run_capture : list string -> Result string;
  float_of_str : string -> Result F;
  round_nd : F -> Z -> F;
  fmt_2f : F -> string;
  fmt_signed_1f : F -> string;
  time_now : F
}.

(** [try: ... except Exception: value = None] *)
Definition or_none {A} (r : Result (option A)) : option A :=
  match r with
  | inr value => value
  | inl _ => None
  end.

Section ReportBody.

Context {F : Type} `{PyFloat F}.
Variable env : Env F.

Definition metric_cmd (input_path output_path : string) (sample_seconds : F)
    (lavfi : string) : list string :=
  ["ffmpeg"; "-hide_banner"; "-v"; "info";
   "-t"; fmt_2f env sample_seconds; "-i"; input_path;
   "-t"; fmt_2f env sample_seconds; "-i"; output_path;
   "-lavfi"; lavfi;
   "-f"; "null"; "-"].

(** [generate_comparison_report(input_path, output_path, sample_seconds)] *)
Definition generate_comparison_report (input_path output_path : string)
    (sample_seconds : F) : Result (Report.t F) :=
  input_bytes <- getsize env input_path ;;
  input_size_mb <- truediv_ints input_bytes (1024 * 1024) ;;
  output_bytes <- getsize env output_path ;;
  output_size_mb <- truediv_ints output_bytes (1024 * 1024) ;;
  size_change_pct <-
    (if flt (of_int 0) input_size_mb then
       ratio <- truediv (fsub output_size_mb input_size_mb) input_size_mb ;;
       ret (fmul ratio (of_int 100))
     else ret (of_int 0)) ;;
  let psnr_cmd := metric_cmd input_path output_path sample_seconds "[0:v][1:v]psnr" in
  let ssim_cmd := metric_cmd input_path output_path sample_seconds "[0:v][1:v]ssim" in
  let psnr_avg :=
    or_none (stderr <- run_capture env psnr_cmd ;;
             _parse_psnr (float_of_str env) stderr) in
  let ssim_all :=
    or_none (stderr <- run_capture env ssim_cmd ;;
             _parse_ssim (float_of_str env) stderr) in
  let summary :=
    _build_comparison_summary (fmt_signed_1f env) psnr_avg ssim_all size_change_pct in
  ret (Report.mk
         (round_nd env sample_seconds 2)
         (round_nd env input_size_mb 2)
         (round_nd env output_size_mb 2)
         (round_nd env size_change_pct 2)
         (option_map (fun x => round_nd env x 3) psnr_avg)
         (option_map (fun x => round_nd env x 5) ssim_all)
         summary
         (time_now env)).

End ReportBody.

End Comparison.

(* ===================================================================== *)
(** * server.py: the other endpoints *)
(* ===================================================================== *)

Module Api.

(** The response of [GET /stats]. *)
Module ClusterStats.
Record t (F : Type) : Type := mk {
  cpu_percent : F;
  cpu_count : Z;
  per_cpu : list F;
  memory_percent : F;
  memory_used_gb : F;
  memory_total_gb : F;
  active_jobs : Z;
  queued_jobs : Z;
  completed_jobs : Z;
  failed_jobs : Z;
  total_jobs : Z;
  avg_throughput_fps : F;
  success_rate : F;
  v2_available : bool
}.
End ClusterStats.

(** The readings [get_cluster_stats] takes from [psutil]: [cpu_percent()],
    [cpu_count(logical=True)], [cpu_percent(percpu=True)] and the fields
    [percent], [used] and [total] of [virtual_memory()]. *)
Record Psutil (F : Type) : Type := mkPsutil {
  cpu_percent : F;
  cpu_count : Z;
  per_cpu : list F;
  mem_percent : F;
  mem_used : Z;
  mem_total : Z
}.

Definition status_eqb (a b : Status.t) : bool :=
  match a, b with
  | Status.queued, Status.queued | Status.processing, Status.processing
  | Status.completed, Status.completed | Status.failed, Status.failed => true
  | _, _ => false
  end.

(** [sorted(l, key=key, reverse=True)] on float keys. Python reverses the
    list, sorts it stably with [<] and reverses the result. *)
Fixpoint insert_lt {A} (lt : A -> A -> bool) (x : A) (l : list A) : list A :=
  match l with
  | [] => [x]
  | y :: l' => if lt x y then x :: l else y :: insert_lt lt x l'
  end.

Definition sorted_by_lt {A} (lt : A -> A -> bool) (l : list A) : list A :=
  fold_left (fun acc x => insert_lt lt x acc) l [].

Definition sorted_reverse {A F} `{PyFloat F} (key : A -> F) (l : list A) : list A :=
  rev (sorted_by_lt (fun a b => flt (key a) (key b)) (rev l)).

Section Endpoints.

Context {F Report : Type} `{PyFloat F}.

(** [sum(1 for j in JOBS.values() if j["status"] == status)] *)
Definition count_status (status : Status.t) (store : Server.Store F Report) : Z :=
  Z.of_nat (List.length
              (filter (fun kv => status_eqb (Job.status (snd kv)) status)
                      (Server.JOBS store))).

(** [get_cluster_stats()]; [round(x, 1)] is [round_1]. *)
Definition get_cluster_stats (v2_available : bool) (psutil : Psutil F)
    (round_1 : F -> F) (store : Server.Store F Report)
    : Result (ClusterStats.t F) :=
  let active := count_status Status.processing store in
  let queued := count_status Status.queued store in
  let completed := count_status Status.completed store in
  let failed := count_status Status.failed store in
  let total := Z.of_nat (List.length (Server.JOBS store)) in
  let g := Server.stats store in
  avg_fps <-
    (if flt (of_int 0) (GlobalStats.total_processing_time g)
     then truediv (of_int (GlobalStats.total_frames_processed g))
            (GlobalStats.total_processing_time g)
     else ret (of_int 0)) ;;
  let completed_total := completed + failed in
  success_rate <-
    (if 0 <? completed_total
     then ratio <- truediv_ints completed completed_total ;;
          ret (fmul ratio (of_int 100))
     else ret (of_int 100)) ;;
  memory_used_gb <- truediv_ints (mem_used psutil) (1024 ^ 3) ;;
  memory_total_gb <- truediv_ints (mem_total psutil) (1024 ^ 3) ;;
  ret (ClusterStats.mk (cpu_percent psutil) (cpu_count psutil) (per_cpu psutil)
         (mem_percent psutil) memory_used_gb memory_total_gb
         active queued completed failed total
         (round_1 avg_fps) (round_1 success_rate) v2_available).

(** [list_jobs()] *)
Definition list_jobs (store : Server.Store F Report) : list (Job.t F Report) :=
  sorted_reverse (@Job.created_at F Report) (map snd (Server.JOBS store)).

(** [get_job(job_id)] *)
Definition get_job (job_id : string) (store : Server.Store F Report)
    : Result (Job.t F Report) :=
  match dict_get String.eqb job_id (Server.JOBS store) with
  | None => raise (HTTPException 404 "Job not found")
  | Some job => ret job
  end.

(** [delete_job(job_id)]: the message returned and the store left. *)
Definition delete_job (job_id : string) (store : Server.Store F Report)
    : Result string * Server.Store F Report :=
  match dict_get String.eqb job_id (Server.JOBS store) with
  | None => (raise (HTTPException 404 "Job not found"), store)
  | Some _ =>
      (ret "Job deleted",
       Server.mkStore (dict_del String.eqb job_id (Server.JOBS store))
         (Server.stats store) (Server.background_tasks store))
  end.

End Endpoints.

End Api.

(* ===================================================================== *)
(** * Vocabulary of the stated properties *)
(* ===================================================================== *)

(** ** Chunk intervals *)

(** The task [plan_chunks] builds for index [i]. *)
Definition planned_task {F} `{PyFloat F} (input_path : string) (duration : F)
    (num_chunks : Z) (temp_dir : string) (i : Z) : ChunkTask.t F :=
  let chunk_duration := fquot duration (of_int num_chunks) in
  let start := fmul (of_int i) chunk_duration in
  ChunkTask.mk i start
    (if i <? num_chunks - 1 then chunk_duration else fsub duration start)
    input_path (path_join temp_dir ("chunk_" ++ fmt_03d i ++ ".mp4")).

Section Intervals.

Context {F : Type} `{PyFloat F}.

(** The right end of a task's interval, [start + duration]. *)
Definition task_end (t : ChunkTask.t F) : F :=
  fadd (ChunkTask.start t) (ChunkTask.duration t).

(** Walks the tasks in order from the boundary [b]: each task must start
    where the previous interval ended ([==] on floats). Returns the end of
    the last interval. *)
Fixpoint chain_end (b : F) (tasks : list (ChunkTask.t F)) : option F :=
  match tasks with
  | [] => Some b
  | t :: rest =>
      if feq (ChunkTask.start t) b then chain_end (task_end t) rest else None
  end.

(** The intervals start at 0, each begins where the previous one ends, and
    the last one ends at [total]. *)
Definition tiles (total : F) (tasks : list (ChunkTask.t F)) : bool :=
  match chain_end (of_int 0) tasks with
  | Some e => feq e total
  | None => false
  end.

End Intervals.

(** *** Binary64 plans *)

(** The interval of a task as the pair of its start and its duration, and
    the pair [plan_chunks] computes for index [i]. *)
Definition span {F} (t : ChunkTask.t F) : F * F :=
  (ChunkTask.start t, ChunkTask.duration t).

Definition span_end {F} `{PyFloat F} (s : F * F) : F := fadd (fst s) (snd s).

Definition planned_span {F} `{PyFloat F} (duration : F) (num_chunks i : Z) : F * F :=
  let chunk_duration := fquot duration (of_int num_chunks) in
  let start := fmul (of_int i) chunk_duration in
  (start, if i <? num_chunks - 1 then chunk_duration else fsub duration start).

(** [e] is the double [s] or one of the two doubles next to it. *)
Definition within_one_ulp (e s : float) : bool :=
  (PrimFloat.eqb e s || PrimFloat.eqb e (PrimFloat.next_up s)
   || PrimFloat.eqb e (PrimFloat.next_down s))%bool.

(** Walks the intervals after [prev]: each starts after the start of the one
    before it, and where the one before it ends or one double away. *)
Fixpoint seams_near (prev : float * float) (rest : list (float * float)) : bool :=
  match rest with
  | [] => true
  | s :: rest' =>
      (PrimFloat.ltb (fst prev) (fst s) && within_one_ulp (span_end prev) (fst s)
       && seams_near s rest')%bool
  end.

(** A partition up to rounding: the first interval starts at 0, the starts
    increase strictly, neighbours meet within one double, every duration is
    positive, and the last interval ends at [total] exactly. *)
Definition near_partition (total : float) (spans : list (float * float)) : bool :=
  match spans with
  | [] => false
  | s :: rest =>
      (PrimFloat.eqb (fst s) 0 && seams_near s rest
       && forallb (fun s => PrimFloat.ltb 0 (snd s)) spans
       && PrimFloat.eqb (span_end (last spans s)) total)%bool
  end.

(** Every binary64 plan for a whole number of seconds from 1 to
    [max_seconds], cut into 1 to [max_chunks] segments, is a partition up
    to rounding. *)
Definition binary64_plans_near (max_seconds max_chunks : Z) : bool :=
  forallb (fun d =>
    forallb (fun c =>
       near_partition (of_int (d + 1))
         (map (planned_span (of_int (d + 1)) (c + 1)) (range (c + 1))))
      (range max_chunks))
    (range max_seconds).

(** [x] lies in the half-open interval of [t], in exact arithmetic. *)
Definition covers (t : ChunkTask.t Q) (x : Q) : Prop :=
  (ChunkTask.start t <= x /\ x < ChunkTask.start t + ChunkTask.duration t)%Q.

(** ** Segment count *)

(** Rounding to the nearest integer, halves to the even neighbour (Python's
    [round]) or upwards. *)
Definition round_half_even (q : Q) : Z :=
  let f := Qfloor q in
  match Qcompare (q - inject_Z f) (1 # 2) with
  | Lt => f
  | Gt => f + 1
  | Eq => if Z.even f then f else f + 1
  end.

Definition round_half_up (q : Q) : Z := Qfloor (q + (1 # 2)).

(** The count in the words of the specification, "C = max(W, round(1.5 W))",
    for either rounding. *)
Definition spec_segment_count (round : Q -> Z) (W : Z) : Z :=
  Z.max W (round ((3 # 2) * inject_Z W)%Q).

(** ** Worker series *)

Definition power_of_two (x : Z) : Prop := exists k : Z, 0 <= k /\ x = 2 ^ k.

(** What the list holds while the doubling loop runs with counter [w]. *)
Definition series_inv (max_workers w : Z) (l : list Z) : Prop :=
  StronglySorted Z.lt l /\
  Forall (fun x => x < w /\ x <= max_workers /\ power_of_two x) l /\
  exists rest, l = 1 :: rest.

(** ** Job histories *)

(** The successive values of [job["phase"]] and [job["progress"]]. *)
Definition phase_history {F Report} (st : Server.St F Report) : list Phase.t :=
  map (@Job.phase F Report) (Server.observed st).

Definition progress_history {F Report} (st : Server.St F Report) : list Z :=
  map (@Job.progress F Report) (Server.observed st).

(** The successive distinct values of a history: runs of equal phases are
    collapsed, so consecutive entries are the transitions. *)
Fixpoint transitions (l : list Phase.t) : list Phase.t :=
  match l with
  | [] => []
  | x :: rest =>
      match rest with
      | [] => [x]
      | y :: _ => if Phase.eqb x y then transitions rest else x :: transitions rest
      end
  end.


(** The state of a task about to start on the record [j] that [create_job]
    has just stored. *)
Definition submitted {F Report} (j : Job.t F Report) (disk : FS)
    (g : GlobalStats.t F) : Server.St F Report :=
  Server.mkSt j [j] disk g.

(** ** Reasoning about a running task *)

Section TaskLogic.

Context {F Report : Type}.

(** The state after a write [job[key] = v]: the record changes and its new
    value becomes observable. *)
Definition push (f : Job.t F Report -> Job.t F Report) (st : Server.St F Report)
    : Server.St F Report :=
  Server.mkSt (f (Server.job st)) (Server.observed st ++ [f (Server.job st)])
    (Server.disk st) (Server.GLOBAL_STATS st).

(** The record is the most recent observable value. *)
Definition consistent (st : Server.St F Report) : Prop :=
  exists earlier, Server.observed st = (earlier ++ [Server.job st])%list.

(** From a state satisfying [P] the task either returns [a] in a state
    satisfying [Q a] or raises in a state satisfying [E]. *)
Definition triple {A} (P : Server.St F Report -> Prop)
    (m : Server.St F Report -> Result A * Server.St F Report)
    (Q : A -> Server.St F Report -> Prop) (E : Server.St F Report -> Prop) : Prop :=
  forall st, P st ->
    match m st with
    | (inr a, st') => Q a st'
    | (inl _, st') => E st'
    end.

(** [P] does not depend on the disk or on the global counters. *)
Definition silent_on (P : Server.St F Report -> Prop) : Prop :=
  forall st fs g, P st -> P (Server.mkSt (Server.job st) (Server.observed st) fs g).

(** The job has gone through exactly the phases [hs], in this order. *)
Definition phases_are (hs : list Phase.t) (st : Server.St F Report) : Prop :=
  consistent st /\ transitions (phase_history st) = hs.


(** Progress has never decreased so far and lies between 0 and [hi]. *)
Definition progress_below (hi : Z) (st : Server.St F Report) : Prop :=
  consistent st /\ StronglySorted Z.le (progress_history st) /\
  0 <= Job.progress (Server.job st) <= hi.

(** What the progress invariant needs from [run_parallel]: the values it
    reports to the callback never decrease and are percentages. *)
Definition reports_percentages (c : Server.Collaborators F Report) : Prop :=
  forall input output metadata workers filter_chain temp fs,
    let reported :=
      fst (fst (Server.run_parallel c input output metadata workers
                  filter_chain temp fs)) in
    StronglySorted Z.le reported /\ Forall (fun p => 0 <= p <= 100) reported.

(** The record reads completed, at progress 100, in the terminal phase. *)
Definition finished (st : Server.St F Report) : Prop :=
  Job.status (Server.job st) = Status.completed /\
  Job.progress (Server.job st) = 100 /\
  Job.phase (Server.job st) = Phase.completed.

End TaskLogic.

(** ** Sample runs *)

(** A 30 second clip, 1280x720 at 30 frames per second. *)
Definition sample_metadata : VideoMetadata.t float :=
  VideoMetadata.mk 30%float 1280 720 30%float "h264" true.

Definition sample_diagnostic : string := "Invalid data found when processing input".

(** The text of a [CalledProcessError], with the argument list cut short. *)
Definition sample_failure_text : string :=
  "Command '['ffmpeg', '-y']' returned non-zero exit status 1.".

(** An encoder that fails on the chunk [bad] with [sample_diagnostic] on its
    standard error and otherwise writes its output file; a merge tool whose
    stream copy and re-encode succeed or fail as [copy_ok] and [reencode_ok]
    say, and which leaves a file at the output path even when it fails.
    A failed command is described by [sample_failure_text]. Futures complete
    in reverse submission order. *)
Definition sample_world (bad : Z) (copy_ok reencode_ok : bool) : World float :=
  mkWorld
    (fun cmd fs =>
       match cmd with
       | EncodeChunk t _ =>
           if ChunkTask.chunk_id t =? bad
           then (mkCompleted false sample_diagnostic 1%float, fs)
           else (mkCompleted true "" 1%float, ChunkTask.output_path t :: fs)
       | ConcatCopy _ out => (mkCompleted copy_ok "" 1%float, out :: fs)
       | ConcatReencode _ out => (mkCompleted reencode_ok "" 1%float, out :: fs)
       | EncodeSerial _ out _ => (mkCompleted true "" 1%float, out :: fs)
       end)
    (fun _ _ => sample_failure_text)
    (fun chunks => rev chunks)
    (fun p => "/work/" ++ p)
    2%float.

Definition empty_sys : Sys float := mkSys [] [].

(** Collaborators of the server that answer as scripted, whatever their
    arguments; a successful [run_parallel] leaves the output file. *)
Definition scripted (analysis : Result (VideoMetadata.t float))
    (config : Result SmartConf.t) (benchmark : Result float)
    (reported : list Z) (parallel : Result float) (report : Result string)
    : Server.Collaborators float string :=
  Server.mkCollaborators false ".server_temp" "outputs" Server.mkdir_exist_ok
    (fun _ => analysis)
    (fun _ _ => config)
    (fun _ _ _ => config)
    (fun _ _ _ fs => (benchmark, fs))
    (fun _ output _ _ _ _ fs =>
       (reported, parallel,
        match parallel with inr _ => output :: fs | inl _ => fs end))
    (fun _ _ _ => report)
    (fun _ => "0.00").

(** Every step succeeds; [run_parallel] reports 50 and then 100 to the
    callback. *)
Definition all_succeed : Server.Collaborators float string :=
  scripted (ret sample_metadata) (ret (SmartConf.mk 4 Server.default_filter))
    (ret 1%float) [50; 100] (ret 2%float) (ret "report").

(** Everything succeeds up to and including the merge, [run_parallel]
    having reported 50 to the callback; the comparison report then fails
    because the input file is gone. *)
Definition report_fails : Server.Collaborators float string :=
  scripted (ret sample_metadata) (ret (SmartConf.mk 4 Server.default_filter))
    (ret 1%float) [50] (ret 2%float)
    (raise (OSError "[Errno 2] No such file or directory")).

(** [run_parallel] raises after reporting 16, 33 and 50. *)
Definition parallel_fails : Server.Collaborators float string :=
  scripted (ret sample_metadata) (ret (SmartConf.mk 4 Server.default_filter))
    (ret 1%float) [16; 33; 50] (raise (RuntimeError "1 chunks failed"))
    (ret "report").

(** A host with eight CPUs whose project root is [/srv/app], and a request
    that names its input and leaves every optional field out. *)
Definition sample_host : Server.Host float :=
  Server.mkHost (fun p => ret ("/srv/app/" ++ p, p)) (Some 8) "1a2b3c4d" 0%float.

Definition sample_request : JobCreate.t :=
  JobCreate.mk "uploads/input.mp4" None None None None.

Definition empty_store : Server.Store float string :=
  Server.mkStore [] (GlobalStats.mk 0 0 0 0 0%float) [].

(** The record [create_job] stores for [sample_request] on [sample_host],
    and the counters after that submission. *)
Definition sample_job : Job.t float string :=
  Job.mk "1a2b3c4d" Status.queued Phase.queued 0 "uploads/input.mp4" 8
    Server.default_filter 0%float None None "v1" None None None None.

Definition sample_stats : GlobalStats.t float := GlobalStats.mk 1 0 0 0 0%float.

(** The disk once [server.py] has been imported: its three storage
    directories exist, as [mkdir(exist_ok=True)] at module level leaves
    them. *)
Definition server_dirs : FS := ["outputs"; ".server_temp"; "uploads"].

(** ** Commands of a parallel run *)

(** The command encodes one chunk. *)
Definition is_encode {F} (c : Invocation F) : bool :=
  match c with
  | EncodeChunk _ _ => true
  | _ => false
  end.

(** An entry of the sweep's result dict is one of the two shapes
    [run_scaling_sweep] stores: a time with the flag set, or no time, the
    flag cleared and no chunk times. A set flag belongs to a worker count of
    at least one. *)
Definition entry_shape {F} (kv : Z * SweepEntry.t F) : Prop :=
  (SweepEntry.success (snd kv) = true ->
   1 <= fst kv /\ exists t, SweepEntry.time (snd kv) = Some t) /\
  (SweepEntry.success (snd kv) = false ->
   SweepEntry.time (snd kv) = None /\ SweepEntry.chunk_times (snd kv) = []).

(** ** The CPU grid *)

(** Column [c] of a table, top to bottom, and the table read column after
    column, as the dashboard lays the bars out. *)
Definition column (c : nat) (table : list (list string)) : list string :=
  map (fun row => nth c row "") table.

Definition read_by_columns (table : list (list string)) : list string :=
  flat_map (fun c => column c table) (seq 0 4).

(** Every one-decimal reading from 0.0 to 100.0, as [psutil] rounds them,
    fills [floor(pct / 10)] cells of its bar and gets the colour of its
    band, in binary64. The reading [k / 10] is given by [k]. *)
Definition binary64_bars_agree (n : Z) : bool :=
  forallb (fun k =>
             let pct := fquot (of_int k) (of_int 10) : float in
             match Display.bar_filled pct with
             | inr filled => filled =? k / 100
             | inl _ => false
             end &&
             String.eqb (Display.bar_color pct)
               (if k <? 500 then "green" else if k <? 850 then "yellow" else "red"))
          (range n).

(** ** Origins *)

(** The string holds no comma. *)
Fixpoint comma_free (s : string) : bool :=
  match s with
  | EmptyString => true
  | String c s' => negb (Ascii.eqb c ",") && comma_free s'
  end.

(** The first character, if any, is not whitespace. *)
Definition starts_clean (s : string) : bool :=
  match s with
  | EmptyString => true
  | String c _ => negb (Cors.is_space c)
  end.

(** An origin as the configuration keeps it: not empty, no whitespace at
    either end, no comma. *)
Definition clean_origin (o : string) : Prop :=
  o <> "" /\ Cors.strip o = o /\ comma_free o = true.

(** ** Numbers in a log *)

(** Every character is a digit or a dot; the first character is one. *)
Fixpoint number_chars (g : string) : bool :=
  match g with
  | EmptyString => true
  | String c g' => Comparison.is_digit_or_dot c && number_chars g'
  end.

Definition starts_number (s : string) : bool :=
  match s with
  | EmptyString => false
  | String c _ => Comparison.is_digit_or_dot c
  end.

(** [label] occurs in [s] after [pre], followed by [rest]. *)
Definition occurs_at (label s pre rest : string) : Prop := s = pre ++ label ++ rest.

(** ** Grades *)

(** The grade of one metric against its three thresholds, from 0 (below
    all) to 3 (at least the highest), and the words for a grade. *)
Definition grade (high mid low x : Q) : nat :=
  if Qle_bool high x then 3 else if Qle_bool mid x then 2
  else if Qle_bool low x then 1 else 0.

Definition verdict (g : nat) : string :=
  match g with
  | 0%nat => "noticeable changes"
  | 1%nat => "moderate"
  | 2%nat => "high"
  | _ => "very high"
  end.

(** A float above zero is not zero. *)
Definition positive_is_nonzero (F : Type) `{PyFloat F} : Prop :=
  forall x : F, flt (of_int 0) x = true -> fis_zero x = false.

Arguments positive_is_nonzero F {_}.

(** ** What a task leaves alone *)

(** The fields of a job record no statement of the task assigns, and the
    ones only the smart-mode override assigns. *)
Definition job_identity {F Report} (j : Job.t F Report)
    : string * string * F * string :=
  (Job.id j, Job.input j, Job.created_at j, Job.engine_version j).

Definition job_settings {F Report} (j : Job.t F Report)
    : Z * string * option SmartConf.t :=
  (Job.workers j, Job.filter_chain j, Job.smart_config j).

Section TaskViews.

Context {F Report X : Type}.

(** Every value the record has had shows the same [view] as [j0]. *)
Definition kept (view : Job.t F Report -> X) (j0 : Job.t F Report)
    (st : Server.St F Report) : Prop :=
  view (Server.job st) = view j0 /\
  Forall (fun j => view j = view j0) (Server.observed st).

(** The global counters satisfy [R]. *)
Definition stats_are (R : GlobalStats.t F -> Prop) (st : Server.St F Report) : Prop :=
  R (Server.GLOBAL_STATS st).

End TaskViews.

(** The counters [g] after a task that started from [g0] and has not yet
    recorded a failure: the totals are untouched and the run is counted as
    successful at most once. *)
Definition counted {F} (g0 g : GlobalStats.t F) : Prop :=
  GlobalStats.total_jobs g = GlobalStats.total_jobs g0 /\
  GlobalStats.failed_jobs g = GlobalStats.failed_jobs g0 /\
  (GlobalStats.successful_jobs g = GlobalStats.successful_jobs g0 \/
   GlobalStats.successful_jobs g = GlobalStats.successful_jobs g0 + 1).

(** The same once the success has been recorded. *)
Definition bumped {F} (g0 g : GlobalStats.t F) : Prop :=
  GlobalStats.total_jobs g = GlobalStats.total_jobs g0 /\
  GlobalStats.failed_jobs g = GlobalStats.failed_jobs g0 /\
  GlobalStats.successful_jobs g = GlobalStats.successful_jobs g0 + 1.

(** A clip whose frame rate is infinite: [int(duration * fps)] raises. *)
Definition endless_rate : VideoMetadata.t float :=
  VideoMetadata.mk 30%float 1280 720 infinity "h264" true.

(** A clip of no length. *)
Definition still_frame : VideoMetadata.t float :=
  VideoMetadata.mk 0%float 1280 720 30%float "h264" true.

(** An environment of the comparison report in which the input has 10 MiB,
    the output 5 MiB, the PSNR command fails and the SSIM command prints
    its summary line; [float] reads the one figure of that line. *)
Definition sample_env : Comparison.Env float :=
  Comparison.mkEnv
    (fun path => if String.eqb path "uploads/input.mp4" then ret (10 * 1024 * 1024)
                 else ret (5 * 1024 * 1024))
    (fun cmd => if existsb (String.eqb "[0:v][1:v]psnr") cmd
                then raise (CalledProcessError sample_failure_text sample_diagnostic)
                else ret "SSIM Y:0.991 U:0.995 V:0.996 All:0.9925 (21.249)")
    (fun s => if String.eqb s "0.9925" then ret 0x1.fc28f5c28f5c3p-1%float
              else raise (ValueError "could not convert string to float"))
    (fun x _ => x)
    (fun _ => "8.00")
    (fun _ => "-50.0")
    1700000000%float.

(** ** File names *)

(** [int(s)] on a string of decimal digits, with an optional minus sign. *)
Definition int_of_str (s : string) : option Z :=
  option_map Z.of_int (NilZero.int_of_string s).

(* ===================================================================== *)
(** * Theorems *)
(* ===================================================================== *)
(** ** Sorting an already sorted list *)

Lemma insert_by_last {A} (key : A -> Z) (x : A) (l : list A) :
  Forall (fun y => key y <= key x) l -> insert_by key x l = (l ++ [x])%list.
Proof.
  induction 1 as [|y l Hy _ IH]; simpl; [reflexivity|].
  destruct (Z.leb_spec (key y) (key x)); [now rewrite IH | lia].
Qed.

Lemma sort_by_fold_sorted {A} (key : A -> Z) (l acc : list A) :
  StronglySorted (fun a b => key a <= key b) (acc ++ l) ->
  fold_left (fun acc x => insert_by key x acc) l acc = (acc ++ l)%list.
Proof.
  revert acc. induction l as [|x l IH]; intros acc Hs; simpl.
  - now rewrite app_nil_r.
  - rewrite insert_by_last.
    + rewrite IH; rewrite <- app_assoc; [reflexivity | exact Hs].
    + clear IH. induction acc as [|a acc IHacc]; constructor.
      * simpl in Hs. inversion Hs as [|? ? _ Hall]; subst.
        rewrite Forall_app in Hall. destruct Hall as [_ Hall].
        now inversion Hall.
      * apply IHacc. simpl in Hs. now inversion Hs.
Qed.

Lemma sort_by_sorted {A} (key : A -> Z) (l : list A) :
  StronglySorted (fun a b => key a <= key b) l -> sort_by key l = l.
Proof. intros Hs. unfold sort_by. now rewrite sort_by_fold_sorted. Qed.

Lemma strictly_sorted_le (l : list Z) :
  StronglySorted Z.lt l -> StronglySorted (fun a b => a <= b) l.
Proof.
  induction 1 as [|a l _ IH Hall]; constructor; [exact IH|].
  eapply Forall_impl; [|exact Hall]. simpl. lia.
Qed.

Lemma strictly_sorted_NoDup (l : list Z) : StronglySorted Z.lt l -> NoDup l.
Proof.
  induction 1 as [|a l _ IH Hall]; constructor; [|exact IH].
  intros Hin. rewrite Forall_forall in Hall. specialize (Hall _ Hin). lia.
Qed.

Lemma sorted_set_fixed (l : list Z) : StronglySorted Z.lt l -> sorted_set l = l.
Proof.
  intros Hs. unfold sorted_set.
  rewrite nodup_fixed_point by now apply strictly_sorted_NoDup.
  apply (sort_by_sorted (fun x => x)). now apply strictly_sorted_le.
Qed.

Lemma strictly_sorted_snoc (l : list Z) (x : Z) :
  StronglySorted Z.lt l -> Forall (fun y => y < x) l ->
  StronglySorted Z.lt (l ++ [x]).
Proof.
  induction 1 as [|a l _ IH Hall]; intros Hlt; simpl.
  - repeat constructor.
  - inversion Hlt; subst. constructor; [now apply IH|].
    rewrite Forall_app. split; [exact Hall | now repeat constructor].
Qed.

(** ** The doubling loop *)

Lemma doubling_inv (max_workers : Z) (w : positive) (l : list Z) :
  power_of_two (Zpos w) ->
  series_inv max_workers (Zpos w) l ->
  exists w', series_inv max_workers w' (doubling max_workers w l).
Proof.
  revert max_workers w l.
  apply (doubling_elim
    (fun M w l r => power_of_two (Zpos w) -> series_inv M (Zpos w) l ->
                    exists w', series_inv M w' r)).
  - intros M w Hle l IH _ Hpow (Hs & Hall & rest & Hhd).
    apply IH.
    + destruct Hpow as (k & Hk & Hw). exists (k + 1). split; [lia|].
      rewrite Z.pow_add_r by lia. rewrite <- Hw. lia.
    + split; [|split].
      * apply strictly_sorted_snoc; [exact Hs|].
        eapply Forall_impl; [|exact Hall]. simpl. tauto.
      * rewrite Forall_app. split.
        -- eapply Forall_impl; [|exact Hall]. simpl. intros a (H1 & H2 & H3).
           repeat split; auto. lia.
        -- repeat constructor; auto. lia.
      * exists (rest ++ [Zpos w])%list. now rewrite Hhd.
  - intros M w _ l _ _ Hinv. now exists (Zpos w).
Qed.

Lemma initial_inv (max_workers : Z) :
  1 <= max_workers -> series_inv max_workers 2 [1].
Proof.
  intros HM. split; [|split].
  - repeat constructor.
  - repeat constructor; try lia. exists 0. split; [lia | reflexivity].
  - now exists [].
Qed.

Lemma existsb_eqb_In (x : Z) (l : list Z) : existsb (Z.eqb x) l = true <-> In x l.
Proof.
  rewrite existsb_exists. split.
  - intros (y & Hy & Heq). apply Z.eqb_eq in Heq. now subst.
  - intros Hin. exists x. split; [exact Hin | apply Z.eqb_refl].
Qed.

(** C5. For every requested maximum of at least 1 the worker series of the
    scaling sweep starts at 1, is strictly increasing, holds only the
    maximum itself and powers of two below it, and holds the maximum exactly
    once. *)
Theorem worker_series_shape (max_workers : Z) :
  1 <= max_workers ->
  (exists rest, worker_series max_workers = 1 :: rest) /\
  StronglySorted Z.lt (worker_series max_workers) /\
  (forall x, In x (worker_series max_workers) ->
             x = max_workers \/ (x < max_workers /\ power_of_two x)) /\
  count_occ Z.eq_dec (worker_series max_workers) max_workers = 1%nat.
Proof.
  intros HM. unfold worker_series.
  destruct (@doubling_inv max_workers 2%positive [1])
    as (w' & Hs & Hall & rest & Hhd).
  { exists 1. split; [lia | reflexivity]. }
  { now apply initial_inv. }
  set (l := doubling max_workers 2 [1]) in *.
  assert (Hfinal :
    let l' := if existsb (Z.eqb max_workers) l then l else (l ++ [max_workers])%list in
    StronglySorted Z.lt l' /\ In max_workers l' /\
    (forall x, In x l' -> x = max_workers \/ (x < max_workers /\ power_of_two x)) /\
    exists rest', l' = 1 :: rest').
  { rewrite Forall_forall in Hall.
    destruct (existsb (Z.eqb max_workers) l) eqn:Hex; simpl.
    - apply existsb_eqb_In in Hex. repeat split; auto.
      + intros x Hx. destruct (Hall _ Hx) as (_ & Hle & Hp).
        destruct (Z.eq_dec x max_workers); [now left | right; split; [lia | exact Hp]].
      + now exists rest.
    - assert (Hnot : ~ In max_workers l).
      { intros Hin. apply existsb_eqb_In in Hin. congruence. }
      assert (Hlt : forall x, In x l -> x < max_workers).
      { intros x Hx. destruct (Hall _ Hx) as (_ & Hle & _).
        destruct (Z.eq_dec x max_workers); [subst; contradiction | lia]. }
      repeat split.
      + apply strictly_sorted_snoc; [exact Hs | now apply Forall_forall].
      + apply in_or_app. right. now left.
      + intros x Hx. apply in_app_or in Hx. destruct Hx as [Hx | [Hx | []]].
        * right. split; [now apply Hlt | now apply Hall].
        * now left.
      + exists (rest ++ [max_workers])%list. now rewrite Hhd. }
  simpl in Hfinal. destruct Hfinal as (Hs' & Hin' & Hshape & rest' & Hhd').
  rewrite sorted_set_fixed by exact Hs'.
  repeat split; auto.
  - now exists rest'.
  - apply NoDup_count_occ'; [now apply strictly_sorted_NoDup | exact Hin'].
Qed.

(** The series for 12 workers, [1; 2; 4; 8; 12], is an instance. *)
Lemma worker_series_shape_witness :
  1 <= 12 /\
  StronglySorted Z.lt (worker_series 12) /\
  count_occ Z.eq_dec (worker_series 12) 12 = 1%nat.
Proof.
  split; [lia|].
  destruct (@worker_series_shape 12 ltac:(lia)) as (_ & Hsorted & _ & Honce).
  split; [exact Hsorted | exact Honce].
Defined.

Example worker_series_8 : worker_series 8 = [1; 2; 4; 8].
Proof. reflexivity. Qed.

Example worker_series_12 : worker_series 12 = [1; 2; 4; 8; 12].
Proof. reflexivity. Qed.

(** ** Binary64 on values that need no rounding *)

(** [digits2_pos] counts binary digits. *)
Lemma digits2_size (p : positive) : digits2_pos p = Pos.size p.
Proof. induction p; simpl; congruence. Qed.

Lemma digits2_log2 (p : positive) : Zpos (digits2_pos p) = Z.log2 (Zpos p) + 1.
Proof.
  rewrite digits2_size. destruct p; simpl; try reflexivity; rewrite Pos.add_1_r; reflexivity.
Qed.

(** A positive number of [d] binary digits. *)
Lemma digits2_bounds (p : positive) (d : Z) :
  2 ^ (d - 1) <= Zpos p < 2 ^ d -> Zpos (digits2_pos p) = d.
Proof.
  intros Hb. rewrite digits2_log2.
  assert (0 < d).
  { destruct (Z.ltb_spec 0 d); [lia|]. exfalso.
    assert (2 ^ d <= 2 ^ 0) by (apply Z.pow_le_mono_r; lia). simpl in *. lia. }
  assert (Z.log2 (Zpos p) = d - 1); [|lia].
  apply Z.log2_unique; [lia|]. replace (Z.succ (d - 1)) with d by lia. exact Hb.
Qed.

Lemma iter_xO (m k : positive) : Zpos (Pos.iter xO m k) = Zpos m * 2 ^ Zpos k.
Proof.
  induction k using Pos.peano_ind.
  - simpl. lia.
  - rewrite Pos.iter_succ, Pos2Z.inj_succ, Z.pow_succ_r by lia.
    rewrite Pos2Z.inj_xO, IHk. lia.
Qed.

Lemma iter_pos_nat {A} (f : A -> A) (p : positive) (x : A) :
  iter_pos f p x = Nat.iter (Pos.to_nat p) f x.
Proof.
  revert x. induction p as [p IH | p IH |]; intros x; cbn [iter_pos].
  - rewrite !IH. rewrite Pos2Nat.inj_xI.
    replace (S (2 * Pos.to_nat p))%nat with (Pos.to_nat p + (Pos.to_nat p + 1))%nat by lia.
    rewrite !Nat.iter_add. reflexivity.
  - rewrite !IH. rewrite Pos2Nat.inj_xO.
    replace (2 * Pos.to_nat p)%nat with (Pos.to_nat p + Pos.to_nat p)%nat by lia.
    rewrite Nat.iter_add. reflexivity.
  - reflexivity.
Qed.

Lemma shr_1_even (q : Z) :
  0 < q -> shr_1 (Build_shr_record (2 * q) false false) = Build_shr_record q false false.
Proof. intros Hq. destruct q as [|q|q]; try lia. reflexivity. Qed.

Lemma shr_exact_nat (n : nat) (q : Z) :
  0 < q ->
  Nat.iter n shr_1 (Build_shr_record (q * 2 ^ Z.of_nat n) false false) =
  Build_shr_record q false false.
Proof.
  intros Hq. induction n as [|n IH].
  - simpl. f_equal. lia.
  - rewrite Nat.iter_succ_r.
    rewrite Nat2Z.inj_succ, Z.pow_succ_r by lia.
    replace (q * (2 * 2 ^ Z.of_nat n)) with (2 * (q * 2 ^ Z.of_nat n)) by lia.
    rewrite shr_1_even; [exact IH|].
    apply Z.mul_pos_pos; [lia|]. apply Z.pow_pos_nonneg; lia.
Qed.

(** Rounding a value that needs none: a mantissa of 53 digits followed by
    [n] zero bits. *)
Lemma binary_round_aux_exact (s : bool) (q : positive) (n e : Z) :
  Zpos (digits2_pos q) = 53 -> 0 <= n -> -1074 <= e + n <= 971 ->
  binary_round_aux prec emax s (Zpos q * 2 ^ n) e loc_Exact = S754_finite s q (e + n).
Proof.
  intros Hd Hn He.
  assert (Hpow : 0 < 2 ^ n) by (apply Z.pow_pos_nonneg; lia).
  destruct (Zpos q * 2 ^ n) as [|P|P] eqn:HP; try lia.
  assert (HdP : Zpos (digits2_pos P) = 53 + n).
  { apply digits2_bounds. rewrite <- HP.
    assert (Hq : 2 ^ 52 <= Zpos q < 2 ^ 53).
    { rewrite digits2_log2 in Hd.
      pose proof (Z.log2_spec (Zpos q) ltac:(lia)) as Hs.
      replace (Z.log2 (Zpos q)) with 52 in Hs by lia. exact Hs. }
    replace (53 + n - 1) with (52 + n) by lia.
    rewrite !Z.pow_add_r by lia. nia. }
  unfold binary_round_aux, shr_fexp, fexp, emin, Zdigits2.
  rewrite HdP.
  replace (Z.max (53 + n + e - prec) (3 - emax - prec) - e) with n
    by (unfold prec, emax; lia).
  assert (Hshr : shr (shr_record_of_loc (Zpos P) loc_Exact) e n =
                 (Build_shr_record (Zpos q) false false, e + n)).
  { destruct n as [|p|p]; try lia.
    - simpl. f_equal; [|lia]. f_equal. lia.
    - unfold shr. f_equal. rewrite iter_pos_nat. cbn [shr_record_of_loc].
      rewrite <- HP, <- (positive_nat_Z p). apply shr_exact_nat. lia. }
  rewrite Hshr. cbn [shr_m loc_of_shr_record round_nearest_even Zdigits2].
  rewrite Hd.
  replace (Z.max (53 + (e + n) - prec) (3 - emax - prec) - (e + n)) with 0
    by (unfold prec, emax; lia).
  cbn [shr shr_record_of_loc shr_m].
  destruct (Z.leb_spec (e + n) (emax - prec)); [reflexivity|]. unfold prec, emax in *. lia.
Qed.

(** [float(W)] for a positive integer below 2^53: the integer itself, its
    mantissa shifted to 53 digits. *)
Lemma float_of_int_exact (W : Z) :
  1 <= W < 2 ^ 53 ->
  exists (q : positive) (k : Z),
    0 <= k <= 52 /\ Zpos q = W * 2 ^ k /\ Zpos (digits2_pos q) = 53 /\
    Prim2SF (Binary64.float_of_int W) = S754_finite false q (- k).
Proof.
  intros HW. unfold Binary64.float_of_int.
  assert (H63 : (2:Z) ^ 53 < 9223372036854775808) by (vm_compute; reflexivity).
  destruct (Z.ltb_spec (Z.abs W) 9223372036854775808); [|lia].
  destruct (Z.ltb_spec W 0); [lia|].
  rewrite of_uint63_spec, Uint63.of_Z_spec.
  rewrite Z.mod_small by (change Uint63.wB with 9223372036854775808; lia).
  destruct W as [|w|w]; try lia.
  pose proof (Z.log2_spec (Zpos w) ltac:(lia)) as Hlog.
  pose proof (Z.log2_nonneg (Zpos w)) as Hlog0.
  assert (Hlt : Z.log2 (Zpos w) < 53).
  { apply Z.log2_lt_pow2; lia. }
  cbn [binary_normalize]. unfold binary_round, shl_align, fexp, emin.
  rewrite digits2_log2.
  replace (Z.max (Z.log2 (Zpos w) + 1 + 0 - prec) (3 - emax - prec) - 0)
    with (Z.log2 (Zpos w) - 52) by (unfold prec, emax; lia).
  destruct (Z.log2 (Zpos w) - 52) as [|k|k] eqn:Hk; try lia.
  - exists w, 0. split; [lia|]. split; [lia|].
    assert (Hd : Zpos (digits2_pos w) = 53) by (rewrite digits2_log2; lia).
    split; [exact Hd|].
    rewrite <- (Z.mul_1_r (Zpos w)) at 1. change 1 with (2 ^ 0) at 1.
    rewrite binary_round_aux_exact by (try exact Hd; lia). reflexivity.
  - exists (Pos.iter xO w k), (Zpos k).
    assert (Hd : Zpos (digits2_pos (Pos.iter xO w k)) = 53).
    { apply digits2_bounds. rewrite iter_xO.
      assert (Hp : 0 < 2 ^ Zpos k) by (apply Z.pow_pos_nonneg; lia).
      assert (H52 : 2 ^ (53 - 1) = 2 ^ Z.log2 (Zpos w) * 2 ^ Zpos k).
      { rewrite <- Z.pow_add_r by lia. f_equal. lia. }
      assert (H53 : 2 ^ 53 = 2 ^ Z.succ (Z.log2 (Zpos w)) * 2 ^ Zpos k).
      { rewrite <- Z.pow_add_r by lia. f_equal. lia. }
      rewrite H52, H53. nia. }
    split; [lia|]. split; [apply iter_xO|]. split; [exact Hd|].
    replace (Z.max (Z.log2 (Zpos w) + 1 + 0 - prec) (3 - emax - prec))
      with (- Zpos k) by (unfold prec, emax; lia).
    rewrite <- (Z.mul_1_r (Zpos (Pos.iter xO w k))). change 1 with (2 ^ 0) at 1.
    rewrite binary_round_aux_exact by (try exact Hd; lia).
    f_equal; lia.
Qed.

(** The product [float(W) * 1.5] when [3 W] fits 53 digits: the exact
    value [3 W / 2]. *)
Lemma times_1_5_exact (W : Z) :
  1 <= W -> 3 * W < 2 ^ 53 ->
  exists (q : positive) (j : Z),
    0 <= j /\ Zpos q = 3 * W * 2 ^ j /\
    Prim2SF (PrimFloat.mul (Binary64.float_of_int W) 1.5%float) =
    S754_finite false q (- 1 - j).
Proof.
  intros HW H3.
  destruct (@float_of_int_exact W ltac:(lia)) as (q & k & Hk & Hq & Hd & Hf).
  rewrite mul_spec, Hf.
  change (Prim2SF 1.5%float) with (S754_finite false 6755399441055744 (-52)).
  unfold SF64mul, SFmul. cbn [xorb].
  pose proof (Z.log2_spec (3 * W) ltac:(lia)) as Hlog.
  pose proof (Z.log2_nonneg (3 * W)) as Hlog0.
  assert (Hlt : Z.log2 (3 * W) < 53) by (apply Z.log2_lt_pow2; lia).
  set (j := 52 - Z.log2 (3 * W)).
  assert (Hj : 0 <= j) by (unfold j; lia).
  assert (Hpj : 0 < 2 ^ j) by (apply Z.pow_pos_nonneg; lia).
  assert (Hq3 : 2 ^ 52 <= 3 * W * 2 ^ j < 2 ^ 53).
  { assert (H52 : 2 ^ 52 = 2 ^ Z.log2 (3 * W) * 2 ^ j).
    { rewrite <- Z.pow_add_r by lia. f_equal. unfold j. lia. }
    assert (H53 : 2 ^ 53 = 2 ^ Z.succ (Z.log2 (3 * W)) * 2 ^ j).
    { rewrite <- Z.pow_add_r by lia. f_equal. unfold j. lia. }
    rewrite H52, H53. nia. }
  exists (Z.to_pos (3 * W * 2 ^ j)), j.
  assert (Hpos : Zpos (Z.to_pos (3 * W * 2 ^ j)) = 3 * W * 2 ^ j).
  { apply Z2Pos.id. assert (0 < 2 ^ 52) by (apply Z.pow_pos_nonneg; lia). lia. }
  split; [exact Hj|]. split; [exact Hpos|].
  assert (Hd3 : Zpos (digits2_pos (Z.to_pos (3 * W * 2 ^ j))) = 53).
  { apply digits2_bounds. rewrite Hpos. exact Hq3. }
  assert (HkW : 2 ^ 52 <= W * 2 ^ k < 2 ^ 53).
  { rewrite <- Hq. rewrite digits2_log2 in Hd.
    pose proof (Z.log2_spec (Zpos q) ltac:(lia)) as Hs.
    replace (Z.log2 (Zpos q)) with 52 in Hs by lia. exact Hs. }
  assert (Hjk : j + 1 <= k).
  { destruct (Z.le_gt_cases (j + 1) k) as [Hle | Hgt]; [exact Hle | exfalso].
    assert (Hkj : k <= j) by lia.
    assert (2 ^ k <= 2 ^ j) by (apply Z.pow_le_mono_r; lia).
    assert (0 < 2 ^ k) by (apply Z.pow_pos_nonneg; lia).
    nia. }
  replace (Zpos (q * 6755399441055744))
    with (Zpos (Z.to_pos (3 * W * 2 ^ j)) * 2 ^ (k + 51 - j)).
  2:{ rewrite Hpos, Pos2Z.inj_mul, Hq.
      change (Zpos 6755399441055744) with (3 * 2 ^ 51).
      replace (k + 51 - j) with ((k - j) + 51) by lia.
      replace k with ((k - j) + j) at 2 by lia.
      rewrite !Z.pow_add_r by lia. ring. }
  rewrite binary_round_aux_exact by (try exact Hd3; lia).
  f_equal; lia.
Qed.

(** The count in binary64 as long as the product is exact. *)
Lemma num_chunks_binary64_exact (W : Z) :
  1 <= W -> 3 * W < 2 ^ 53 -> num_chunks_of (F:=float) W = inr (W + W / 2).
Proof.
  intros HW H3.
  destruct (@times_1_5_exact W HW H3) as (q & j & Hj & Hq & Hf).
  unfold num_chunks_of.
  change (@literal_1_5 float _) with 1.5%float.
  cbn [of_int fmul to_int Binary64.binary64 bind].
  unfold Binary64.int_of_float. rewrite Hf.
  destruct (Z.leb_spec 0 (- 1 - j)); [lia|].
  cbn [bind ret]. unfold ret. f_equal.
  replace (- (- 1 - j)) with (1 + j) by lia.
  rewrite Hq.
  assert (Hpj : 0 < 2 ^ j) by (apply Z.pow_pos_nonneg; lia).
  rewrite Z.quot_div_nonneg by (try apply Z.pow_pos_nonneg; nia).
  rewrite Z.pow_add_r by lia. change (2 ^ 1) with 2.
  rewrite Z.div_mul_cancel_r by lia.
  replace (3 * W) with (W + W * 2) by lia. rewrite Z.div_add by lia.
  assert (0 <= W / 2) by (apply Z.div_pos; lia). lia.
Qed.

(** ** Segment count *)

Lemma num_chunks_exact (W : Z) :
  1 <= W -> num_chunks_of (F:=Q) W = inr (W + W / 2).
Proof.
  intros HW. unfold num_chunks_of. cbn.
  rewrite Z.quot_div_nonneg by lia.
  unfold ret. f_equal.
  assert (W * 3 / 2 = W + W / 2).
  { replace (W * 3) with (W + W * 2) by lia. rewrite Z.div_add by lia. lia. }
  assert (0 <= W / 2) by (apply Z.div_pos; lia).
  rewrite Z.max_l; lia.
Qed.

Lemma num_chunks_binary64 (W : Z) :
  1 <= W < 3002399751580333 -> num_chunks_of (F:=float) W = inr (W + W / 2).
Proof.
  intros HW.
  destruct (Z.le_gt_cases W 3002399751580330) as [Hle | Hgt].
  - apply num_chunks_binary64_exact; [lia|].
    change (2 ^ 53) with 9007199254740992. lia.
  - assert (Hcases : W = 3002399751580331 \/ W = 3002399751580332) by lia.
    destruct Hcases as [-> | ->]; vm_compute; reflexivity.
Qed.

Lemma floor_three_halves (W : Z) : Qfloor ((3 # 2) * inject_Z W) = W + W / 2.
Proof.
  unfold Qfloor. cbn -[Z.mul Z.add Z.div].
  replace (3 * W) with (W + W * 2) by lia. rewrite Z.div_add by lia. lia.
Qed.

(** C2, as the code has it: the segment count is [max(W, floor(1.5 W))],
    that is [W + W div 2]. The float product is truncated, not rounded. This
    holds in exact arithmetic for every [W >= 1] and in binary64 for every
    [W] below 3002399751580333: up to 3002399751580330 the product [W * 1.5]
    is exact, since [3 W] fits the 53 digits of a double. At
    3002399751580333 the product is rounded upwards before it is truncated
    and the count is one more. For even [W] the truncated value is the
    rounded value as well. *)
Theorem num_chunks_truncates (W : Z) :
  1 <= W ->
  num_chunks_of (F:=Q) W = inr (W + W / 2) /\
  (W < 3002399751580333 -> num_chunks_of (F:=float) W = inr (W + W / 2)) /\
  num_chunks_of (F:=float) 3002399751580333 =
    inr (3002399751580333 + 3002399751580333 / 2 + 1) /\
  W + W / 2 = Z.max W (Qfloor ((3 # 2) * inject_Z W)) /\
  (Z.even W = true ->
   W + W / 2 = spec_segment_count round_half_even W /\
   W + W / 2 = spec_segment_count round_half_up W).
Proof.
  intros HW. assert (Hhalf : 0 <= W / 2) by (apply Z.div_pos; lia).
  split; [now apply num_chunks_exact|]. split.
  { intros Hle. apply num_chunks_binary64. lia. }
  split; [vm_compute; reflexivity|].
  split.
  { rewrite floor_three_halves. lia. }
  intros Hev. apply Z.even_spec in Hev. destruct Hev as [k ->].
  assert (Hq : ((3 # 2) * inject_Z (2 * k) == inject_Z (3 * k))%Q).
  { unfold Qeq. cbn -[Z.mul]. lia. }
  assert (Hdiv : 2 * k / 2 = k).
  { rewrite Z.mul_comm. apply Z.div_mul. lia. }
  unfold spec_segment_count, round_half_even, round_half_up.
  rewrite Hdiv. split.
  - rewrite (Qfloor_comp _ _ Hq), Qfloor_Z.
    assert (Hc : ((3 # 2) * inject_Z (2 * k) - inject_Z (3 * k) ?= 1 # 2)%Q = Lt).
    { rewrite <- Qlt_alt. rewrite Hq. unfold Qlt. cbn -[Z.mul]. lia. }
    rewrite Hc. lia.
  - assert (Hf : Qfloor ((3 # 2) * inject_Z (2 * k) + (1 # 2)) = 3 * k).
    { unfold Qfloor. cbn -[Z.mul Z.add Z.div].
      replace (3 * (2 * k) * 2 + 1 * 2) with (2 + (3 * k) * 4) by lia.
      rewrite Z.div_add by lia. reflexivity. }
    rewrite Hf. lia.
Qed.

(** Five workers get seven segments. *)
Lemma num_chunks_truncates_witness :
  1 <= 5 /\
  num_chunks_of (F:=Q) 5 = inr 7 /\
  num_chunks_of (F:=float) 5 = inr 7.
Proof.
  split; [lia|].
  destruct (@num_chunks_truncates 5 ltac:(lia)) as (H1 & H2 & _).
  split; [exact H1 | apply H2; lia].
Defined.

(** C2 as stated fails for a single worker: the code plans one segment,
    [max(1, round(1.5))] is two under either rounding of halves. *)
Lemma num_chunks_not_rounded :
  num_chunks_of (F:=float) 1 = inr 1 /\
  num_chunks_of (F:=Q) 1 = inr 1 /\
  spec_segment_count round_half_even 1 = 2 /\
  spec_segment_count round_half_up 1 = 2.
Proof. repeat split; vm_compute; reflexivity. Qed.

(** ** Chunk planning *)

Lemma range_length (n : Z) : 0 <= n -> Z.of_nat (List.length (range n)) = n.
Proof. intros Hn. unfold range. rewrite length_map, length_seq. lia. Qed.

Lemma in_range (n i : Z) : In i (range n) <-> 0 <= i < n.
Proof.
  unfold range. rewrite in_map_iff. split.
  - intros (k & <- & Hk). apply in_seq in Hk. lia.
  - intros Hi. exists (Z.to_nat i). split; [lia | apply in_seq; lia].
Qed.

Section PlanStructure.

Context {F : Type} `{PyFloat F}.
Variables (input_path temp_dir : string) (duration : F) (num_chunks : Z).

Lemma plan_chunks_eq :
  1 <= num_chunks ->
  plan_chunks input_path duration num_chunks temp_dir =
  inr (map (planned_task input_path duration num_chunks temp_dir) (range num_chunks)).
Proof.
  intros HC. unfold plan_chunks, truediv_int.
  destruct (Z.eqb_spec num_chunks 0); [lia | reflexivity].
Qed.

Lemma planned_ids :
  map (@ChunkTask.chunk_id F)
      (map (planned_task input_path duration num_chunks temp_dir) (range num_chunks))
  = range num_chunks.
Proof. rewrite map_map. simpl. apply map_id. Qed.

End PlanStructure.

(** *** Exact arithmetic *)

Section PlanExact.

Variables (input_path temp_dir : string) (D : Q) (C : Z).
Hypothesis D_pos : (0 < D)%Q.
Hypothesis C_pos : 1 <= C.

Let cd : Q := (D / inject_Z C)%Q.
Let task := planned_task (F:=Q) input_path D C temp_dir.

Lemma C_nonzero : ~ (inject_Z C == 0)%Q.
Proof. unfold Qeq. simpl. lia. Qed.

Lemma cd_pos : (0 < cd)%Q.
Proof.
  unfold cd. apply Qlt_shift_div_l.
  - unfold Qlt. simpl. lia.
  - now rewrite Qmult_0_l.
Qed.

Lemma cd_total : (inject_Z C * cd == D)%Q.
Proof. unfold cd. field. exact C_nonzero. Qed.

Lemma task_start (i : Z) : (ChunkTask.start (task i) == inject_Z i * cd)%Q.
Proof. reflexivity. Qed.

Lemma task_end_exact (i : Z) :
  0 <= i < C -> (task_end (task i) == inject_Z (i + 1) * cd)%Q.
Proof.
  intros Hi. unfold task_end, task, planned_task. cbn [ChunkTask.start ChunkTask.duration].
  rewrite inject_Z_plus. change (inject_Z 1) with 1%Q.
  destruct (Z.ltb_spec i (C - 1));
    cbn [of_int fquot fadd fmul fsub Exact.exact]; fold cd.
  - ring.
  - assert (Hi' : (inject_Z i + 1 == inject_Z C)%Q).
    { change 1%Q with (inject_Z 1). rewrite <- inject_Z_plus.
      now replace (i + 1) with C by lia. }
    rewrite Hi', cd_total. ring.
Qed.

Lemma chain_exact (n : nat) : forall (k : nat) (b : Q),
  Z.of_nat (k + n) <= C ->
  (b == inject_Z (Z.of_nat k) * cd)%Q ->
  exists e, chain_end b (map task (map Z.of_nat (seq k n))) = Some e /\
            (e == inject_Z (Z.of_nat (k + n)) * cd)%Q.
Proof.
  induction n as [|n IH]; intros k b Hle Hb; cbn [seq map chain_end].
  - exists b. split; [reflexivity|]. now rewrite Nat.add_0_r.
  - assert (Hfeq : feq (ChunkTask.start (task (Z.of_nat k))) b = true).
    { apply Qeq_bool_iff. rewrite task_start. now symmetry. }
    rewrite Hfeq.
    destruct (IH (S k) (task_end (task (Z.of_nat k)))) as (e & He & Heq).
    + lia.
    + rewrite task_end_exact by lia.
      now replace (Z.of_nat k + 1) with (Z.of_nat (S k)) by lia.
    + exists e. split; [exact He|].
      now replace (k + S n)%nat with (S k + n)%nat by lia.
Qed.

Lemma tiles_exact : tiles D (map task (range C)) = true.
Proof.
  unfold tiles, range.
  destruct (@chain_exact (Z.to_nat C) 0%nat (of_int 0)) as (e & He & Heq).
  - lia.
  - simpl. ring.
  - rewrite He. apply Qeq_bool_iff. rewrite Heq.
    replace (Z.of_nat (0 + Z.to_nat C)) with C by lia. apply cd_total.
Qed.

Lemma covers_exact (i : Z) (x : Q) :
  0 <= i < C ->
  covers (task i) x <-> (inject_Z i * cd <= x /\ x < inject_Z (i + 1) * cd)%Q.
Proof.
  intros Hi. unfold covers.
  pose proof (task_end_exact Hi) as He. unfold task_end in He.
  cbn [fadd Exact.exact] in He. rewrite He. rewrite task_start. reflexivity.
Qed.

Lemma in_tasks (t : ChunkTask.t Q) :
  In t (map task (range C)) <-> exists i, 0 <= i < C /\ t = task i.
Proof.
  rewrite in_map_iff. split.
  - intros (i & <- & Hi). apply in_range in Hi. now exists i.
  - intros (i & Hi & ->). exists i. split; [reflexivity | now apply in_range].
Qed.

Lemma cover_exact (x : Q) :
  (0 <= x /\ x < D)%Q <-> exists t, In t (map task (range C)) /\ covers t x.
Proof.
  pose proof cd_pos as Hcd. pose proof cd_total as Htot.
  split.
  - intros [Hx0 HxD].
    set (i := Qfloor (x / cd)).
    assert (Hlo : (inject_Z i <= x / cd)%Q) by apply Qfloor_le.
    assert (Hhi : (x / cd < inject_Z (i + 1))%Q) by apply Qlt_floor.
    assert (Hxcd : (x / cd * cd == x)%Q).
    { field. intros Hz. rewrite Hz in Hcd. now apply Qlt_irrefl in Hcd. }
    assert (Hi0 : 0 <= i).
    { unfold i. rewrite <- (Qfloor_Z 0). apply Qfloor_resp_le.
      apply Qle_shift_div_l; [exact Hcd|]. now rewrite Qmult_0_l. }
    assert (HiC : i < C).
    { rewrite Zlt_Qlt. eapply Qle_lt_trans; [exact Hlo|].
      apply Qlt_shift_div_r; [exact Hcd|]. now rewrite Htot. }
    exists (task i). split; [apply in_tasks; now exists i|].
    apply covers_exact; [lia|]. split.
    + rewrite <- Hxcd. apply Qmult_le_compat_r; [exact Hlo | now apply Qlt_le_weak].
    + rewrite <- Hxcd at 1. apply Qmult_lt_compat_r; [exact Hcd | exact Hhi].
  - intros (t & Hin & Hcov). apply in_tasks in Hin. destruct Hin as (i & Hi & ->).
    apply covers_exact in Hcov; [|exact Hi]. destruct Hcov as [Hlo Hhi]. split.
    + eapply Qle_trans; [|exact Hlo].
      apply Qmult_le_0_compat; [|now apply Qlt_le_weak].
      change 0%Q with (inject_Z 0). rewrite <- Zle_Qle. lia.
    + eapply Qlt_le_trans; [exact Hhi|]. rewrite <- Htot.
      apply Qmult_le_compat_r; [|now apply Qlt_le_weak].
      rewrite <- Zle_Qle. lia.
Qed.

Lemma disjoint_exact (t1 t2 : ChunkTask.t Q) (x : Q) :
  In t1 (map task (range C)) -> In t2 (map task (range C)) ->
  covers t1 x -> covers t2 x -> t1 = t2.
Proof.
  pose proof cd_pos as Hcd.
  intros H1 H2 Hc1 Hc2.
  apply in_tasks in H1. destruct H1 as (i & Hi & ->).
  apply in_tasks in H2. destruct H2 as (j & Hj & ->).
  apply covers_exact in Hc1; [|exact Hi]. apply covers_exact in Hc2; [|exact Hj].
  destruct Hc1 as [Hlo1 Hhi1]. destruct Hc2 as [Hlo2 Hhi2].
  assert (Hij : i < j + 1).
  { rewrite Zlt_Qlt. apply (Qmult_lt_r _ _ cd Hcd).
    eapply Qle_lt_trans; [exact Hlo1 | exact Hhi2]. }
  assert (Hji : j < i + 1).
  { rewrite Zlt_Qlt. apply (Qmult_lt_r _ _ cd Hcd).
    eapply Qle_lt_trans; [exact Hlo2 | exact Hhi1]. }
  f_equal. lia.
Qed.

End PlanExact.
(** *** Binary64 *)

Lemma binary64_plans_near_hour : binary64_plans_near 3600 48 = true.
Proof. vm_compute. reflexivity. Qed.

Lemma binary64_plan_near (input_path temp_dir : string) (d C : Z) :
  1 <= d <= 3600 -> 1 <= C <= 48 ->
  near_partition (of_int d)
    (map span (map (planned_task (F:=float) input_path (of_int d) C temp_dir) (range C)))
  = true.
Proof.
  intros Hd HC. pose proof binary64_plans_near_hour as Hall.
  unfold binary64_plans_near in Hall. rewrite forallb_forall in Hall.
  specialize (Hall (d - 1) (proj2 (in_range 3600 (d - 1)) ltac:(lia))).
  rewrite forallb_forall in Hall.
  specialize (Hall (C - 1) (proj2 (in_range 48 (C - 1)) ltac:(lia))).
  replace (d - 1 + 1) with d in Hall by lia.
  replace (C - 1 + 1) with C in Hall by lia.
  rewrite map_map. exact Hall.
Qed.

(** C1, as the code has it. For every arithmetic (binary64 in particular)
    [plan_chunks] returns exactly [C] tasks with ids 0..C-1 in order; task
    [i] starts at [i * (D / C)], every task but the last lasts [D / C] and
    the last one lasts [D - start], which absorbs the remainder. In exact
    arithmetic these intervals start at 0, each begins where the previous
    one ends, the last ends at [D]; their union is [0, D) and no point lies
    in two of them. In binary64, for a whole number of seconds from 1 to
    3600 cut into at most 48 segments, the first interval starts at 0, the
    starts increase strictly, every duration is positive, the last interval
    ends at the duration exactly, and each interval ends at the start of
    the next or one double away from it. *)
Theorem plan_chunks_partitions (input_path temp_dir : string) (C : Z) (D : Q) :
  (0 < D)%Q -> 1 <= C ->
  (forall (F : Type) (PF : PyFloat F) (DF : F),
      exists tasks,
        plan_chunks input_path DF C temp_dir = inr tasks /\
        Z.of_nat (List.length tasks) = C /\
        map (@ChunkTask.chunk_id F) tasks = range C /\
        forall t, In t tasks ->
          ChunkTask.start t =
            fmul (of_int (ChunkTask.chunk_id t)) (fquot DF (of_int C)) /\
          ChunkTask.duration t =
            (if ChunkTask.chunk_id t <? C - 1 then fquot DF (of_int C)
             else fsub DF (ChunkTask.start t))) /\
  (exists tasks,
      plan_chunks (F:=Q) input_path D C temp_dir = inr tasks /\
      Z.of_nat (List.length tasks) = C /\
      map (@ChunkTask.chunk_id Q) tasks = range C /\
      tiles D tasks = true /\
      (forall x, (0 <= x /\ x < D)%Q <-> exists t, In t tasks /\ covers t x) /\
      (forall t1 t2 x, In t1 tasks -> In t2 tasks ->
                       covers t1 x -> covers t2 x -> t1 = t2)) /\
  (C <= 48 ->
   forall seconds : Z, 1 <= seconds <= 3600 ->
     exists tasks,
       plan_chunks (F:=float) input_path (of_int seconds) C temp_dir = inr tasks /\
       near_partition (of_int seconds) (map span tasks) = true).
Proof.
  intros HD HC. split; [|split].
  - intros F PF DF.
    exists (map (planned_task input_path DF C temp_dir) (range C)).
    split; [now apply plan_chunks_eq|]. split.
    { rewrite length_map. apply range_length. lia. }
    split; [apply planned_ids|].
    intros t Hin. apply in_map_iff in Hin. destruct Hin as (i & <- & _).
    split; reflexivity.
  - exists (map (planned_task input_path D C temp_dir) (range C)).
    split; [now apply plan_chunks_eq|]. split.
    { rewrite length_map. apply range_length. lia. }
    split; [apply planned_ids|]. split; [now apply tiles_exact|]. split.
    + intros x. now apply cover_exact.
    + intros t1 t2 x. now apply disjoint_exact.
  - intros HC48 seconds Hs.
    exists (map (planned_task input_path (of_int seconds) C temp_dir) (range C)).
    split; [now apply plan_chunks_eq|].
    apply binary64_plan_near; lia.
Qed.

(** A 30 second input in six segments. *)
Lemma plan_chunks_partitions_witness :
  (0 < 30 # 1)%Q /\ 1 <= 6 /\
  exists tasks,
    plan_chunks (F:=Q) "input.mp4" (30 # 1) 6 ".temp_chunks" = inr tasks /\
    Z.of_nat (List.length tasks) = 6 /\
    tiles (30 # 1)%Q tasks = true.
Proof.
  split; [reflexivity|]. split; [lia|].
  destruct (@plan_chunks_partitions "input.mp4" ".temp_chunks" 6 (30 # 1)
              ltac:(reflexivity) ltac:(lia))
    as (_ & (tasks & Hplan & Hlen & _ & Htiles & _) & _).
  exists tasks. repeat split; assumption.
Defined.

(** C1 as stated fails in binary64: for a 30 second input cut into 7
    segments (5 workers) the sixth interval ends at 25.714285714285712,
    below the start 25.714285714285715 of the seventh, so the boundaries
    computed by the code leave a gap. *)
Lemma plan_chunks_binary64_gap :
  exists tasks t5 t6,
    plan_chunks (F:=float) "input.mp4" 30%float 7 ".temp_chunks" = inr tasks /\
    tiles 30%float tasks = false /\
    nth_error tasks 5 = Some t5 /\ nth_error tasks 6 = Some t6 /\
    feq (task_end t5) (ChunkTask.start t6) = false /\
    flt (task_end t5) (ChunkTask.start t6) = true.
Proof.
  do 3 eexists. split; [vm_compute; reflexivity|].
  split; [vm_compute; reflexivity|].
  split; [reflexivity|]. split; [reflexivity|].
  split; vm_compute; reflexivity.
Qed.

(** ** Parallel run *)

Lemma insert_by_perm {A} (key : A -> Z) (x : A) (l : list A) :
  Permutation (insert_by key x l) (x :: l).
Proof.
  induction l as [|y l IH]; simpl; [reflexivity|].
  destruct (key y <=? key x); [|reflexivity].
  rewrite IH. apply perm_swap.
Qed.

Lemma sort_by_fold_perm {A} (key : A -> Z) (l acc : list A) :
  Permutation (fold_left (fun acc x => insert_by key x acc) l acc) (acc ++ l).
Proof.
  revert acc. induction l as [|x l IH]; intros acc; simpl.
  - now rewrite app_nil_r.
  - rewrite IH, insert_by_perm. apply Permutation_middle.
Qed.

Lemma sort_by_perm {A} (key : A -> Z) (l : list A) : Permutation (sort_by key l) l.
Proof. unfold sort_by. apply (sort_by_fold_perm key l []). Qed.

Lemma filter_perm_length {A} (p : A -> bool) (l l' : list A) :
  Permutation l l' -> List.length (filter p l) = List.length (filter p l').
Proof.
  induction 1 as [|x l l' _ IH|x y l|l l' l'' _ IH1 _ IH2]; simpl.
  - reflexivity.
  - destruct (p x); simpl; congruence.
  - destruct (p x), (p y); reflexivity.
  - congruence.
Qed.

Section ParallelFacts.

Context {F : Type} `{PyFloat F}.
Variable world : World F.

(** The pool runs one encoder per submitted chunk, in completion order,
    and nothing else. *)
Lemma collect_log (filter_chain : string) (pending : list (ChunkTask.t F)) :
  forall (sys : Sys F),
    log (snd (collect world pending filter_chain sys)) =
    (log sys ++ map (fun t => EncodeChunk t filter_chain) pending)%list.
Proof.
  induction pending as [|t rest IH]; intros sys; simpl.
  - now rewrite app_nil_r.
  - unfold process_chunk.
    destruct (subprocess_run world (EncodeChunk t filter_chain) (files sys)) as [c fs].
    destruct (returncode_ok c);
      match goal with
      | |- context [collect world rest filter_chain ?s] =>
          specialize (IH s); destruct (collect world rest filter_chain s) as [rs sys2]
      end; simpl in *; rewrite IH; now rewrite <- app_assoc.
Qed.

Lemma collect_ids (filter_chain : string) (pending : list (ChunkTask.t F)) :
  forall (sys : Sys F),
    map (@ChunkResult.chunk_id F) (fst (collect world pending filter_chain sys)) =
    map (@ChunkTask.chunk_id F) pending.
Proof.
  induction pending as [|t rest IH]; intros sys; simpl; [reflexivity|].
  unfold process_chunk.
  destruct (subprocess_run world (EncodeChunk t filter_chain) (files sys)) as [c fs].
  destruct (returncode_ok c);
    match goal with
    | |- context [collect world rest filter_chain ?s] =>
        specialize (IH s); destruct (collect world rest filter_chain s) as [rs sys2]
    end; simpl in *; now rewrite IH.
Qed.

Variables (input_path output_path filter_chain temp_dir : string).
Variables (metadata : VideoMetadata.t F) (num_workers : Z).

(** [run_parallel] once the chunks are planned and the pool has drained. *)
Lemma run_parallel_after_pool (sys : Sys F) (chunks : list (ChunkTask.t F)) :
  (num_chunks <- num_chunks_of num_workers ;;
   plan_chunks input_path (VideoMetadata.duration metadata) num_chunks temp_dir)
    = inr chunks ->
  0 < num_workers ->
  run_parallel world input_path output_path metadata num_workers filter_chain
    temp_dir sys =
  let arrived := fst (collect world (as_completed world chunks) filter_chain sys) in
  let sys1 := snd (collect world (as_completed world chunks) filter_chain sys) in
  let results := sort_by (@ChunkResult.chunk_id F) arrived in
  let failed := filter (fun r => negb (ChunkResult.success r)) results in
  match failed with
  | _ :: _ => (raise (RuntimeError (chunks_failed_message failed)), sys1)
  | [] =>
      match mapM (fun r => t <- py_index chunks (ChunkResult.chunk_id r) ;;
                           ret (ChunkTask.output_path t)) results with
      | inl e => (raise e, sys1)
      | inr chunk_paths =>
          let '(merge_success, sys2) :=
            merge_chunks world chunk_paths output_path temp_dir sys1 in
          if merge_success then (ret (wall_seconds world, results), sys2)
          else (raise (RuntimeError "Merge failed"), sys2)
      end
  end.
Proof.
  intros Hplan HW. unfold run_parallel. rewrite Hplan.
  destruct (Z.leb_spec num_workers 0); [lia|].
  destruct (collect world (as_completed world chunks) filter_chain sys) as [arrived sys1].
  cbn [fst snd]. reflexivity.
Qed.

(** C3, as the code has it. When some segment result reports failure,
    [run_parallel] raises, after the pool has run every submitted segment
    and without running a merge command, a [RuntimeError] whose text is
    the number of failed segments followed by " chunks failed": the
    commands it has run are the segment encoders and nothing else. *)
Theorem run_parallel_reports_failure_count (sys : Sys F)
    (chunks : list (ChunkTask.t F)) :
  (num_chunks <- num_chunks_of num_workers ;;
   plan_chunks input_path (VideoMetadata.duration metadata) num_chunks temp_dir)
    = inr chunks ->
  0 < num_workers ->
  (exists r, In r (fst (collect world (as_completed world chunks) filter_chain sys)) /\
             ChunkResult.success r = false) ->
  let arrived := fst (collect world (as_completed world chunks) filter_chain sys) in
  let k := List.length (filter (fun r => negb (ChunkResult.success r)) arrived) in
  let outcome := run_parallel world input_path output_path metadata num_workers
                   filter_chain temp_dir sys in
  fst outcome = raise (RuntimeError (str_int (Z.of_nat k) ++ " chunks failed")) /\
  (1 <= k)%nat /\
  log (snd outcome) =
    (log sys ++ map (fun t => EncodeChunk t filter_chain) (as_completed world chunks))%list /\
  filter is_merge (log (snd outcome)) = filter is_merge (log sys).
Proof.
  intros Hplan HW (r & Hin & Hfail) arrived k outcome.
  assert (Hk : (1 <= k)%nat).
  { unfold k. assert (Hr : In r (filter (fun r => negb (ChunkResult.success r)) arrived)).
    { apply filter_In. split; [exact Hin | now rewrite Hfail]. }
    destruct (filter (fun r => negb (ChunkResult.success r)) arrived);
      [contradiction | simpl; lia]. }
  assert (Hlen : List.length (filter (fun r => negb (ChunkResult.success r))
                                (sort_by (@ChunkResult.chunk_id F) arrived)) = k).
  { apply filter_perm_length, sort_by_perm. }
  unfold outcome. rewrite (run_parallel_after_pool sys Hplan HW). cbv zeta.
  fold arrived.
  destruct (filter (fun r => negb (ChunkResult.success r))
              (sort_by (@ChunkResult.chunk_id F) arrived)) as [|r0 failed] eqn:Hf.
  { simpl in Hlen. lia. }
  cbn [fst snd]. repeat split.
  - unfold chunks_failed_message. now rewrite Hlen.
  - exact Hk.
  - apply collect_log.
  - rewrite collect_log, filter_app.
    assert (Hnone : forall l : list (ChunkTask.t F),
              filter is_merge (map (fun t => EncodeChunk t filter_chain) l) = []).
    { induction l as [|t l IH]; [reflexivity | exact IH]. }
    rewrite Hnone. apply app_nil_r.
Qed.

End ParallelFacts.

(** Four workers, six segments, the fourth of which fails. *)
Lemma run_parallel_reports_failure_count_witness :
  0 < 4 /\
  fst (run_parallel (sample_world 3 true true) "input.mp4" "output.mp4"
         sample_metadata 4 Server.default_filter ".temp_chunks" empty_sys)
  = raise (RuntimeError "1 chunks failed").
Proof.
  split; [lia|].
  refine (proj1 (@run_parallel_reports_failure_count float _
                   (sample_world 3 true true) "input.mp4" "output.mp4"
                   Server.default_filter ".temp_chunks" sample_metadata 4 empty_sys
                   (map (planned_task "input.mp4" 30%float 6 ".temp_chunks") (range 6))
                   _ _ _)).
  - vm_compute. reflexivity.
  - lia.
  - eexists. split.
    + vm_compute. do 2 right. left. reflexivity.
    + reflexivity.
Defined.

(** C3 as stated fails: segment 3 of 6 fails with a diagnostic on its
    standard error; the error [run_parallel] raises reads "1 chunks failed"
    and contains neither the id nor the diagnostic, which only the
    discarded result carries. *)
Lemma run_parallel_error_omits_ids :
  let outcome := run_parallel (sample_world 3 true true) "input.mp4" "output.mp4"
                   sample_metadata 4 Server.default_filter ".temp_chunks" empty_sys in
  fst outcome = raise (RuntimeError "1 chunks failed") /\
  contains (str_int 3) "1 chunks failed" = false /\
  contains sample_diagnostic "1 chunks failed" = false /\
  In (ChunkResult.mk 3 false 1%float (Some sample_diagnostic))
     (fst (collect (sample_world 3 true true)
             (as_completed (sample_world 3 true true)
                (map (planned_task "input.mp4" 30%float 6 ".temp_chunks") (range 6)))
             Server.default_filter empty_sys)).
Proof.
  cbv zeta. split; [vm_compute; reflexivity|].
  split; [vm_compute; reflexivity|]. split; [vm_compute; reflexivity|].
  vm_compute. do 2 right. left. reflexivity.
Qed.

(** ** Merge *)

Lemma insert_by_sorted {A} (key : A -> Z) (x : A) (l : list A) :
  StronglySorted (fun a b => key a <= key b) l ->
  StronglySorted (fun a b => key a <= key b) (insert_by key x l).
Proof.
  induction 1 as [|y l Hs IH Hall]; simpl.
  - repeat constructor.
  - destruct (Z.leb_spec (key y) (key x)) as [Hle | Hlt].
    + constructor; [exact IH|].
      eapply Permutation_Forall; [symmetry; apply insert_by_perm|].
      constructor; assumption.
    + constructor; [now constructor|].
      constructor; [lia|]. eapply Forall_impl; [|exact Hall]. simpl. lia.
Qed.

Lemma sort_by_fold_sorted_out {A} (key : A -> Z) (l acc : list A) :
  StronglySorted (fun a b => key a <= key b) acc ->
  StronglySorted (fun a b => key a <= key b)
    (fold_left (fun acc x => insert_by key x acc) l acc).
Proof.
  revert acc. induction l as [|x l IH]; intros acc Hs; simpl; [exact Hs|].
  apply IH. now apply insert_by_sorted.
Qed.

Lemma sort_by_sorts {A} (key : A -> Z) (l : list A) :
  StronglySorted (fun a b => key a <= key b) (sort_by key l).
Proof. apply sort_by_fold_sorted_out. constructor. Qed.

Lemma sorted_map {A} (key : A -> Z) (l : list A) :
  StronglySorted (fun a b => key a <= key b) l -> StronglySorted Z.le (map key l).
Proof.
  induction 1 as [|a l _ IH Hall]; simpl; constructor; [exact IH|].
  apply Forall_map. exact Hall.
Qed.

Lemma sorted_perm_eq (l1 : list Z) : forall l2,
  StronglySorted Z.le l1 -> StronglySorted Z.le l2 -> Permutation l1 l2 -> l1 = l2.
Proof.
  induction l1 as [|a l1 IH]; intros l2 H1 H2 Hp.
  - apply Permutation_nil in Hp. now subst.
  - destruct l2 as [|b l2]; [apply Permutation_sym, Permutation_nil in Hp; discriminate|].
    inversion H1 as [|? ? Hs1 Hall1]; subst. inversion H2 as [|? ? Hs2 Hall2]; subst.
    rewrite Forall_forall in Hall1, Hall2.
    assert (Hab : a = b).
    { assert (Ha : In a (b :: l2)) by (eapply Permutation_in; [exact Hp | now left]).
      assert (Hb : In b (a :: l1))
        by (eapply Permutation_in; [symmetry; exact Hp | now left]).
      destruct Ha as [-> | Ha]; [reflexivity|]. destruct Hb as [-> | Hb]; [reflexivity|].
      specialize (Hall1 _ Hb). specialize (Hall2 _ Ha). lia. }
    subst b. f_equal. apply IH; [assumption | assumption|].
    eapply Permutation_cons_inv. exact Hp.
Qed.

Lemma range_sorted (n : Z) : StronglySorted Z.le (range n).
Proof.
  unfold range. generalize 0%nat as k. induction (Z.to_nat n) as [|m IH]; intros k; simpl.
  - constructor.
  - constructor; [apply IH|]. apply Forall_forall. intros x Hx.
    apply in_map_iff in Hx. destruct Hx as (j & <- & Hj). apply in_seq in Hj. lia.
Qed.

Lemma mapM_key {A B} (key : A -> Z) (g : Z -> Result B) (l : list A) :
  mapM (fun a => g (key a)) l = mapM g (map key l).
Proof. induction l as [|a l IH]; simpl; [reflexivity | now rewrite IH]. Qed.

Lemma mapM_ret {A B} (g : A -> Result B) (h : A -> B) (l : list A) :
  (forall a, In a l -> g a = ret (h a)) -> mapM g l = ret (map h l).
Proof.
  induction l as [|a l IH]; intros Hg; simpl; [reflexivity|].
  rewrite Hg by now left. simpl. rewrite IH by (intros; apply Hg; now right).
  reflexivity.
Qed.

Lemma py_index_map_range {A} (f : Z -> A) (n i : Z) :
  0 <= i < n -> py_index (map f (range n)) i = ret (f i).
Proof.
  intros Hi. unfold py_index. rewrite length_map, range_length by lia.
  destruct (Z.ltb_spec i 0); [lia|].
  destruct (Z.ltb_spec i 0); [lia|]. destruct (Z.leb_spec n i); [lia|]. simpl.
  unfold range. rewrite map_map.
  rewrite (nth_error_map (fun x => f (Z.of_nat x))).
  rewrite nth_error_seq.
  destruct (Nat.ltb_spec (Z.to_nat i) (Z.to_nat n)); [|lia].
  simpl. now rewrite Z2Nat.id by lia.
Qed.

Section MergeFacts.

Context {F : Type} `{PyFloat F}.
Variable world : World F.
Variables (input_path output_path filter_chain temp_dir : string).
Variables (metadata : VideoMetadata.t F) (num_workers C : Z).

Let chunks : list (ChunkTask.t F) :=
  map (planned_task input_path (VideoMetadata.duration metadata) C temp_dir) (range C).

(** With every chunk back, the sorted results list the ids 0..C-1 in
    order, whatever the completion order was. *)
Lemma sorted_result_ids (sys : Sys F) :
  Permutation (as_completed world chunks) chunks ->
  map (@ChunkResult.chunk_id F)
    (sort_by (@ChunkResult.chunk_id F)
       (fst (collect world (as_completed world chunks) filter_chain sys)))
  = range C.
Proof.
  intros Hperm. apply sorted_perm_eq.
  - apply sorted_map, sort_by_sorts.
  - apply range_sorted.
  - rewrite sort_by_perm, collect_ids, Hperm. unfold chunks. now rewrite planned_ids.
Qed.

(** The paths handed to the merge are the chunk outputs in id order. *)
Lemma merge_order (sys : Sys F) :
  Permutation (as_completed world chunks) chunks ->
  mapM (fun r => t <- py_index chunks (ChunkResult.chunk_id r) ;;
                 ret (ChunkTask.output_path t))
    (sort_by (@ChunkResult.chunk_id F)
       (fst (collect world (as_completed world chunks) filter_chain sys)))
  = ret (map (@ChunkTask.output_path F) chunks).
Proof.
  intros Hperm.
  rewrite (mapM_key (@ChunkResult.chunk_id F)
             (fun i => t <- py_index chunks i ;; ret (ChunkTask.output_path t))).
  rewrite sorted_result_ids by exact Hperm.
  unfold chunks at 2. rewrite map_map. apply mapM_ret.
  intros i Hi. apply in_range in Hi. unfold chunks.
  now rewrite py_index_map_range.
Qed.

(** [merge_chunks] in one equation. *)
Lemma merge_chunks_eq (chunk_paths : list string) (sys : Sys F) :
  let manifest := map (fun path => "file '" ++ abspath world path ++ "'") chunk_paths in
  let copy := ConcatCopy manifest output_path in
  let reencode := ConcatReencode manifest output_path in
  let first := subprocess_run world copy
                 (path_join temp_dir "concat_list.txt" :: files sys) in
  let second := subprocess_run world reencode (snd first) in
  merge_chunks world chunk_paths output_path temp_dir sys =
  if returncode_ok (fst first) then (true, mkSys (snd first) (log sys ++ [copy]))
  else (returncode_ok (fst second),
        mkSys (snd second) (log sys ++ [copy; reencode])).
Proof.
  intros manifest copy reencode first second.
  subst first second. unfold merge_chunks, run_checked, raise, ret.
  cbn [files log]. fold manifest. fold copy. fold reencode.
  destruct (subprocess_run world copy _) as [c1 fs1]. cbn [fst snd].
  destruct (returncode_ok c1); [reflexivity|]. cbn [files log].
  destruct (subprocess_run world reencode fs1) as [c2 fs2]. cbn [fst snd].
  destruct (returncode_ok c2); rewrite <- app_assoc; reflexivity.
Qed.

(** C6, as the code has it. After a fully successful encode phase the
    stream-copy concatenation runs first on the chunk outputs in id order;
    the re-encode concatenation runs only if the copy fails; if both fail
    [run_parallel] raises [RuntimeError "Merge failed"]. Nothing is
    removed: the file system is left as the last invocation left it. *)
Theorem merge_copy_then_reencode (sys : Sys F) :
  num_chunks_of num_workers = inr C -> 1 <= C -> 0 < num_workers ->
  Permutation (as_completed world chunks) chunks ->
  (forall r, In r (fst (collect world (as_completed world chunks) filter_chain sys)) ->
             ChunkResult.success r = true) ->
  let arrived := fst (collect world (as_completed world chunks) filter_chain sys) in
  let sys1 := snd (collect world (as_completed world chunks) filter_chain sys) in
  let results := sort_by (@ChunkResult.chunk_id F) arrived in
  let manifest :=
    map (fun t => "file '" ++ abspath world (ChunkTask.output_path t) ++ "'") chunks in
  let copy := ConcatCopy manifest output_path in
  let reencode := ConcatReencode manifest output_path in
  let first := subprocess_run world copy
                 (path_join temp_dir "concat_list.txt" :: files sys1) in
  let second := subprocess_run world reencode (snd first) in
  run_parallel world input_path output_path metadata num_workers filter_chain
    temp_dir sys =
  if returncode_ok (fst first) then
    (ret (wall_seconds world, results), mkSys (snd first) (log sys1 ++ [copy]))
  else if returncode_ok (fst second) then
    (ret (wall_seconds world, results),
     mkSys (snd second) (log sys1 ++ [copy; reencode]))
  else
    (raise (RuntimeError "Merge failed"),
     mkSys (snd second) (log sys1 ++ [copy; reencode])).
Proof.
  intros HC HC1 HW Hperm Hok arrived sys1 results manifest copy reencode first second.
  assert (Hplan : (num_chunks <- num_chunks_of num_workers ;;
                   plan_chunks input_path (VideoMetadata.duration metadata)
                     num_chunks temp_dir) = inr chunks).
  { rewrite HC. simpl. now apply plan_chunks_eq. }
  rewrite (@run_parallel_after_pool _ _ world input_path output_path filter_chain
             temp_dir metadata num_workers sys chunks Hplan HW).
  cbv zeta. fold arrived sys1 results.
  assert (Hnone : filter (fun r => negb (ChunkResult.success r)) results = []).
  { destruct (filter (fun r => negb (ChunkResult.success r)) results) as [|r l] eqn:Hf;
      [reflexivity|].
    assert (Hin : In r (filter (fun r => negb (ChunkResult.success r)) results))
      by (rewrite Hf; now left).
    apply filter_In in Hin. destruct Hin as [Hin Hneg].
    assert (Hr : In r arrived).
    { eapply Permutation_in; [apply sort_by_perm | exact Hin]. }
    rewrite (Hok r Hr) in Hneg. discriminate. }
  rewrite Hnone.
  unfold results, arrived. rewrite merge_order by exact Hperm.
  unfold ret at 1. rewrite merge_chunks_eq. cbv zeta.
  rewrite map_map. fold manifest. fold copy. fold reencode. fold first. fold second.
  destruct (returncode_ok (fst first)); [reflexivity|].
  destruct (returncode_ok (fst second)); reflexivity.
Qed.

End MergeFacts.

(** Every segment encodes, the stream copy fails and the re-encode
    succeeds: the run returns the six results in id order. *)
Lemma merge_copy_then_reencode_witness :
  (1 <= 6 /\ 0 < 4) /\
  fst (run_parallel (sample_world (-1) false true) "input.mp4" "output.mp4"
         sample_metadata 4 Server.default_filter ".temp_chunks" empty_sys)
  = ret (2%float,
         map (fun i => ChunkResult.mk i true 1%float None) (range 6)).
Proof.
  split; [lia|].
  rewrite (@merge_copy_then_reencode float _ (sample_world (-1) false true)
             "input.mp4" "output.mp4" Server.default_filter ".temp_chunks"
             sample_metadata 4 6 empty_sys).
  - vm_compute. reflexivity.
  - vm_compute. reflexivity.
  - lia.
  - lia.
  - apply Permutation_sym, Permutation_rev.
  - intros r Hr. vm_compute in Hr.
    repeat (destruct Hr as [<- | Hr]; [reflexivity|]). contradiction.
Defined.

(** C6 as stated fails in its last part: every segment encodes, both
    concatenations fail, and the failing tool has left a file at the output
    path. [run_parallel] raises "Merge failed" and that file is still in
    place, where none was before the run. *)
Lemma merge_failure_leaves_output :
  let outcome := run_parallel (sample_world (-1) false false) "input.mp4"
                   "output.mp4" sample_metadata 4 Server.default_filter
                   ".temp_chunks" empty_sys in
  fst outcome = raise (RuntimeError "Merge failed") /\
  exists_path "output.mp4" (files empty_sys) = false /\
  exists_path "output.mp4" (files (snd outcome)) = true /\
  filter is_merge (log (snd outcome)) =
    [ConcatCopy
       (map (fun i => "file '/work/.temp_chunks/chunk_00" ++ str_int i ++ ".mp4'") (range 6))
       "output.mp4";
     ConcatReencode
       (map (fun i => "file '/work/.temp_chunks/chunk_00" ++ str_int i ++ ".mp4'") (range 6))
       "output.mp4"].
Proof. cbv zeta. repeat split; vm_compute; reflexivity. Qed.

(** ** Amdahl analysis *)

(** C4: the serial fraction the code reports is not the solution of Amdahl's
    equation. With a serial time of 2 s and 1 s at 4 workers the speedup is
    2; the code reports f = (1 - 2/4) / (1 - 1/4) = 2/3, for which Amdahl's
    law gives a speedup of 4/3, while the solution of
    2 = 1 / (f + (1 - f) / 4) is f = 1/3. The reported theoretical maximum
    1/f = 3/2 is then below the speedup achieved. The same holds in
    binary64, where the reported fraction is 0.6666666666666666. With a
    single worker that is slower than the serial run the denominator
    1 - 1/1 is zero and the analysis raises instead of reporting. *)
Theorem amdahl_fraction_is_not_the_solution :
  (exists r, amdahl_analysis (F:=Q) (2 # 1) (1 # 1) 4 = inr (Some r) /\
     (Amdahl.actual_speedup r == 2 # 1)%Q /\
     (Amdahl.serial_fraction r == 2 # 3)%Q /\
     (Amdahl.theoretical_max r == 3 # 2)%Q /\
     (amdahl_speedup (Amdahl.serial_fraction r) 4 == 4 # 3)%Q /\
     Qeq_bool (amdahl_speedup (Amdahl.serial_fraction r) 4) (2 # 1) = false) /\
  (amdahl_speedup (F:=Q) (1 # 3) 4 == 2 # 1)%Q /\
  amdahl_analysis (F:=float) 2%float 1%float 4 =
    inr (Some (Amdahl.mk 2%float 0x1.5555555555555p-1%float 1.5%float
                 0x1.0aaaaaaaaaaaap+7%float)) /\
  feq (amdahl_speedup (F:=float) 0x1.5555555555555p-1%float 4) 2%float = false /\
  amdahl_analysis (F:=float) 1%float 2%float 1 =
    inl (ZeroDivisionError "float division by zero").
Proof.
  split; [eexists; split; [vm_compute; reflexivity|]; repeat split; vm_compute; reflexivity|].
  repeat split; vm_compute; reflexivity.
Qed.

(** *** The reported fraction in general *)

Lemma Qeq_bool_false (x y : Q) : ~ (x == y)%Q -> Qeq_bool x y = false.
Proof.
  intros Hne. destruct (Qeq_bool x y) eqn:E; [|reflexivity].
  apply Qeq_bool_eq in E. contradiction.
Qed.

Lemma Qle_bool_false (x y : Q) : (y < x)%Q -> Qle_bool x y = false.
Proof.
  intros Hlt. destruct (Qle_bool x y) eqn:E; [|reflexivity].
  apply Qle_bool_iff in E. lra.
Qed.

Section AmdahlExact.

Variables (S T : Q) (N : Z).
Hypothesis N_two : 2 <= N.
Hypothesis T_pos : (0 < T)%Q.
Hypothesis above_one : (T < S)%Q.
Hypothesis below_N : (S < inject_Z N * T)%Q.

Let A : Q := (S / T)%Q.
Let n : Q := inject_Z N.
Let f : Q := ((1 - A / n) / (1 - 1 / n))%Q.

Lemma n_two : (2 <= n)%Q.
Proof. unfold n. change 2%Q with (inject_Z 2). now rewrite <- Zle_Qle. Qed.

Lemma A_bounds : (1 < A /\ A < n)%Q.
Proof.
  unfold A. split.
  - apply Qlt_shift_div_l; [exact T_pos | lra].
  - apply Qlt_shift_div_r; [exact T_pos | exact below_N].
Qed.

Lemma f_closed_form : (f == (n - A) / (n - 1))%Q.
Proof. pose proof n_two. unfold f. field. split; lra. Qed.

Lemma f_bounds : (0 < f /\ f < 1)%Q.
Proof.
  pose proof n_two. pose proof A_bounds as [HA1 HAn]. rewrite f_closed_form. split.
  - apply Qlt_shift_div_l; lra.
  - apply Qlt_shift_div_r; lra.
Qed.

(** What the analysis reports when the speedup lies strictly between 1 and
    the worker count. *)
Lemma amdahl_analysis_exact :
  amdahl_analysis S T N =
  inr (Some (Amdahl.mk A f (fmin (1 / f)%Q (inject_Z (N * 2)))
               (A / fmin (1 / f)%Q (inject_Z (N * 2)) * inject_Z 100)%Q)).
Proof.
  pose proof n_two as Hn. pose proof A_bounds as [HA1 HAn].
  pose proof f_bounds as [Hf0 Hf1].
  unfold amdahl_analysis, truediv, truediv_int, truediv_ints.
  cbn [fis_zero flt fquot fsub fmul fadd of_int Exact.exact].
  change (inject_Z 1) with 1%Q. change (inject_Z 0) with 0%Q.
  rewrite (Qeq_bool_false (x:=T) (y:=0)) by lra. cbn [bind ret].
  fold A. fold n. rewrite (Qle_bool_false (x:=n) (y:=A)) by exact HAn. cbn [negb].
  destruct (Z.eqb_spec N 0); [lia|]. cbn [bind ret].
  rewrite (Qeq_bool_false (x:=(1 - 1 / n)%Q) (y:=0)).
  2:{ assert (Hinv : (1 / n < 1)%Q) by (apply Qlt_shift_div_r; lra). lra. }
  cbn [bind ret]. fold f.
  assert (Hmin : fmin 1%Q f = f).
  { unfold fmin. cbn [flt Exact.exact]. now rewrite (Qle_bool_false (x:=1) (y:=f)). }
  rewrite Hmin.
  assert (Hmax : fmax 0%Q f = f).
  { unfold fmax. cbn [flt Exact.exact]. now rewrite (Qle_bool_false (x:=f) (y:=0)). }
  rewrite Hmax.
  rewrite (Qle_bool_false (x:=f) (y:=0)) by exact Hf0. cbn [negb].
  rewrite (Qeq_bool_false (x:=f) (y:=0)) by lra. cbn [bind ret].
  rewrite (Qeq_bool_false (x:=fmin (1 / f)%Q (inject_Z (N * 2))) (y:=0)).
  2:{ assert (Hinv : (0 < 1 / f)%Q) by (apply Qlt_shift_div_l; lra).
      assert (H2n : (0 < inject_Z (N * 2))%Q).
      { change 0%Q with (inject_Z 0). rewrite <- Zlt_Qlt. lia. }
      unfold fmin. cbn [flt Exact.exact].
      destruct (negb (Qle_bool (1 / f) (inject_Z (N * 2)))); lra. }
  reflexivity.
Qed.

(** With the reported fraction Amdahl's law yields the speedup
    [N / (N + 1 - A)], which is below the speedup [A] that was measured. *)
Lemma reported_fraction_speedup :
  (amdahl_speedup f N == n / (n + 1 - A))%Q.
Proof.
  pose proof n_two as Hn. pose proof A_bounds as [HA1 HAn].
  assert (Hprod : (0 < (n - A) * n)%Q) by (apply Qmult_lt_0_compat; lra).
  unfold amdahl_speedup. cbn [fquot fsub fadd of_int Exact.exact].
  change (inject_Z 1) with 1%Q. fold n. unfold f. field.
  repeat split; lra.
Qed.

(** X8. The fraction the code reports never solves Amdahl's equation when the
    speedup lies strictly between 1 and the worker count; the solution is
    [(1/A - 1/N) / (1 - 1/N)], the reported value divided by [A]. *)
Lemma reported_fraction_misses (r : Amdahl.t Q) :
  amdahl_analysis S T N = inr (Some r) ->
  (Amdahl.actual_speedup r == A)%Q /\
  (Amdahl.serial_fraction r == (n - A) / (n - 1))%Q /\
  (amdahl_speedup (Amdahl.serial_fraction r) N < A)%Q /\
  (amdahl_speedup ((1 / A - 1 / n) / (1 - 1 / n))%Q N == A)%Q /\
  (Amdahl.serial_fraction r == A * ((1 / A - 1 / n) / (1 - 1 / n)))%Q.
Proof.
  pose proof n_two as Hn. pose proof A_bounds as [HA1 HAn].
  rewrite amdahl_analysis_exact. intros Hr. injection Hr as <-.
  cbn [Amdahl.actual_speedup Amdahl.serial_fraction].
  split; [reflexivity|]. split; [apply f_closed_form|]. split; [|split].
  - rewrite reported_fraction_speedup.
    assert (Hgap : (0 < (A - 1) * (n - A))%Q) by (apply Qmult_lt_0_compat; lra).
    apply Qlt_shift_div_r; lra.
  - unfold amdahl_speedup. cbn [fquot fsub fadd of_int Exact.exact].
    change (inject_Z 1) with 1%Q. fold n. field. repeat split; try lra.
    assert (Hgap : (0 < n * (n - 1))%Q) by (apply Qmult_lt_0_compat; lra). lra.
  - unfold f. field. split; lra.
Qed.

End AmdahlExact.

(** ** Job lifecycle *)


Section Lifecycle.

Context {F Report : Type} `{PyFloat F}.
Variable c : Server.Collaborators F Report.
Variables (job_id input_path : string) (workers : Z) (filter_chain : string).
Variables (smart_mode : bool) (engine_version : string).

Local Notation "'state'" := (Server.St F Report).
Local Notation "'run'" :=
  (Server.run_render_task c job_id input_path workers filter_chain
     smart_mode engine_version).
Local Notation "'body'" :=
  (Server.try_block c job_id input_path workers filter_chain
     smart_mode engine_version).


Lemma finally_keeps_job (st : state) :
  Server.job (snd (Server.finally_block c job_id st)) = Server.job st /\
  Server.observed (snd (Server.finally_block c job_id st)) = Server.observed st.
Proof.
  unfold Server.finally_block.
  destruct (exists_path (Server.job_temp c job_id) (Server.disk st)); split; reflexivity.
Qed.

Lemma finally_returns (st : state) : fst (Server.finally_block c job_id st) = ret tt.
Proof.
  unfold Server.finally_block.
  destruct (exists_path (Server.job_temp c job_id) (Server.disk st)); reflexivity.
Qed.

(** The statements before the [try], spelled out: the two writes are made
    and observable whether or not [mkdir] raises. *)
Lemma prologue_eq (st : state) :
  Server.prologue c job_id st =
  (fst (Server.mkdir c (Server.job_temp c job_id) (Server.disk st)),
   Server.mkSt
     (Job.set_phase Phase.analyzing (Job.set_status Status.processing (Server.job st)))
     ((Server.observed st ++ [Job.set_status Status.processing (Server.job st)]) ++
      [Job.set_phase Phase.analyzing
         (Job.set_status Status.processing (Server.job st))])
     (snd (Server.mkdir c (Server.job_temp c job_id) (Server.disk st)))
     (Server.GLOBAL_STATS st)).
Proof.
  unfold Server.prologue, Server.tbind, Server.assign, Server.on_disk.
  cbn [fst snd Server.job Server.observed Server.disk Server.GLOBAL_STATS ret].
  destruct (Server.mkdir c (Server.job_temp c job_id) (Server.disk st)) as [[e | u] fs'];
    reflexivity.
Qed.

(** The whole task, from what is known of its parts: [Q] holds when it
    returns, [Esc] when a statement before the [try] raises. *)
Lemma triple_run_render_task (P P0 P1 E1 Q Esc : state -> Prop) :
  triple P (Server.prologue c job_id) (fun _ => P0) Esc ->
  triple P0 body (fun _ => P1) E1 ->
  (forall st, P1 st -> Q (snd (Server.finally_block c job_id st))) ->
  (forall e st, E1 st ->
     Q (snd (Server.finally_block c job_id (snd (Server.except_block e st))))) ->
  triple P run (fun _ => Q) Esc.
Proof.
  intros Hpro Hbody Hret Hexc st HP. unfold Server.run_render_task.
  specialize (Hpro st HP).
  destruct (Server.prologue c job_id st) as [[e | u] st0]; [exact Hpro|].
  specialize (Hbody st0 Hpro).
  destruct (body st0) as [[e | u'] st1].
  - specialize (Hexc e st1 Hbody).
    pose proof (finally_returns (snd (Server.except_block e st1))) as Hr.
    destruct (Server.finally_block c job_id (snd (Server.except_block e st1)))
      as [r st2]. cbn [fst snd] in *. rewrite Hr. exact Hexc.
  - specialize (Hret st1 Hbody).
    pose proof (finally_returns st1) as Hr.
    destruct (Server.finally_block c job_id st1) as [r st2].
    cbn [fst snd] in *. rewrite Hr. exact Hret.
Qed.


End Lifecycle.

(** *** Histories *)

Lemma phase_eqb_spec (a b : Phase.t) : reflect (a = b) (Phase.eqb a b).
Proof. destruct a, b; constructor; congruence. Qed.

Lemma transitions_cons (y z : Phase.t) (l : list Phase.t) :
  transitions (y :: z :: l) =
  if Phase.eqb y z then transitions (z :: l) else y :: transitions (z :: l).
Proof. reflexivity. Qed.

Lemma transitions_snoc (l : list Phase.t) (a x : Phase.t) :
  transitions ((l ++ [a]) ++ [x]) =
  if Phase.eqb a x then transitions (l ++ [a]) else (transitions (l ++ [a]) ++ [x])%list.
Proof.
  induction l as [|y l IH].
  - cbn. destruct (phase_eqb_spec a x); [now subst | reflexivity].
  - destruct l as [|z l].
    + cbn [app] in *.
      rewrite (transitions_cons y a [x]), (transitions_cons y a []), IH.
      destruct (Phase.eqb y a), (Phase.eqb a x); reflexivity.
    + cbn [app] in *.
      rewrite (transitions_cons y z ((l ++ [a]) ++ [x])),
        (transitions_cons y z (l ++ [a])), IH.
      destruct (Phase.eqb y z), (Phase.eqb a x); reflexivity.
Qed.

Lemma sorted_snoc (l : list Z) (a x : Z) :
  StronglySorted Z.le (l ++ [a]) -> a <= x -> StronglySorted Z.le ((l ++ [a]) ++ [x]).
Proof.
  induction l as [|y l IH]; intros Hs Hax; cbn [app] in *.
  - repeat constructor. exact Hax.
  - inversion Hs as [|? ? Hs' Hall]; subst. constructor; [now apply IH|].
    rewrite Forall_app. split; [exact Hall|]. repeat constructor.
    rewrite Forall_app in Hall. destruct Hall as [_ Hall]. inversion Hall; subst. lia.
Qed.

Section TaskRules.

Context {F Report : Type} `{PyFloat F}.

Local Notation "'state'" := (Server.St F Report).

Lemma triple_ret {A} (a : A) (Q : A -> state -> Prop) (E : state -> Prop) :
  triple (Q a) (Server.tret a) Q E.
Proof. intros st HP. exact HP. Qed.

Lemma triple_bind {A B} (P : state -> Prop) (m : Server.Task A) (k : A -> Server.Task B)
    (R : A -> state -> Prop) (Q : B -> state -> Prop) (E : state -> Prop) :
  triple P m R E -> (forall a, triple (R a) (k a) Q E) ->
  triple P (Server.tbind m k) Q E.
Proof.
  intros Hm Hk st HP. unfold Server.tbind. specialize (Hm st HP).
  destruct (m st) as [[e | a] st']; [exact Hm | exact (Hk a st' Hm)].
Qed.

Lemma triple_weaken {A} (P P' : state -> Prop) (m : Server.Task A)
    (Q : A -> state -> Prop) (E : state -> Prop) :
  (forall st, P' st -> P st) -> triple P m Q E -> triple P' m Q E.
Proof. intros Himp Hm st HP. apply Hm, Himp, HP. Qed.

Lemma triple_post {A} (P : state -> Prop) (m : Server.Task A)
    (Q Q' : A -> state -> Prop) (E : state -> Prop) :
  (forall a st, Q a st -> Q' a st) -> triple P m Q E -> triple P m Q' E.
Proof.
  intros Himp Hm st HP. specialize (Hm st HP).
  destruct (m st) as [[e | a] st']; [exact Hm | now apply Himp].
Qed.

Lemma triple_lift {A} (r : Result A) (P : state -> Prop) (E : state -> Prop) :
  (forall st, P st -> E st) -> triple P (Server.lift r) (fun _ => P) E.
Proof. intros HE st HP. unfold Server.lift. destruct r; [now apply HE | exact HP]. Qed.

Lemma triple_assign (f : Job.t F Report -> Job.t F Report) (P Q : state -> Prop)
    (E : state -> Prop) :
  (forall st, P st -> Q (push f st)) -> triple P (Server.assign f) (fun _ => Q) E.
Proof. intros HQ st HP. exact (HQ st HP). Qed.

Lemma triple_on_disk {A} (call : FS -> Result A * FS) (P E : state -> Prop) :
  silent_on P -> (forall st, P st -> E st) ->
  triple P (Server.on_disk call) (fun _ => P) E.
Proof.
  intros Hs HE st HP. unfold Server.on_disk.
  destruct (call (Server.disk st)) as [[e | a] fs]; [apply HE|]; now apply Hs.
Qed.

Lemma triple_update_stats (f : GlobalStats.t F -> GlobalStats.t F) (P E : state -> Prop) :
  silent_on P -> triple P (Server.update_stats f) (fun _ => P) E.
Proof. intros Hs st HP. now apply Hs. Qed.

Lemma triple_for_each {A} (f : A -> Server.Task unit)
    (J : list A -> state -> Prop) (E : state -> Prop) :
  (forall a rest, triple (J (a :: rest)) (f a) (fun _ => J rest) E) ->
  forall l, triple (J l) (Server.for_each f l) (fun _ => J []) E.
Proof.
  intros Hf l. induction l as [|a rest IH]; cbn [Server.for_each].
  - apply (triple_ret tt (fun _ => J [])).
  - eapply triple_bind; [apply Hf | intros u; exact IH].
Qed.

(** *** Effect of a write on the histories *)

Lemma push_consistent (f : Job.t F Report -> Job.t F Report) (st : state) :
  consistent (push f st).
Proof. now exists (Server.observed st). Qed.

Lemma push_phases (f : Job.t F Report -> Job.t F Report) (hs : list Phase.t)
    (st : state) :
  phases_are hs st ->
  phases_are (if Phase.eqb (Job.phase (Server.job st)) (Job.phase (f (Server.job st)))
              then hs else (hs ++ [Job.phase (f (Server.job st))])%list)
             (push f st).
Proof.
  intros [[earlier Hobs] Hhs]. split; [apply push_consistent|].
  unfold phase_history, push in *. cbn [Server.observed].
  rewrite Hobs in *. rewrite !map_app in *. cbn [map] in *.
  rewrite transitions_snoc, Hhs. reflexivity.
Qed.

Lemma push_progress (f : Job.t F Report -> Job.t F Report) (lo hi : Z) (st : state) :
  progress_below lo st ->
  Job.progress (Server.job st) <= Job.progress (f (Server.job st)) <= hi ->
  progress_below hi (push f st).
Proof.
  intros ([earlier Hobs] & Hs & Hb) Hf. split; [apply push_consistent|]. split.
  - unfold progress_history, push in *. cbn [Server.observed].
    rewrite Hobs in *. rewrite !map_app in *. cbn [map] in *.
    apply sorted_snoc; [exact Hs | lia].
  - cbn [push Server.job]. lia.
Qed.

Lemma phases_silent (hs : list Phase.t) : silent_on (phases_are (F:=F) (Report:=Report) hs).
Proof. intros st fs g [Hc Hh]. split; [exact Hc | exact Hh]. Qed.

Lemma progress_silent (hi : Z) :
  silent_on (progress_below (F:=F) (Report:=Report) hi).
Proof.
  intros st fs g (Hc & Hs & Hb). split; [exact Hc | split; [exact Hs | exact Hb]].
Qed.

End TaskRules.

(** *** Phases of a job *)

Lemma transitions_last (l : list Phase.t) (d : Phase.t) :
  last (transitions l) d = last l d.
Proof.
  induction l as [|x l IH]; [reflexivity|].
  destruct l as [|y l]; [reflexivity|].
  rewrite transitions_cons.
  destruct (phase_eqb_spec x y) as [-> | Hne].
  - rewrite IH. reflexivity.
  - change (last (x :: transitions (y :: l)) d) with
      (match transitions (y :: l) with [] => x | _ :: _ => last (transitions (y :: l)) d end).
    change (last (x :: y :: l) d) with (last (y :: l) d).
    rewrite <- IH.
    destruct (transitions (y :: l)) eqn:Ht; [|reflexivity].
    exfalso. clear -Ht. revert y Ht. induction l as [|z l IHl]; intros y Ht; [discriminate|].
    rewrite transitions_cons in Ht. destruct (Phase.eqb y z); [eauto | discriminate].
Qed.

Section PhaseRules.

Context {F Report : Type} `{PyFloat F}.
Variable c : Server.Collaborators F Report.

Local Notation "'state'" := (Server.St F Report).

Lemma phases_current (hs : list Phase.t) (st : state) :
  phases_are hs st -> Job.phase (Server.job st) = last hs Phase.queued.
Proof.
  intros [[earlier Hobs] Hhs]. rewrite <- Hhs, transitions_last.
  unfold phase_history. rewrite Hobs, map_app. cbn [map]. now rewrite last_last.
Qed.

Lemma keep_phase (f : Job.t F Report -> Job.t F Report) (hs : list Phase.t)
    (E : state -> Prop) :
  (forall j, Job.phase (f j) = Job.phase j) ->
  triple (phases_are hs) (Server.assign f) (fun _ => phases_are hs) E.
Proof.
  intros Hf. apply triple_assign. intros st Hst.
  pose proof (push_phases f Hst) as Hp. rewrite Hf in Hp.
  destruct (phase_eqb_spec (Job.phase (Server.job st)) (Job.phase (Server.job st)));
    [exact Hp | congruence].
Qed.

Lemma move_phase (p : Phase.t) (hs : list Phase.t) (E : state -> Prop) :
  triple (phases_are hs) (Server.assign (Job.set_phase p))
    (fun _ => phases_are (if Phase.eqb (last hs Phase.queued) p then hs
                          else (hs ++ [p])%list))
    E.
Proof.
  apply triple_assign. intros st Hst.
  pose proof (push_phases (Job.set_phase p) Hst) as Hp.
  rewrite (phases_current Hst) in Hp. exact Hp.
Qed.


Variables (job_id input_path : string).





Lemma except_block_phases (e : PyExn) (hs : list Phase.t) :
  triple (phases_are hs) (Server.except_block (F:=F) (Report:=Report) e)
    (fun _ => phases_are (if Phase.eqb (last hs Phase.queued) Phase.completed then hs
                          else (hs ++ [Phase.completed])%list))
    (fun _ => False).
Proof.
  unfold Server.except_block.
  apply triple_bind with (R := fun _ => phases_are hs);
    [apply keep_phase; reflexivity | intros ?].
  apply triple_bind with
    (R := fun _ => phases_are (if Phase.eqb (last hs Phase.queued) Phase.completed
                               then hs else (hs ++ [Phase.completed])%list));
    [apply move_phase | intros ?].
  apply triple_bind with
    (R := fun _ => phases_are (if Phase.eqb (last hs Phase.queued) Phase.completed
                               then hs else (hs ++ [Phase.completed])%list));
    [apply keep_phase; reflexivity | intros ?].
  apply triple_update_stats. apply phases_silent.
Qed.

End PhaseRules.

Lemma triple_run {F Report A} (P : Server.St F Report -> Prop)
    (m : Server.St F Report -> Result A * Server.St F Report)
    (Q : A -> Server.St F Report -> Prop) (E R : Server.St F Report -> Prop)
    (st : Server.St F Report) :
  triple P m Q E -> P st ->
  (forall a st', Q a st' -> R st') -> (forall st', E st' -> R st') ->
  R (snd (m st)).
Proof.
  intros Hm HP HQ HE. specialize (Hm st HP).
  destruct (m st) as [[e | a] st']; cbn [snd]; [now apply HE | now apply (HQ a)].
Qed.

Section PhaseTheorem.

Context {F Report : Type} `{PyFloat F}.
Variable c : Server.Collaborators F Report.
Variables (job_id input_path : string) (workers : Z) (filter_chain : string).
Variables (smart_mode : bool) (engine_version : string).

Lemma prologue_phases :
  triple (phases_are [Phase.queued]) (Server.prologue c job_id)
    (fun _ => phases_are [Phase.queued; Phase.analyzing])
    (phases_are [Phase.queued; Phase.analyzing]).
Proof.
  unfold Server.prologue.
  apply triple_bind with (R := fun _ => phases_are (F:=F) (Report:=Report) [Phase.queued]);
    [apply keep_phase; reflexivity | intros ?].
  apply triple_bind with
    (R := fun _ => phases_are (F:=F) (Report:=Report) [Phase.queued; Phase.analyzing]);
    [exact (@move_phase F Report Phase.analyzing [Phase.queued] _) | intros ?].
  apply triple_on_disk; [apply phases_silent | intros st Hst; exact Hst].
Qed.

Lemma finally_phases (hs : list Phase.t) (st : Server.St F Report) :
  phases_are hs st -> phases_are hs (snd (Server.finally_block c job_id st)).
Proof.
  intros Hst. unfold Server.finally_block.
  destruct (exists_path (Server.job_temp c job_id) (Server.disk st)); cbn [snd];
    [now apply phases_silent | exact Hst].
Qed.

Lemma submitted_phases (j : Job.t F Report) (fs : FS) (g : GlobalStats.t F) :
  Job.phase j = Phase.queued -> phases_are [Phase.queued] (submitted j fs g).
Proof.
  intros Hq. split; [now exists [] |]. unfold phase_history. cbn. now rewrite Hq.
Qed.




End PhaseTheorem.



(** *** Progress of a job *)

Section ProgressRules.

Context {F Report : Type} `{PyFloat F}.
Variable c : Server.Collaborators F Report.
Hypothesis c_reports : reports_percentages c.

Local Notation "'state'" := (Server.St F Report).

Lemma progress_weaken (lo hi : Z) (st : state) :
  lo <= hi -> progress_below lo st -> progress_below hi st.
Proof. intros Hle (Hc & Hs & Hb). repeat split; try assumption; lia. Qed.

Lemma keep_progress (f : Job.t F Report -> Job.t F Report) (hi : Z)
    (E : state -> Prop) :
  (forall j, Job.progress (f j) = Job.progress j) ->
  triple (progress_below hi) (Server.assign f) (fun _ => progress_below hi) E.
Proof.
  intros Hf. apply triple_assign. intros st Hst.
  apply (push_progress f Hst). rewrite Hf. destruct Hst as (_ & _ & Hb). lia.
Qed.

Lemma complete_progress (lo : Z) (E : state -> Prop) :
  lo <= 100 ->
  triple (progress_below lo) (Server.assign (Job.set_progress 100))
    (fun _ => progress_below 100) E.
Proof.
  intros Hlo. apply triple_assign. intros st Hst.
  apply (push_progress (Job.set_progress 100) Hst).
  destruct Hst as (_ & _ & Hb). cbn. lia.
Qed.

Lemma callbacks_progress (reported : list Z) (E : state -> Prop) :
  triple (fun st => progress_below 100 st /\ StronglySorted Z.le reported /\
                    Forall (fun p => Job.progress (Server.job st) <= p <= 100) reported)
    (Server.for_each Server.on_progress reported)
    (fun _ => progress_below 100) E.
Proof.
  pose (J := fun (rest : list Z) (st : state) =>
               progress_below 100 st /\ StronglySorted Z.le rest /\
               Forall (fun p => Job.progress (Server.job st) <= p <= 100) rest).
  apply triple_post with (Q := fun _ => J []); [intros u st Hst; apply Hst|].
  apply (triple_for_each Server.on_progress J).
  intros p rest. apply triple_assign. intros st (Hst & Hs & Hall).
  inversion Hs as [|? ? Hs' Hle]; subst. inversion Hall as [|? ? Hp Hrest]; subst.
  split; [|split].
  - apply (push_progress (Job.set_progress p) Hst). exact Hp.
  - exact Hs'.
  - cbn [push Server.job Job.progress Job.set_progress].
    rewrite Forall_forall in *. intros x Hx.
    specialize (Hle x Hx). specialize (Hrest x Hx). lia.
Qed.

Lemma call_run_parallel_progress (E : state -> Prop)
    (input_path output_path : string) (metadata : VideoMetadata.t F)
    (workers : Z) (filter_chain job_temp : string) :
  (forall st, progress_below 100 st -> E st) ->
  triple (progress_below 0)
    (Server.call_run_parallel c input_path output_path metadata workers
       filter_chain job_temp)
    (fun _ => progress_below 100) E.
Proof.
  intros HE st Hst. unfold Server.call_run_parallel.
  pose proof (c_reports input_path output_path metadata workers filter_chain job_temp
                (Server.disk st)) as Hrep.
  destruct (Server.run_parallel c input_path output_path metadata workers
              filter_chain job_temp (Server.disk st)) as [[reported outcome] fs].
  cbn [fst] in Hrep. destruct Hrep as [Hsorted Hpct].
  assert (Ht : triple
                 (fun st => progress_below 100 st /\ StronglySorted Z.le reported /\
                    Forall (fun p => Job.progress (Server.job st) <= p <= 100) reported)
                 (Server.tbind (Server.for_each Server.on_progress reported)
                    (fun _ => Server.lift outcome))
                 (fun _ => progress_below 100) E).
  { apply triple_bind with (R := fun _ => progress_below 100).
    - apply callbacks_progress.
    - intros u. apply triple_lift. exact HE. }
  apply Ht. split; [|split].
  - apply progress_silent. apply (progress_weaken (lo:=0)); [lia | exact Hst].
  - exact Hsorted.
  - destruct Hst as (_ & _ & Hb). cbn [Server.job].
    eapply Forall_impl; [|exact Hpct]. simpl. lia.
Qed.

Variables (job_id input_path : string).

Ltac progress_side :=
  first [ reflexivity
        | apply progress_silent
        | (intros ? Hside; first [exact Hside
                                 | apply (progress_weaken (lo:=0)); [lia | exact Hside]]) ].

Ltac progress_rule :=
  first [ apply keep_progress; progress_side
        | apply triple_lift; progress_side
        | apply triple_on_disk; progress_side
        | apply triple_update_stats; progress_side ].

Ltac progress_walk :=
  lazymatch goal with
  | |- triple (progress_below ?lo) (Server.tbind (Server.assign (Job.set_progress 100)) _) _ _ =>
      apply triple_bind with (R := fun _ => progress_below 100);
      [ apply complete_progress; lia | intros ? ]
  | |- triple (progress_below 0) (Server.tbind (Server.call_run_parallel _ _ _ _ _ _ _) _) _ _ =>
      apply triple_bind with (R := fun _ => progress_below 100);
      [ apply call_run_parallel_progress; intros ? Hside; exact Hside | intros ? ]
  | |- triple (progress_below ?lo) (Server.tbind _ _) _ _ =>
      apply triple_bind with (R := fun _ => progress_below lo); [ progress_rule | intros ? ]
  | |- triple (progress_below ?lo) (Server.tret ?a) _ _ =>
      exact (@triple_ret _ _ _ a (fun _ => progress_below lo) _)
  | |- triple (progress_below ?lo) _ _ _ => progress_rule
  end.

Lemma try_block_progress (workers : Z) (filter_chain : string) (smart_mode : bool)
    (engine_version : string) :
  triple (progress_below 0)
    (Server.try_block c job_id input_path workers filter_chain smart_mode engine_version)
    (fun _ => progress_below 100) (progress_below 100).
Proof.
  unfold Server.try_block.
  progress_walk.
  apply triple_bind with
    (R := fun _ => progress_below (F:=F) (Report:=Report) 0).
  { destruct smart_mode; repeat progress_walk. }
  intros wf. repeat progress_walk.
Qed.

Lemma except_block_progress (e : PyExn) :
  triple (progress_below 100) (Server.except_block (F:=F) (Report:=Report) e)
    (fun _ => progress_below 100) (fun _ => False).
Proof.
  unfold Server.except_block. repeat progress_walk.
Qed.

Lemma prologue_progress :
  triple (progress_below 0) (Server.prologue c job_id)
    (fun _ => progress_below 0) (progress_below 0).
Proof. unfold Server.prologue. repeat progress_walk. Qed.

Lemma finally_progress (hi : Z) (st : state) :
  progress_below hi st -> progress_below hi (snd (Server.finally_block c job_id st)).
Proof.
  intros Hst. unfold Server.finally_block.
  destruct (exists_path (Server.job_temp c job_id) (Server.disk st)); cbn [snd];
    [now apply progress_silent | exact Hst].
Qed.

(** X27. Progress never decreases, provided the values [run_parallel] reports
    to the callback never decrease and are percentages: from a record
    submitted at progress 0, every value the progress field takes is at
    least the one before and at most 100. *)
Lemma progress_never_decreases (workers : Z) (filter_chain : string)
    (smart_mode : bool) (engine_version : string)
    (j : Job.t F Report) (fs : FS) (g : GlobalStats.t F) :
  Job.progress j = 0 ->
  let final := snd (Server.run_render_task c job_id input_path workers filter_chain
                      smart_mode engine_version (submitted j fs g)) in
  StronglySorted Z.le (progress_history final) /\
  0 <= Job.progress (Server.job final) <= 100.
Proof.
  intros Hp final.
  assert (Hfinal : progress_below 100 final).
  { unfold final.
    eapply triple_run with (P := progress_below 0) (Q := fun _ => progress_below 100)
                           (E := progress_below 0).
    - eapply triple_run_render_task.
      + apply prologue_progress.
      + apply (@try_block_progress workers filter_chain smart_mode engine_version).
      + intros st Hst. now apply finally_progress.
      + intros e st Hst. apply finally_progress.
        eapply triple_run; [apply (except_block_progress e) | exact Hst | | ];
          [intros ? ? Hr; exact Hr | contradiction].
    - split; [now exists [] |]. split; [repeat constructor | cbn; lia].
    - auto.
    - intros st (Hc & Hs & Hb). split; [exact Hc | split; [exact Hs | lia]]. }
  destruct Hfinal as (_ & Hs & Hb). split; assumption.
Qed.

End ProgressRules.


(** C8: a job can end failed with its progress at 100. The segments are
    encoded and merged, the task writes status completed and progress 100,
    and the comparison report then raises; the handler turns the status to
    failed and leaves the progress where it is. The status of the job has
    been completed before it became failed. *)
Theorem failed_job_keeps_full_progress :
  let final :=
    snd (Server.run_render_task report_fails "1a2b3c4d"
           "/srv/app/uploads/input.mp4" 8 Server.default_filter false "v1"
           (submitted sample_job server_dirs sample_stats)) in
  Job.status (Server.job final) = Status.failed /\
  Job.progress (Server.job final) = 100 /\
  Job.error (Server.job final) = Some "[Errno 2] No such file or directory" /\
  map (fun j => (Job.status j, Job.progress j)) (Server.observed final) =
    [(Status.queued, 0); (Status.processing, 0); (Status.processing, 0);
     (Status.processing, 0); (Status.processing, 0); (Status.processing, 0);
     (Status.processing, 50);
     (Status.completed, 50); (Status.completed, 50); (Status.completed, 100);
     (Status.completed, 100); (Status.completed, 100);
     (Status.failed, 100); (Status.failed, 100); (Status.failed, 100)].
Proof. cbv zeta. repeat split; vm_compute; reflexivity. Qed.

(** *** End of a successful run *)

Section Completion.

Context {F Report : Type} `{PyFloat F}.
Variable c : Server.Collaborators F Report.
Variables (job_id input_path : string) (workers : Z) (filter_chain : string).
Variables (smart_mode : bool) (engine_version : string).

Local Notation "'state'" := (Server.St F Report).
Local Notation "'anything'" := (fun _ : Server.St F Report => True).

Lemma finished_silent : silent_on (finished (F:=F) (Report:=Report)).
Proof. intros st fs g Hst. exact Hst. Qed.

Lemma any_silent : silent_on anything.
Proof. intros st fs g _. exact I. Qed.

Ltac done_walk :=
  lazymatch goal with
  | |- triple anything (Server.tbind (Server.assign (Job.set_status Status.completed)) _) _ _ =>
      apply triple_bind with
        (R := fun _ st => Job.status (Server.job st) = Status.completed);
      [ apply triple_assign; intros ? _; reflexivity | intros ? ]
  | |- triple (fun st => Job.status (Server.job st) = Status.completed)
         (Server.tbind (Server.assign (Job.set_phase Phase.completed)) _) _ _ =>
      apply triple_bind with
        (R := fun _ st => Job.status (Server.job st) = Status.completed /\
                          Job.phase (Server.job st) = Phase.completed);
      [ apply triple_assign; intros ? Hs; split; [exact Hs | reflexivity] | intros ? ]
  | |- triple (fun st => _ /\ _)
         (Server.tbind (Server.assign (Job.set_progress 100)) _) _ _ =>
      apply triple_bind with (R := fun _ => finished (F:=F) (Report:=Report));
      [ apply triple_assign; intros ? [Hs Hp]; repeat split; assumption | intros ? ]
  | |- triple finished (Server.tbind _ _) _ _ =>
      apply triple_bind with (R := fun _ => finished (F:=F) (Report:=Report));
      [ first [ apply triple_assign; intros ? Hf; exact Hf
              | apply triple_lift; intros ? _; exact I
              | apply triple_update_stats; apply finished_silent ]
      | intros ? ]
  | |- triple finished (Server.update_stats _) _ _ =>
      apply triple_update_stats; apply finished_silent
  | |- triple anything (Server.tbind _ _) _ _ =>
      apply triple_bind with (R := fun _ => anything);
      [ first [ apply triple_assign; intros ? _; exact I
              | apply triple_lift; intros ? _; exact I
              | apply triple_on_disk; [apply any_silent | intros ? _; exact I]
              | intros ? _; match goal with |- match ?m with _ => _ end =>
                  destruct m as [[?|?] ?]; exact I end ]
      | intros ? ]
  | |- triple anything (Server.tret ?a) _ _ =>
      exact (@triple_ret _ _ _ a (fun _ => anything) _)
  end.

(** A [try] body that returns leaves the record completed at progress 100. *)
Lemma try_block_finishes :
  triple anything
    (Server.try_block c job_id input_path workers filter_chain smart_mode engine_version)
    (fun _ => finished) anything.
Proof.
  unfold Server.try_block.
  done_walk.
  apply triple_bind with (R := fun _ => anything).
  { destruct smart_mode; repeat done_walk. }
  intros wf. repeat done_walk.
Qed.

(** A job that ends with status completed ends with progress 100. *)
Lemma completed_job_has_full_progress (st : state) :
  let final := snd (Server.run_render_task c job_id input_path workers filter_chain
                      smart_mode engine_version st) in
  Job.status (Server.job final) = Status.completed ->
  Job.progress (Server.job final) = 100.
Proof.
  intros final. unfold final, Server.run_render_task. rewrite prologue_eq.
  destruct (Server.mkdir c (Server.job_temp c job_id) (Server.disk st)) as [[e | u] fs'];
    cbn [fst snd]; [cbn; discriminate|].
  match goal with |- context [Server.try_block _ _ _ _ _ _ _ ?s] => set (st0 := s) end.
  pose proof (@try_block_finishes st0 I) as Hb.
  destruct (Server.try_block c job_id input_path workers filter_chain smart_mode
              engine_version st0) as [[e | u'] st1].
  - destruct (finally_keeps_job c job_id (snd (Server.except_block e st1))) as [-> _].
    cbn. discriminate.
  - destruct (finally_keeps_job c job_id st1) as [-> _].
    intros _. apply Hb.
Qed.

End Completion.

(** ** Job submission *)

Section CreateJob.

Context {F Report : Type}.
Variables (v2_available : bool) (host : Server.Host F).

Lemma or_chain_cases (requested cpu : option Z) :
  let w := Server.or_else (Server.or_int requested cpu) 4 in
  (forall n, requested = Some n -> n <> 0 -> w = n) /\
  (requested = None \/ requested = Some 0 ->
   w = match cpu with
       | Some n => if n =? 0 then 4 else n
       | None => 4
       end).
Proof.
  cbv zeta. split.
  - intros n -> Hn. unfold Server.or_int, Server.or_else.
    destruct (Z.eqb_spec n 0); [contradiction|].
    destruct (Z.eqb_spec n 0); [contradiction | reflexivity].
  - intros [-> | ->]; reflexivity.
Qed.

(** C10. Once the input path resolves and the engine version is
    available, a requested worker count of 0 (or none) is replaced by the
    CPU count, or by 4 when that is undetectable; the request is refused
    with HTTP 400 "workers must be >= 1" exactly when the requested count
    is negative; and every record created has at least one worker. The
    CPU count, when the host reports one, is not negative. *)
Theorem create_job_workers (job_req : JobCreate.t) (store : Server.Store F Report)
    (resolved display : string) :
  (forall n, Server.cpu_count host = Some n -> 0 <= n) ->
  Server.resolve_input_path host (JobCreate.input_path job_req) =
    inr (resolved, display) ->
  String.eqb (Server.or_str (JobCreate.engine_version job_req) "v1") "v2"
    && negb v2_available = false ->
  let outcome := fst (Server.create_job v2_available host job_req store) in
  (JobCreate.workers job_req = Some 0 \/ JobCreate.workers job_req = None ->
   exists record,
     outcome = ret record /\
     Job.workers record =
       match Server.cpu_count host with
       | Some n => if n =? 0 then 4 else n
       | None => 4
       end) /\
  (outcome = raise (HTTPException 400 "workers must be >= 1") <->
   exists n, JobCreate.workers job_req = Some n /\ n < 0) /\
  (forall record, outcome = ret record -> 1 <= Job.workers record).
Proof.
  intros Hcpu Hpath Hengine outcome.
  unfold outcome, Server.create_job. rewrite Hpath, Hengine.
  destruct (or_chain_cases (JobCreate.workers job_req) (Server.cpu_count host))
    as [Hgiven Hdefault].
  set (w := Server.or_else
              (Server.or_int (JobCreate.workers job_req) (Server.cpu_count host)) 4) in *.
  assert (Hsub : JobCreate.workers job_req = Some 0 \/ JobCreate.workers job_req = None ->
                 1 <= w).
  { intros Hreq. rewrite Hdefault by tauto.
    destruct (Server.cpu_count host) as [n|] eqn:Hn; [|lia].
    specialize (Hcpu n eq_refl). destruct (Z.eqb_spec n 0); lia. }
  split; [|split].
  - intros Hreq. specialize (Hsub Hreq).
    destruct (Z.ltb_spec w 1); [lia|]. cbn [fst].
    eexists. split; [reflexivity|]. cbn [Job.workers]. apply Hdefault. tauto.
  - destruct (Z.ltb_spec w 1) as [Hlt | Hge]; cbn [fst]; split.
    + intros _. destruct (JobCreate.workers job_req) as [n|] eqn:Hreq.
      * destruct (Z.eq_dec n 0) as [-> | Hn0]; [specialize (Hsub (or_introl eq_refl)); lia|].
        exists n. split; [reflexivity|]. pose proof (Hgiven n eq_refl Hn0). lia.
      * specialize (Hsub (or_intror eq_refl)). lia.
    + reflexivity.
    + discriminate.
    + intros (n & Hreq & Hneg). rewrite (Hgiven n Hreq) in Hge; lia.
  - intros record. destruct (Z.ltb_spec w 1); cbn [fst]; [discriminate|].
    intros Hrec. injection Hrec as <-. cbn [Job.workers]. lia.
Qed.

End CreateJob.

(** A request for 0 workers on a host with eight CPUs gets eight. *)
Lemma create_job_workers_witness :
  ((forall n, Server.cpu_count sample_host = Some n -> 0 <= n) /\
   Server.resolve_input_path sample_host "uploads/input.mp4" =
     inr ("/srv/app/uploads/input.mp4", "uploads/input.mp4")) /\
  exists record,
    fst (Server.create_job false sample_host
           (JobCreate.mk "uploads/input.mp4" (Some 0) None None None) empty_store)
    = ret record /\
    Job.workers record = 8.
Proof.
  assert (Hcpu : forall n, Server.cpu_count sample_host = Some n -> 0 <= n).
  { intros n Hn. injection Hn as <-. lia. }
  split; [split; [exact Hcpu | reflexivity]|].
  destruct (@create_job_workers float string false sample_host
              (JobCreate.mk "uploads/input.mp4" (Some 0) None None None) empty_store
              "/srv/app/uploads/input.mp4" "uploads/input.mp4" Hcpu eq_refl eq_refl)
    as (Hzero & _ & _).
  destruct (Hzero (or_introl eq_refl)) as (record & Hrec & Hw).
  exists record. split; [exact Hrec | exact Hw].
Defined.

Example create_job_sample :
  Server.create_job false sample_host sample_request empty_store =
  (ret sample_job,
   Server.mkStore [("1a2b3c4d", sample_job)] sample_stats
     [Server.mkScheduled "1a2b3c4d" "/srv/app/uploads/input.mp4" 8
        Server.default_filter false "v1"]).
Proof. reflexivity. Qed.

(** ** Parallel run: edge cases and accounting *)

Section ParallelEdges.

Context {F : Type} `{PyFloat F}.
Variable world : World F.
Variables (input_path output_path filter_chain temp_dir : string).
Variables (metadata : VideoMetadata.t F).

Lemma run_parallel_nonpositive (num_workers : Z) (sys : Sys F) :
  num_workers <= 0 ->
  exists e, run_parallel world input_path output_path metadata num_workers
              filter_chain temp_dir sys = (raise e, sys).
Proof.
  intros HW. unfold run_parallel.
  destruct (num_chunks <- num_chunks_of num_workers ;;
            plan_chunks input_path (VideoMetadata.duration metadata) num_chunks temp_dir)
    as [e | chunks].
  - now exists e.
  - destruct (Z.leb_spec num_workers 0); [|lia]. eexists. reflexivity.
Qed.

Lemma encode_commands_only (l : list (ChunkTask.t F)) :
  filter is_encode (map (fun t => EncodeChunk t filter_chain) l) =
  map (fun t => EncodeChunk t filter_chain) l.
Proof. induction l as [|t l IH]; simpl; [reflexivity | now rewrite IH]. Qed.

Variable num_workers : Z.

(** X2. Every planned chunk is handed to the encoder exactly once, whatever
    the completion order and whether or not other chunks fail or the merge
    fails: the encode commands of a run are, up to order, those of the
    plan. *)
Theorem run_parallel_encodes_each_chunk_once (sys : Sys F)
    (chunks : list (ChunkTask.t F)) :
  (num_chunks <- num_chunks_of num_workers ;;
   plan_chunks input_path (VideoMetadata.duration metadata) num_chunks temp_dir)
    = inr chunks ->
  0 < num_workers ->
  Permutation (as_completed world chunks) chunks ->
  let outcome := run_parallel world input_path output_path metadata num_workers
                   filter_chain temp_dir sys in
  Permutation (filter is_encode (log (snd outcome)))
    (filter is_encode (log sys) ++ map (fun t => EncodeChunk t filter_chain) chunks).
Proof.
  intros Hplan HW Hperm outcome. unfold outcome.
  rewrite (@run_parallel_after_pool F _ world input_path output_path filter_chain
             temp_dir metadata num_workers sys chunks Hplan HW).
  cbv zeta.
  pose proof (collect_log world filter_chain (as_completed world chunks) sys) as Hlog.
  set (sys1 := snd (collect world (as_completed world chunks) filter_chain sys)) in *.
  assert (Hpool : Permutation (filter is_encode (log sys1))
                    (filter is_encode (log sys) ++
                     map (fun t => EncodeChunk t filter_chain) chunks)).
  { rewrite Hlog, filter_app, encode_commands_only.
    apply Permutation_app_head. now apply Permutation_map. }
  destruct (filter (fun r => negb (ChunkResult.success r)) _) as [|r0 failed];
    [|exact Hpool].
  destruct (mapM _ _) as [e | chunk_paths]; [exact Hpool|].
  rewrite merge_chunks_eq. cbv zeta.
  destruct (returncode_ok _); cbn [snd log]; [rewrite filter_app, app_nil_r; exact Hpool|].
  destruct (returncode_ok _); cbn [snd log]; rewrite filter_app, app_nil_r; exact Hpool.
Qed.

End ParallelEdges.

Lemma num_chunks_exact_negative (W : Z) :
  W < 0 -> exists n, num_chunks_of (F:=Q) W = inr n /\ n < 0.
Proof.
  intros HW. unfold num_chunks_of. cbn -[Z.mul Z.quot Z.max].
  eexists. split; [reflexivity|].
  change (Z.max (Z.quot (W * 3) 2) W < 0).
  assert (Hq : Z.quot (W * 3) 2 = - (- (W * 3) / 2)).
  { rewrite <- Z.quot_div_nonneg by lia. rewrite Z.quot_opp_l by lia. lia. }
  assert (Hd : 1 <= - (W * 3) / 2) by (apply Z.div_le_lower_bound; lia).
  apply Z.max_lub_lt; lia.
Qed.

(** X1. A parallel run asked for no workers, or for a negative number of them,
    raises before any command is run and leaves the file system and the
    command log as they were. With exact arithmetic the error is the
    division by the zero chunk count for 0 workers and the pool's refusal
    for a negative count; binary64 agrees for 0 workers. *)
Theorem run_parallel_rejects_nonpositive_workers (num_workers : Z)
    (input_path output_path filter_chain temp_dir : string) :
  num_workers <= 0 ->
  (forall (F : Type) (PF : PyFloat F) (world : World F)
          (metadata : VideoMetadata.t F) (sys : Sys F),
      exists e, run_parallel world input_path output_path metadata num_workers
                  filter_chain temp_dir sys = (raise e, sys)) /\
  (forall (world : World Q) (metadata : VideoMetadata.t Q) (sys : Sys Q),
      run_parallel world input_path output_path metadata num_workers
        filter_chain temp_dir sys =
      (raise (if num_workers =? 0 then ZeroDivisionError "float division by zero"
              else ValueError "max_workers must be greater than 0"), sys)) /\
  (num_workers = 0 ->
   forall (world : World float) (metadata : VideoMetadata.t float) (sys : Sys float),
      run_parallel world input_path output_path metadata num_workers
        filter_chain temp_dir sys =
      (raise (ZeroDivisionError "float division by zero"), sys)).
Proof.
  intros HW. split; [|split].
  - intros F PF world metadata sys. now apply run_parallel_nonpositive.
  - intros world metadata sys. unfold run_parallel.
    destruct (Z.eqb_spec num_workers 0) as [-> | Hne].
    + reflexivity.
    + destruct (@num_chunks_exact_negative num_workers ltac:(lia)) as (n & -> & Hn).
      cbn [bind]. unfold plan_chunks, truediv_int.
      destruct (Z.eqb_spec n 0); [lia|]. cbn [bind ret].
      destruct (Z.leb_spec num_workers 0); [reflexivity | lia].
  - intros -> world metadata sys. reflexivity.
Qed.

(** A run with no workers on the sample clip. *)
Lemma run_parallel_rejects_nonpositive_workers_witness :
  0 <= 0 /\
  run_parallel (sample_world (-1) true true) "input.mp4" "output.mp4"
    sample_metadata 0 Server.default_filter ".temp_chunks" empty_sys =
  (raise (ZeroDivisionError "float division by zero"), empty_sys).
Proof.
  split; [lia|].
  exact (proj2 (proj2 (@run_parallel_rejects_nonpositive_workers 0 "input.mp4"
                         "output.mp4" Server.default_filter ".temp_chunks"
                         ltac:(lia)))
           eq_refl (sample_world (-1) true true) sample_metadata empty_sys).
Defined.

(** Six chunks for four workers, the fourth chunk failing, futures
    completing in reverse order: all six were encoded. *)
Lemma run_parallel_encodes_each_chunk_once_witness :
  0 < 4 /\
  Permutation
    (filter is_encode
       (log (snd (run_parallel (sample_world 3 true true) "input.mp4" "output.mp4"
                    sample_metadata 4 Server.default_filter ".temp_chunks" empty_sys))))
    (map (fun t => EncodeChunk t Server.default_filter)
       (map (planned_task "input.mp4" 30%float 6 ".temp_chunks") (range 6))).
Proof.
  split; [lia|].
  apply (@run_parallel_encodes_each_chunk_once float _ (sample_world 3 true true)
           "input.mp4" "output.mp4" Server.default_filter ".temp_chunks"
           sample_metadata 4 empty_sys
           (map (planned_task "input.mp4" 30%float 6 ".temp_chunks") (range 6))).
  - vm_compute. reflexivity.
  - lia.
  - apply Permutation_sym, Permutation_rev.
Defined.

(** ** Scaling sweep: one entry per worker count *)

Lemma dict_set_fresh {V} (k : Z) (v : V) (d : list (Z * V)) :
  ~ In k (map fst d) -> dict_set Z.eqb k v d = (d ++ [(k, v)])%list.
Proof.
  induction d as [|[k' v'] d IH]; intros Hk; simpl; [reflexivity|].
  destruct (Z.eqb_spec k k') as [-> | Hne].
  - exfalso. apply Hk. now left.
  - rewrite IH; [reflexivity|]. intros Hin. apply Hk. now right.
Qed.

Lemma sorted_set_NoDup (l : list Z) : NoDup (sorted_set l).
Proof.
  unfold sorted_set. eapply Permutation_NoDup.
  - symmetry. apply sort_by_perm.
  - apply NoDup_nodup.
Qed.

Section SweepFacts.

Context {F : Type} `{PyFloat F}.
Variable world : World F.
Variables (input_path : string) (metadata : VideoMetadata.t F).
Variables (filter_chain temp_dir : string).

(** One turn of the loop of [run_scaling_sweep]. *)
Let turn : list (Z * SweepEntry.t F) * Sys F -> Z ->
           list (Z * SweepEntry.t F) * Sys F :=
  fun '(results, sys) num_workers =>
  let output_path :=
    path_join temp_dir ("output_" ++ str_int num_workers ++ "w.mp4") in
  match run_parallel world input_path output_path metadata num_workers
          filter_chain temp_dir sys with
  | (inr (elapsed, chunk_results), sys') =>
      (dict_set Z.eqb num_workers
         (SweepEntry.mk (Some elapsed) true
            (map (@ChunkResult.elapsed F) chunk_results)) results, sys')
  | (inl _, sys') =>
      (dict_set Z.eqb num_workers (SweepEntry.mk None false []) results, sys')
  end.

Lemma turn_appends (results : list (Z * SweepEntry.t F)) (sys : Sys F) (w : Z) :
  ~ In w (map fst results) ->
  exists entry,
    fst (turn (results, sys) w) = (results ++ [(w, entry)])%list /\
    entry_shape (w, entry).
Proof.
  intros Hfresh. unfold turn.
  set (output_path := path_join temp_dir ("output_" ++ str_int w ++ "w.mp4")).
  destruct (Z_le_gt_dec w 0) as [Hle | Hgt].
  - destruct (@run_parallel_nonpositive F _ world input_path output_path filter_chain
                temp_dir metadata w sys Hle) as (e & ->).
    exists (SweepEntry.mk None false []). cbn [fst].
    split; [now apply dict_set_fresh|]. split; cbn; [discriminate | auto].
  - destruct (run_parallel world input_path output_path metadata w filter_chain
                temp_dir sys) as [[e | [elapsed chunk_results]] sys'].
    + exists (SweepEntry.mk None false []). cbn [fst].
      split; [now apply dict_set_fresh|]. split; cbn; [discriminate | auto].
    + eexists. cbn [fst]. split; [now apply dict_set_fresh|].
      split; cbn; [intros _; split; [lia | eauto] | discriminate].
Qed.

Lemma sweep_fold (todo : list Z) :
  forall (results : list (Z * SweepEntry.t F)) (sys : Sys F),
    NoDup (map fst results ++ todo) -> Forall entry_shape results ->
    map fst (fst (fold_left turn todo (results, sys))) = (map fst results ++ todo)%list /\
    Forall entry_shape (fst (fold_left turn todo (results, sys))).
Proof.
  induction todo as [|w todo IH]; intros results sys Hnd Hshape; cbn [fold_left].
  - rewrite app_nil_r. split; [reflexivity | exact Hshape].
  - assert (Hfresh : ~ In w (map fst results)).
    { intros Hin. apply NoDup_remove_2 in Hnd. apply Hnd.
      apply in_or_app. now left. }
    destruct (@turn_appends results sys w Hfresh) as (entry & Hres & Hentry).
    destruct (turn (results, sys) w) as [results' sys'] eqn:Hturn. cbn [fst] in Hres.
    subst results'.
    destruct (IH (results ++ [(w, entry)])%list sys') as [Hkeys Hall].
    + rewrite map_app. cbn [map fst]. now rewrite <- app_assoc.
    + apply Forall_app. split; [exact Hshape | constructor; [exact Hentry | constructor]].
    + split; [|exact Hall].
      rewrite Hkeys, map_app. cbn [map fst]. now rewrite <- app_assoc.
Qed.

Lemma sweep_entries (max_workers : Z) (sys : Sys F) :
  map fst (fst (run_scaling_sweep world input_path metadata filter_chain
                  max_workers temp_dir sys)) = worker_series max_workers /\
  Forall entry_shape (fst (run_scaling_sweep world input_path metadata filter_chain
                             max_workers temp_dir sys)).
Proof.
  assert (Heq : run_scaling_sweep world input_path metadata filter_chain max_workers
                  temp_dir sys = fold_left turn (worker_series max_workers) ([], sys)).
  { reflexivity. }
  rewrite Heq.
  apply (@sweep_fold (worker_series max_workers) [] sys);
    [apply sorted_set_NoDup | constructor].
Qed.

(** X4. The sweep stores one entry per worker count of the series, in the
    order of the series, also for the counts whose run raised: a failure
    never ends the sweep. Every entry has one of the two shapes the loop
    writes. *)
Theorem sweep_records_every_worker_count (max_workers : Z) (sys : Sys F) :
  let results := fst (run_scaling_sweep world input_path metadata filter_chain
                        max_workers temp_dir sys) in
  map fst results = worker_series max_workers /\
  Forall entry_shape results /\
  NoDup (map fst results).
Proof.
  cbv zeta. destruct (sweep_entries max_workers sys) as [Hkeys Hall].
  split; [exact Hkeys|]. split; [exact Hall|].
  rewrite Hkeys. apply sorted_set_NoDup.
Qed.

End SweepFacts.

(** ** Amdahl analysis: when it reports and what it reports *)

Lemma Qle_bool_gt (x y : Q) : Qle_bool x y = false -> (y < x)%Q.
Proof.
  intros E. apply Qnot_le_lt. intros Hle. apply Qle_bool_iff in Hle. congruence.
Qed.

Lemma Qeq_bool_true (x y : Q) : (x == y)%Q -> Qeq_bool x y = true.
Proof. apply Qeq_bool_iff. Qed.

Lemma clamp_bounds (x : Q) : (0 <= fmax 0%Q (fmin 1%Q x) <= 1)%Q.
Proof.
  unfold fmax, fmin. cbn [flt Exact.exact].
  destruct (Qle_bool 1 x) eqn:E1; cbn [negb].
  - destruct (Qle_bool 1 0) eqn:E0; cbn [negb]; lra.
  - apply Qle_bool_gt in E1.
    destruct (Qle_bool x 0) eqn:E0; cbn [negb]; [lra|].
    apply Qle_bool_gt in E0. lra.
Qed.

Lemma inject_Z_nonzero (N : Z) : N <> 0 -> ~ (inject_Z N == 0)%Q.
Proof. intros HN. unfold Qeq. simpl. lia. Qed.

Lemma one_minus_inverse (N : Z) :
  N <> 0 -> ((1 - 1 / inject_Z N == 0)%Q <-> N = 1).
Proof.
  intros HN. pose proof (inject_Z_nonzero HN) as Hn. split.
  - intros Hz.
    assert (H1 : (inject_Z N == 1)%Q).
    { assert (Hinv : (1 / inject_Z N == 1)%Q) by lra.
      setoid_replace (inject_Z N) with (inject_Z N * (1 / inject_Z N))%Q at 1
        by (rewrite Hinv; ring).
      field. exact Hn. }
    unfold Qeq in H1. simpl in H1. lia.
  - intros ->. reflexivity.
Qed.

Section AmdahlTotal.

Variables (S T : Q) (N : Z).

Let A : Q := (S / T)%Q.
Let n : Q := inject_Z N.
Let f : Q := fmax 0%Q (fmin 1%Q ((1 - A / n) / (1 - 1 / n))%Q).
Let top : Q := fmin (if flt 0%Q f then (1 / f)%Q else n) (inject_Z (N * 2)).

(** The analysis unfolded, outside the three cases in which it divides by
    zero. *)
Lemma amdahl_analysis_reports :
  ~ (T == 0)%Q -> (A < n)%Q -> N <> 0 -> N <> 1 -> ~ (top == 0)%Q ->
  amdahl_analysis S T N =
  inr (Some (Amdahl.mk A f top (A / top * inject_Z 100)%Q)).
Proof.
  intros HT HA HN0 HN1 Htop.
  unfold amdahl_analysis, truediv, truediv_int, truediv_ints.
  cbn [fis_zero flt fquot fsub fmul fadd of_int Exact.exact].
  change (inject_Z 1) with 1%Q. change (inject_Z 0) with 0%Q.
  rewrite (Qeq_bool_false (x:=T) (y:=0)) by exact HT. cbn [bind ret].
  fold A. fold n. rewrite (Qle_bool_false (x:=n) (y:=A)) by exact HA. cbn [negb].
  destruct (Z.eqb_spec N 0); [contradiction|]. cbn [bind ret].
  rewrite (Qeq_bool_false (x:=(1 - 1 / n)%Q) (y:=0)).
  2:{ intros Hz. apply HN1. now apply one_minus_inverse. }
  cbn [bind ret]. fold f.
  assert (Hinner :
    (if negb (Qle_bool f 0)
     then if Qeq_bool f 0 then raise (ZeroDivisionError "float division by zero")
          else ret (1 / f)%Q
     else ret n) = ret (if flt 0%Q f then (1 / f)%Q else n)).
  { cbn [flt Exact.exact]. destruct (Qle_bool f 0) eqn:E; cbn [negb]; [reflexivity|].
    apply Qle_bool_gt in E. rewrite (Qeq_bool_false (x:=f) (y:=0)) by lra. reflexivity. }
  rewrite Hinner. cbn [bind ret]. fold top.
  rewrite (Qeq_bool_false (x:=top) (y:=0)) by exact Htop. reflexivity.
Qed.

Lemma f_clamped : (0 <= f <= 1)%Q.
Proof. apply clamp_bounds. Qed.

Lemma top_nonzero : N <> 0 -> ~ (top == 0)%Q.
Proof.
  intros HN0. pose proof f_clamped as [Hf0 Hf1].
  assert (H2n : (inject_Z (N * 2) == 2 * n)%Q).
  { unfold n. rewrite inject_Z_mult. change (inject_Z 2) with 2%Q. ring. }
  assert (Hn : (n < 0 \/ 0 < n)%Q).
  { unfold n. destruct (Z_lt_ge_dec N 0).
    - left. change 0%Q with (inject_Z 0). rewrite <- Zlt_Qlt. lia.
    - right. change 0%Q with (inject_Z 0). rewrite <- Zlt_Qlt. lia. }
  unfold top, fmin. cbn [flt Exact.exact].
  destruct (Qle_bool f 0) eqn:E; cbn [negb].
  - destruct (Qle_bool n (inject_Z (N * 2))) eqn:E2; cbn [negb]; [lra|].
    apply Qle_bool_gt in E2. lra.
  - apply Qle_bool_gt in E.
    assert (Hinv : (0 < 1 / f)%Q) by (apply Qlt_shift_div_l; lra).
    destruct (Qle_bool (1 / f) (inject_Z (N * 2))) eqn:E2; cbn [negb]; [lra|].
    apply Qle_bool_gt in E2. lra.
Qed.

(** X6. The analysis raises in exactly three situations: the best time is
    zero; the measured speedup is negative and the worker count is 0; the
    worker count is 1 and the parallel run was slower than the serial one.
    The error is always the division by zero. In every other situation it
    returns. *)
Theorem amdahl_analysis_raises_iff :
  (forall e, amdahl_analysis S T N = inl e ->
             e = ZeroDivisionError "float division by zero") /\
  ((exists e, amdahl_analysis S T N = inl e) <->
   (T == 0)%Q \/ ((S / T < inject_Z N)%Q /\ (N = 0 \/ N = 1))).
Proof.
  fold A. fold n.
  destruct (Qeq_dec T 0) as [HT | HT].
  { assert (Hraise : amdahl_analysis S T N =
                     inl (ZeroDivisionError "float division by zero")).
    { unfold amdahl_analysis, truediv. cbn [fis_zero Exact.exact].
      change (inject_Z 0) with 0%Q. now rewrite (Qeq_bool_true HT). }
    rewrite Hraise. split.
    - intros e He. now injection He as <-.
    - split; [now left | intros _; eexists; reflexivity]. }
  destruct (Qlt_le_dec A n) as [HA | HA].
  2:{ assert (Hnone : amdahl_analysis S T N = inr None).
      { unfold amdahl_analysis, truediv.
        cbn [fis_zero flt fquot of_int Exact.exact]. change (inject_Z 0) with 0%Q.
        rewrite (Qeq_bool_false (x:=T) (y:=0)) by exact HT. cbn [bind ret].
        fold A. fold n.
        assert (Hle : Qle_bool n A = true) by now apply Qle_bool_iff.
        now rewrite Hle. }
      rewrite Hnone. split; [discriminate|].
      split; [intros [e He]; discriminate | intros [Hz | [Hlt _]]; [contradiction | lra]]. }
  destruct (Z.eq_dec N 0) as [HN0 | HN0].
  { assert (Hraise : amdahl_analysis S T N =
                     inl (ZeroDivisionError "float division by zero")).
    { unfold amdahl_analysis, truediv, truediv_int.
      cbn [fis_zero flt fquot of_int Exact.exact]. change (inject_Z 0) with 0%Q.
      rewrite (Qeq_bool_false (x:=T) (y:=0)) by exact HT. cbn [bind ret].
      fold A. fold n. rewrite (Qle_bool_false (x:=n) (y:=A)) by exact HA. cbn [negb].
      subst N. reflexivity. }
    rewrite Hraise. split.
    - intros e He. now injection He as <-.
    - split; [intros _; right; auto | intros _; eexists; reflexivity]. }
  destruct (Z.eq_dec N 1) as [HN1 | HN1].
  { assert (Hraise : amdahl_analysis S T N =
                     inl (ZeroDivisionError "float division by zero")).
    { unfold amdahl_analysis, truediv, truediv_int, truediv_ints.
      cbn [fis_zero flt fquot fsub of_int Exact.exact]. change (inject_Z 0) with 0%Q.
      rewrite (Qeq_bool_false (x:=T) (y:=0)) by exact HT. cbn [bind ret].
      fold A. fold n. rewrite (Qle_bool_false (x:=n) (y:=A)) by exact HA. cbn [negb].
      subst N. reflexivity. }
    rewrite Hraise. split.
    - intros e He. now injection He as <-.
    - split; [intros _; right; auto | intros _; eexists; reflexivity]. }
  rewrite (amdahl_analysis_reports HT HA HN0 HN1 (top_nonzero HN0)).
  split; [discriminate|].
  split; [intros [e He]; discriminate | intros [Hz | [_ [H0 | H1]]]; contradiction].
Qed.

End AmdahlTotal.

Section AmdahlBounds.

Variables (S T : Q) (N : Z).
Hypothesis N_two : 2 <= N.
Hypothesis T_nonzero : ~ (T == 0)%Q.

Let A : Q := (S / T)%Q.
Let n : Q := inject_Z N.

Lemma n_at_least_two : (2 <= n)%Q.
Proof. unfold n. change 2%Q with (inject_Z 2). now rewrite <- Zle_Qle. Qed.

Lemma raw_fraction_positive :
  (A < n)%Q -> (0 < (1 - A / n) / (1 - 1 / n))%Q.
Proof.
  intros HA. pose proof n_at_least_two as Hn.
  assert (H1 : (A / n < 1)%Q) by (apply Qlt_shift_div_r; lra).
  assert (H2 : (1 / n < 1)%Q) by (apply Qlt_shift_div_r; lra).
  apply Qlt_shift_div_l; lra.
Qed.

(** X7. With two workers or more and a non-zero best time the analysis never
    raises. It reports nothing when the speedup reaches the worker count.
    Otherwise the serial fraction it reports is positive and at most 1, so
    the theoretical maximum is 1 / fraction capped at twice the worker
    count: it lies between 1 and 2N, and the percentage is the speedup
    over that maximum. *)
Theorem amdahl_report_bounds :
  ((S / T < inject_Z N)%Q ->
   exists r,
     amdahl_analysis S T N = inr (Some r) /\
     Amdahl.actual_speedup r = (S / T)%Q /\
     (0 < Amdahl.serial_fraction r <= 1)%Q /\
     Amdahl.theoretical_max r =
       fmin (1 / Amdahl.serial_fraction r)%Q (inject_Z (N * 2)) /\
     (1 <= Amdahl.theoretical_max r <= inject_Z (N * 2))%Q /\
     Amdahl.percent_of_theoretical r =
       (S / T / Amdahl.theoretical_max r * inject_Z 100)%Q) /\
  ((inject_Z N <= S / T)%Q -> amdahl_analysis S T N = inr None).
Proof.
  fold A. fold n. pose proof n_at_least_two as Hn. split.
  - intros HA.
    assert (HN0 : N <> 0) by lia. assert (HN1 : N <> 1) by lia.
    rewrite (amdahl_analysis_reports T_nonzero HA HN0 HN1 (top_nonzero S T HN0)).
    fold A. fold n.
    set (f := fmax 0%Q (fmin 1%Q ((1 - A / n) / (1 - 1 / n))%Q)).
    pose proof (clamp_bounds ((1 - A / n) / (1 - 1 / n))%Q) as [Hf0 Hf1]. fold f in Hf0, Hf1.
    assert (Hfpos : (0 < f)%Q).
    { pose proof (raw_fraction_positive HA) as Hx.
      unfold f, fmax, fmin. cbn [flt Exact.exact].
      destruct (Qle_bool 1 ((1 - A / n) / (1 - 1 / n))) eqn:E1; cbn [negb].
      - destruct (Qle_bool 1 0) eqn:E0; cbn [negb]; [|lra].
        apply Qle_bool_iff in E0. lra.
      - rewrite (Qle_bool_false (x:=((1 - A / n) / (1 - 1 / n))%Q) (y:=0)) by exact Hx.
        exact Hx. }
    assert (Hflt : flt 0%Q f = true).
    { cbn [flt Exact.exact]. now rewrite (Qle_bool_false (x:=f) (y:=0)). }
    rewrite Hflt.
    eexists. split; [reflexivity|].
    cbn [Amdahl.actual_speedup Amdahl.serial_fraction Amdahl.theoretical_max
         Amdahl.percent_of_theoretical].
    split; [reflexivity|]. split; [split; assumption|]. split; [reflexivity|].
    split; [|reflexivity].
    assert (H2n : (inject_Z (N * 2) == 2 * n)%Q).
    { unfold n. rewrite inject_Z_mult. change (inject_Z 2) with 2%Q. ring. }
    assert (Hinv : (1 <= 1 / f)%Q) by (apply Qle_shift_div_l; lra).
    unfold fmin. cbn [flt Exact.exact].
    destruct (Qle_bool (1 / f) (inject_Z (N * 2))) eqn:E; cbn [negb].
    + apply Qle_bool_iff in E. lra.
    + apply Qle_bool_gt in E. lra.
  - intros HA. unfold amdahl_analysis, truediv.
    cbn [fis_zero flt fquot of_int Exact.exact]. change (inject_Z 0) with 0%Q.
    rewrite (Qeq_bool_false (x:=T) (y:=0)) by exact T_nonzero. cbn [bind ret].
    fold A. fold n.
    assert (Hle : Qle_bool n A = true) by now apply Qle_bool_iff.
    now rewrite Hle.
Qed.

End AmdahlBounds.

(** A serial run of 2 s against 1 s at 4 workers: the fraction reported is
    2/3 and the maximum 3/2. *)
Lemma amdahl_report_bounds_witness :
  (2 <= 4 /\ ~ (1 # 1 == 0)%Q) /\
  exists r,
    amdahl_analysis (F:=Q) (2 # 1) (1 # 1) 4 = inr (Some r) /\
    (0 < Amdahl.serial_fraction r <= 1)%Q /\
    (1 <= Amdahl.theoretical_max r <= inject_Z (4 * 2))%Q.
Proof.
  assert (H1 : ~ (1 # 1 == 0)%Q) by discriminate.
  split; [split; [lia | exact H1]|].
  destruct (@amdahl_report_bounds (2 # 1) (1 # 1) 4 ltac:(lia) H1) as [Hrep _].
  destruct Hrep as (r & Hr & _ & Hf & _ & Htop & _); [reflexivity|].
  exists r. split; [exact Hr | split; [exact Hf | exact Htop]].
Defined.

(** ** The scaling table *)

Lemma sorted_unmap {A} (key : A -> Z) (l : list A) :
  StronglySorted (fun a b => a <= b) (map key l) ->
  StronglySorted (fun a b => key a <= key b) l.
Proof.
  induction l as [|a l IH]; intros Hs; [constructor|].
  simpl in Hs. inversion Hs as [|? ? Hs' Hall]; subst.
  constructor; [now apply IH|].
  rewrite Forall_map in Hall. exact Hall.
Qed.

Section TableFacts.

Context {F : Type} `{PyFloat F}.
Variables (fmt_2f fmt_1f : F -> string).

Lemma table_row_returns (serial_time : F) (w : Z) (d : SweepEntry.t F) :
  entry_shape (w, d) ->
  exists row,
    Display.table_row fmt_2f fmt_1f serial_time w d = inr row /\
    hd "" row = str_int w /\ List.length row = 4%nat.
Proof.
  intros [Hset Hclear]. unfold Display.table_row. cbn [fst snd] in *.
  destruct (SweepEntry.success d) eqn:Hs.
  - destruct (Hset eq_refl) as (Hw & t & ->).
    destruct (fis_zero t) eqn:Hz; [eexists; repeat split|].
    unfold truediv, truediv_int. rewrite Hz. cbn [bind ret].
    destruct (Z.eqb_spec w 0); [lia|]. cbn [bind ret].
    eexists. repeat split.
  - eexists. repeat split.
Qed.

Lemma table_rows_return (serial_time : F) (l : list (Z * SweepEntry.t F)) :
  Forall entry_shape l ->
  exists rows,
    mapM (fun item => Display.table_row fmt_2f fmt_1f serial_time (fst item) (snd item)) l
      = inr rows /\
    map (hd "") rows = map (fun item => str_int (fst item)) l /\
    Forall (fun row => List.length row = 4%nat) rows.
Proof.
  induction 1 as [|[w d] l Hwd _ (rows & Hrows & Hhd & Hlen)]; cbn [mapM].
  - exists []. repeat split. constructor.
  - destruct (table_row_returns serial_time Hwd) as (row & Hrow & Hfirst & Hfour).
    cbn [fst snd]. rewrite Hrow. cbn [bind]. rewrite Hrows. cbn [bind ret].
    exists (row :: rows). split; [reflexivity|]. split.
    + cbn [map fst]. now rewrite Hfirst, Hhd.
    + now constructor.
Qed.

Variable world : World F.

(** X5. The table of a sweep is always built: whatever the arithmetic, the
    external tools and the worker count asked for, no row of the results
    of [run_scaling_sweep] divides by zero. There is one row of four cells
    per worker count of the series, in increasing order of the count. *)
Theorem sweep_table_never_raises (serial_time : F) (input_path : string)
    (metadata : VideoMetadata.t F) (filter_chain : string) (max_workers : Z)
    (temp_dir : string) (sys : Sys F) :
  exists rows,
    Display.table_rows fmt_2f fmt_1f serial_time
      (fst (run_scaling_sweep world input_path metadata filter_chain max_workers
              temp_dir sys)) = inr rows /\
    map (hd "") rows = map str_int (worker_series max_workers) /\
    Forall (fun row => List.length row = 4%nat) rows.
Proof.
  destruct (@sweep_entries F _ world input_path metadata filter_chain temp_dir
              max_workers sys) as (Hkeys & Hshape).
  set (results := fst (run_scaling_sweep world input_path metadata filter_chain
                         max_workers temp_dir sys)) in *.
  unfold Display.table_rows.
  assert (Hsorted : sort_by fst results = results).
  { apply sort_by_sorted, sorted_unmap. rewrite Hkeys.
    apply (sort_by_sorts (fun x => x)). }
  rewrite Hsorted.
  destruct (table_rows_return serial_time Hshape) as (rows & Hrows & Hhd & Hlen).
  exists rows. split; [exact Hrows|]. split; [|exact Hlen].
  rewrite Hhd, <- Hkeys. now rewrite map_map.
Qed.

End TableFacts.

(** ** The CPU grid *)

Lemma nth_window {A} (d : A) (R : nat) : forall (l : list A),
  (R <= List.length l)%nat ->
  map (fun r => nth r l d) (seq 0 R) = firstn R l.
Proof.
  induction R as [|R IH]; intros l Hlen; [reflexivity|].
  destruct l as [|a l]; [simpl in Hlen; lia|].
  cbn [seq map firstn nth]. f_equal.
  rewrite <- seq_shift, map_map. apply IH. simpl in Hlen. lia.
Qed.

Lemma nth_skipn {A} (d : A) (R i : nat) (l : list A) :
  nth (i + R) l d = nth i (skipn R l) d.
Proof.
  revert l. induction R as [|R IH]; intros l.
  - now rewrite Nat.add_0_r.
  - destruct l as [|a l]; [now destruct i|].
    replace (i + S R)%nat with (S (i + R)) by lia. cbn [nth skipn]. apply IH.
Qed.

(** A list of [k * R] elements read in [k] windows of [R]. *)
Lemma windows_concat {A} (d : A) (R : nat) : forall (k : nat) (l : list A),
  List.length l = (k * R)%nat ->
  flat_map (fun c => map (fun r => nth (r + c * R) l d) (seq 0 R)) (seq 0 k) = l.
Proof.
  induction k as [|k IH]; intros l Hlen.
  - destruct l; [reflexivity | discriminate].
  - cbn [seq flat_map].
    transitivity (firstn R l ++ skipn R l)%list; [|apply firstn_skipn]. f_equal.
    + rewrite <- (@nth_window A d R l) by lia.
      apply map_ext. intros r. f_equal. lia.
    + rewrite <- seq_shift, flat_map_concat_map, map_map, <- flat_map_concat_map.
      rewrite <- (IH (skipn R l)) at 1 by (rewrite length_skipn; lia).
      apply flat_map_ext. intros c. apply map_ext. intros r.
      replace (r + S c * R)%nat with ((r + c * R) + R)%nat by lia.
      apply nth_skipn.
Qed.

Section GridFacts.

Variable bars : list string.

Let len : nat := List.length bars.
Let R : nat := ((len + 3) / 4)%nat.

Lemma grid_rows_count : (Z.of_nat len + 4 - 1) / 4 = Z.of_nat R.
Proof.
  unfold R. rewrite Nat2Z.inj_div, Nat2Z.inj_add. f_equal. lia.
Qed.

Lemma grid_capacity : (len <= 4 * R < len + 4)%nat.
Proof.
  unfold R. pose proof (Nat.div_mod_eq (len + 3) 4) as Hd.
  pose proof (Nat.mod_upper_bound (len + 3) 4 ltac:(lia)). lia.
Qed.

Lemma grid_rows_eq :
  Display.grid_rows bars =
  map (fun r => map (fun c => nth (r + c * R) bars "") (seq 0 4)) (seq 0 R).
Proof.
  unfold Display.grid_rows. cbv zeta. fold len. rewrite grid_rows_count.
  unfold range. rewrite !Nat2Z.id, map_map. apply map_ext. intros r.
  change (Z.to_nat 4) with 4%nat. rewrite map_map. apply map_ext. intros c.
  replace (Z.to_nat (Z.of_nat r + Z.of_nat c * Z.of_nat R)) with (r + c * R)%nat by lia.
  destruct (Z.ltb_spec (Z.of_nat r + Z.of_nat c * Z.of_nat R) (Z.of_nat len));
    [reflexivity|].
  symmetry. apply nth_overflow. fold len. lia.
Qed.

(** X9. No CPU is left out of the grid and none is shown twice: read column
    after column, the table is the list of bars followed by fewer than
    four empty cells. It has [ceil(n / 4)] rows of four cells. *)
Theorem cpu_grid_keeps_every_bar :
  let table := Display.grid_rows bars in
  let rows := ((List.length bars + 3) / 4)%nat in
  List.length table = rows /\
  Forall (fun row => List.length row = 4%nat) table /\
  read_by_columns table = (bars ++ repeat "" (4 * rows - List.length bars))%list /\
  (4 * rows - List.length bars < 4)%nat.
Proof.
  cbv zeta. fold len. fold R. pose proof grid_capacity as Hcap.
  rewrite grid_rows_eq. split; [|split; [|split]].
  - now rewrite length_map, length_seq.
  - apply Forall_forall. intros row Hrow. apply in_map_iff in Hrow.
    destruct Hrow as (r & <- & _). reflexivity.
  - set (padded := (bars ++ repeat "" (4 * R - len))%list).
    assert (Hpad : forall i, nth i bars "" = nth i padded "").
    { intros i. unfold padded. destruct (Nat.lt_ge_cases i len) as [Hi | Hi].
      - now rewrite app_nth1.
      - rewrite app_nth2 by exact Hi. rewrite nth_overflow by exact Hi.
        symmetry. apply nth_repeat. }
    assert (Hlen : List.length padded = (4 * R)%nat).
    { unfold padded. rewrite length_app, repeat_length. fold len. lia. }
    rewrite <- (@windows_concat string "" R 4 padded Hlen) at 1.
    unfold read_by_columns, column. apply flat_map_ext. intros c.
    rewrite map_map. apply map_ext_in. intros r Hr.
    assert (Hc : forall k, (k < 4)%nat ->
              nth k (map (fun c => nth (r + c * R) bars "") (seq 0 4)) "" =
              nth (r + k * R) bars "").
    { intros k Hk. do 4 (destruct k as [|k]; [reflexivity|]). lia. }
    destruct (Nat.lt_ge_cases c 4) as [Hc4 | Hc4].
    + rewrite Hc by exact Hc4. apply Hpad.
    + rewrite nth_overflow by (rewrite length_map, length_seq; exact Hc4).
      symmetry. apply nth_overflow. rewrite Hlen. nia.
  - lia.
Qed.

End GridFacts.

(** ** The CPU bars *)

Lemma binary64_bars_agree_all : binary64_bars_agree 1001 = true.
Proof. vm_compute. reflexivity. Qed.

Lemma bar_filled_exact (pct : Q) :
  (0 <= pct)%Q -> Display.bar_filled pct = inr (Qfloor (pct / inject_Z 10)).
Proof.
  intros Hp. unfold Display.bar_filled, truediv_int. cbn [Z.eqb bind ret].
  cbn [fquot of_int to_int Exact.exact]. unfold Exact.int_of_rational, ret. f_equal.
  assert (Hq : (0 <= pct / inject_Z 10)%Q).
  { apply Qle_shift_div_l; [reflexivity | now rewrite Qmult_0_l]. }
  unfold Qfloor. destruct (pct / inject_Z 10)%Q as [num den].
  apply Z.quot_div_nonneg; [|lia].
  unfold Qle in Hq. simpl in Hq. lia.
Qed.

(** X10. A reading between 0 and 100 gives a bar of ten cells, of which
    [floor(pct / 10)] are filled, in the colour of its band: green below 50,
    yellow below 85, red from there. This holds in binary64 for every
    one-decimal reading [k / 10], and in exact arithmetic for every
    reading. *)
Theorem cpu_bar_has_ten_cells (fmt_4_1f : float -> string) (i k : Z) :
  0 <= k <= 1000 ->
  let pct := fquot (of_int k) (of_int 10) : float in
  let color := if k <? 500 then "green" else if k <? 850 then "yellow" else "red" in
  Display.cpu_bar fmt_4_1f i pct =
    inr ("CPU" ++ Display.fmt_02d i ++ ": [" ++ color ++ "]"
           ++ (Display.str_repeat "█" (k / 100) ++ Display.str_repeat "░" (10 - k / 100))
           ++ "[/" ++ color ++ "] " ++ fmt_4_1f pct ++ "%") /\
  (Z.to_nat (k / 100) + Z.to_nat (10 - k / 100) = 10)%nat /\
  (forall q : Q, (0 <= q <= inject_Z 100)%Q ->
     exists filled,
       Display.bar_filled q = inr filled /\ filled = Qfloor (q / inject_Z 10) /\
       0 <= filled <= 10).
Proof.
  intros Hk pct color.
  assert (Hin : In k (range 1001)).
  { unfold range. apply in_map_iff. exists (Z.to_nat k). split; [lia|].
    apply in_seq. lia. }
  pose proof binary64_bars_agree_all as Hall.
  unfold binary64_bars_agree in Hall. rewrite forallb_forall in Hall.
  specialize (Hall k Hin). cbv zeta in Hall. fold pct in Hall.
  apply andb_true_iff in Hall. destruct Hall as [Hfill Hcol].
  apply String.eqb_eq in Hcol.
  destruct (Display.bar_filled pct) as [e | filled] eqn:Hf; [discriminate|].
  apply Z.eqb_eq in Hfill. subst filled.
  split; [|split].
  - unfold Display.cpu_bar. rewrite Hf. cbn [bind ret]. rewrite Hcol. reflexivity.
  - assert (0 <= k / 100 <= 10).
    { split; [apply Z.div_pos; lia | apply Z.div_le_upper_bound; lia]. }
    lia.
  - intros q [Hq0 Hq100]. exists (Qfloor (q / inject_Z 10)).
    split; [now apply bar_filled_exact|]. split; [reflexivity|].
    split.
    + rewrite <- (Qfloor_Z 0). apply Qfloor_resp_le.
      apply Qle_shift_div_l; [reflexivity | now rewrite Qmult_0_l].
    + rewrite <- (Qfloor_Z 10). apply Qfloor_resp_le.
      apply Qle_shift_div_r; [reflexivity|].
      change (inject_Z 10 * inject_Z 10)%Q with (inject_Z 100). exact Hq100.
Qed.

(** A core at 37.5 percent: three filled cells, green. *)
Lemma cpu_bar_has_ten_cells_witness :
  0 <= 375 <= 1000 /\
  Display.cpu_bar (fun _ => "37.5") 2 (fquot (of_int 375) (of_int 10) : float) =
    inr ("CPU02: [green]███░░░░░░░[/green] 37.5%").
Proof.
  split; [lia|].
  exact (proj1 (@cpu_bar_has_ten_cells (fun _ => "37.5") 2 375 ltac:(lia))).
Defined.

(** ** Chunk files *)

Lemma append_length (x y : string) :
  String.length (x ++ y) = (String.length x + String.length y)%nat.
Proof. induction x as [|c x IH]; simpl; [reflexivity | now rewrite IH]. Qed.

Lemma append_inj_l (p x y : string) : p ++ x = p ++ y -> x = y.
Proof. induction p as [|c p IH]; simpl; [auto | intros [= Heq]; auto]. Qed.

Lemma append_inj_r (s : string) : forall x y : string, x ++ s = y ++ s -> x = y.
Proof.
  induction x as [|c x IH]; intros [|d y] Heq.
  - reflexivity.
  - apply (f_equal String.length) in Heq. simpl in Heq. rewrite append_length in Heq. lia.
  - apply (f_equal String.length) in Heq. simpl in Heq. rewrite append_length in Heq. lia.
  - simpl in Heq. injection Heq as -> Heq. f_equal. now apply IH.
Qed.

Lemma to_uint_nonnil (p : positive) : Pos.to_uint p <> Decimal.Nil.
Proof.
  intros Hnil. pose proof (DecimalPos.Unsigned.of_to p) as Hp.
  rewrite Hnil in Hp. discriminate.
Qed.

(** The digits of a non-negative integer, as [str] writes them. *)
Lemma str_int_digits (i : Z) :
  0 <= i ->
  exists d, d <> Decimal.Nil /\ str_int i = NilEmpty.string_of_uint d /\ Z.of_uint d = i.
Proof.
  intros Hi. unfold str_int. destruct i as [|p|p]; [| |lia].
  - exists (Decimal.D0 Decimal.Nil). repeat split. discriminate.
  - exists (Pos.to_uint p). split; [apply to_uint_nonnil|]. split.
    + cbn. pose proof (to_uint_nonnil p). destruct (Pos.to_uint p); [contradiction|..];
        reflexivity.
    + change (Z.of_uint (Pos.to_uint p)) with (Z.of_int (Z.to_int (Z.pos p))).
      apply DecimalZ.of_to.
Qed.

Lemma int_of_str_digits (d : Decimal.uint) :
  d <> Decimal.Nil -> int_of_str (NilEmpty.string_of_uint d) = Some (Z.of_uint d).
Proof.
  intros Hd. unfold int_of_str, NilZero.int_of_string.
  destruct (NilEmpty.string_of_uint d) as [|a s] eqn:Hs.
  - destruct d; [contradiction|..]; discriminate.
  - assert (Hminus : (a =? "-")%char = false).
    { destruct d; [contradiction|..]; simpl in Hs; injection Hs as <- _; reflexivity. }
    rewrite Hminus. unfold NilZero.uint_of_string. rewrite <- Hs.
    now rewrite NilEmpty.usu.
Qed.

(** [f"{i:03d}"] read back by [int] is [i]. *)
Lemma fmt_03d_round_trip (i : Z) : 0 <= i -> int_of_str (fmt_03d i) = Some i.
Proof.
  intros Hi. destruct (str_int_digits Hi) as (d & Hd & Hs & Hv).
  unfold fmt_03d. rewrite Hs.
  destruct (String.length (NilEmpty.string_of_uint d)) as [|[|[|n]]].
  - rewrite int_of_str_digits by exact Hd. now rewrite Hv.
  - change ("00" ++ NilEmpty.string_of_uint d) with
      (NilEmpty.string_of_uint (Decimal.D0 (Decimal.D0 d))).
    rewrite int_of_str_digits by discriminate.
    change (Z.of_uint (Decimal.D0 (Decimal.D0 d))) with (Z.of_uint d). now rewrite Hv.
  - change ("0" ++ NilEmpty.string_of_uint d) with
      (NilEmpty.string_of_uint (Decimal.D0 d)).
    rewrite int_of_str_digits by discriminate.
    change (Z.of_uint (Decimal.D0 d)) with (Z.of_uint d). now rewrite Hv.
  - rewrite int_of_str_digits by exact Hd. now rewrite Hv.
Qed.

Lemma path_join_relative (a b c : string) :
  String.prefix "/" b = false -> String.prefix "/" c = false ->
  path_join a b = path_join a c -> b = c.
Proof.
  unfold path_join. intros -> ->.
  destruct (_ || _); intros Heq.
  - now apply append_inj_l in Heq.
  - apply append_inj_l in Heq. now apply (append_inj_l "/") in Heq.
Qed.

Section ChunkNames.

Context {F : Type} `{PyFloat F}.
Variables (input_path temp_dir : string) (duration : F) (num_chunks : Z).

Lemma planned_path_inj (i k : Z) :
  0 <= i -> 0 <= k ->
  ChunkTask.output_path (planned_task input_path duration num_chunks temp_dir i) =
  ChunkTask.output_path (planned_task input_path duration num_chunks temp_dir k) ->
  i = k.
Proof.
  intros Hi Hk Heq. cbn [planned_task ChunkTask.output_path] in Heq.
  apply path_join_relative in Heq; [|reflexivity|reflexivity].
  apply (append_inj_l "chunk_") in Heq. apply append_inj_r in Heq.
  pose proof (fmt_03d_round_trip Hi) as Ri. pose proof (fmt_03d_round_trip Hk) as Rk.
  rewrite Heq in Ri. congruence.
Qed.

(** X3. No two chunks of a plan are written to the same file, and none is
    written over the concat list of the merge: the name of a chunk file
    carries its index, which [int] reads back from the three-digit
    field. *)
Theorem chunk_outputs_are_distinct (tasks : list (ChunkTask.t F)) :
  plan_chunks input_path duration num_chunks temp_dir = inr tasks ->
  NoDup (map (@ChunkTask.output_path F) tasks) /\
  ~ In (path_join temp_dir "concat_list.txt") (map (@ChunkTask.output_path F) tasks) /\
  Forall (fun t => ChunkTask.output_path t =
                   path_join temp_dir
                     ("chunk_" ++ fmt_03d (ChunkTask.chunk_id t) ++ ".mp4") /\
                   int_of_str (fmt_03d (ChunkTask.chunk_id t)) =
                     Some (ChunkTask.chunk_id t)) tasks.
Proof.
  unfold plan_chunks, truediv_int.
  destruct (num_chunks =? 0); [discriminate|]. cbn [bind ret].
  intros [= <-]. rewrite map_map. cbn [ChunkTask.output_path ChunkTask.chunk_id].
  split; [|split].
  - assert (Hnd : NoDup (range num_chunks)).
    { unfold range. apply Finite.Injective_map_NoDup; [|apply seq_NoDup].
      intros a b Hab. lia. }
    assert (Hpos : Forall (fun i => 0 <= i) (range num_chunks)).
    { apply Forall_forall. intros i Hin. apply in_range in Hin. lia. }
    induction Hnd as [|i l Hnotin Hnd IH]; [constructor|].
    inversion Hpos as [|? ? Hi Hl]; subst. cbn [map]. constructor; [|now apply IH].
    intros Hin. apply in_map_iff in Hin. destruct Hin as (k & Hk & Hkin).
    rewrite Forall_forall in Hl.
    assert (k = i).
    { apply planned_path_inj; [now apply Hl | exact Hi | exact Hk]. }
    subst k. contradiction.
  - intros Hin. apply in_map_iff in Hin. destruct Hin as (k & Hk & _).
    apply path_join_relative in Hk; [discriminate Hk | reflexivity | reflexivity].
  - apply Forall_forall. intros t Hin. apply in_map_iff in Hin.
    destruct Hin as (i & <- & Hi). cbn [ChunkTask.output_path ChunkTask.chunk_id].
    split; [reflexivity|]. apply fmt_03d_round_trip. apply in_range in Hi. lia.
Qed.

End ChunkNames.

(** Six chunks of the sample clip. *)
Lemma chunk_outputs_are_distinct_witness :
  plan_chunks (F:=float) "input.mp4" 30%float 6 ".temp_chunks" =
    inr (map (planned_task "input.mp4" 30%float 6 ".temp_chunks") (range 6)) /\
  NoDup (map (@ChunkTask.output_path float)
           (map (planned_task "input.mp4" 30%float 6 ".temp_chunks") (range 6))).
Proof.
  split; [reflexivity|].
  exact (proj1 (@chunk_outputs_are_distinct float _ "input.mp4" ".temp_chunks" 30%float 6
                  (map (planned_task "input.mp4" 30%float 6 ".temp_chunks") (range 6))
                  eq_refl)).
Defined.

(** ** CORS origins *)

Lemma lstrip_length (s : string) : (String.length (Cors.lstrip s) <= String.length s)%nat.
Proof.
  induction s as [|c s IH]; simpl; [lia|].
  destruct (Cors.is_space c); simpl; lia.
Qed.

Lemma rstrip_length (s : string) : (String.length (Cors.rstrip s) <= String.length s)%nat.
Proof.
  induction s as [|c s IH]; simpl; [lia|].
  destruct (Cors.rstrip s); [destruct (Cors.is_space c)|]; simpl in *; lia.
Qed.

Lemma lstrip_starts_clean (s : string) : starts_clean (Cors.lstrip s) = true.
Proof.
  induction s as [|c s IH]; simpl; [reflexivity|].
  destruct (Cors.is_space c) eqn:E; [exact IH | simpl; now rewrite E].
Qed.

Lemma starts_clean_fixed (s : string) : starts_clean s = true -> Cors.lstrip s = s.
Proof.
  destruct s as [|c s]; simpl; [reflexivity|].
  destruct (Cors.is_space c); [discriminate | reflexivity].
Qed.

Lemma rstrip_starts_clean (s : string) :
  starts_clean s = true -> starts_clean (Cors.rstrip s) = true.
Proof.
  destruct s as [|c s]; simpl; [reflexivity|]. intros Hc.
  destruct (Cors.rstrip s); [|exact Hc].
  destruct (Cors.is_space c) eqn:E; [discriminate | simpl; now rewrite E].
Qed.

Lemma rstrip_idem (s : string) : Cors.rstrip (Cors.rstrip s) = Cors.rstrip s.
Proof.
  induction s as [|c s IH]; simpl; [reflexivity|].
  destruct (Cors.rstrip s) as [|d r] eqn:Hr.
  - destruct (Cors.is_space c) eqn:E; simpl; [reflexivity | now rewrite E].
  - change (Cors.rstrip (String c (String d r))) with
      (match Cors.rstrip (String d r) with
       | EmptyString => if Cors.is_space c then EmptyString else String c EmptyString
       | r' => String c r'
       end).
    now rewrite IH.
Qed.

Lemma strip_idem (s : string) : Cors.strip (Cors.strip s) = Cors.strip s.
Proof.
  unfold Cors.strip.
  rewrite (starts_clean_fixed (Cors.rstrip (Cors.lstrip s))).
  - apply rstrip_idem.
  - apply rstrip_starts_clean, lstrip_starts_clean.
Qed.

Lemma lstrip_comma_free (s : string) :
  comma_free s = true -> comma_free (Cors.lstrip s) = true.
Proof.
  induction s as [|c s IH]; simpl; [reflexivity|]. intros Hs.
  apply andb_true_iff in Hs. destruct Hs as [Hc Hs].
  destruct (Cors.is_space c); [now apply IH | simpl; now rewrite Hc, Hs].
Qed.

Lemma rstrip_comma_free (s : string) :
  comma_free s = true -> comma_free (Cors.rstrip s) = true.
Proof.
  induction s as [|c s IH]; simpl; [reflexivity|]. intros Hs.
  apply andb_true_iff in Hs. destruct Hs as [Hc Hs]. specialize (IH Hs).
  destruct (Cors.rstrip s) as [|d r].
  - destruct (Cors.is_space c); simpl; [reflexivity | now rewrite Hc].
  - change (comma_free (String c (String d r))) with
      (negb (Ascii.eqb c ",") && comma_free (String d r)).
    now rewrite Hc, IH.
Qed.

Lemma strip_comma_free (s : string) :
  comma_free s = true -> comma_free (Cors.strip s) = true.
Proof. intros Hs. now apply rstrip_comma_free, lstrip_comma_free. Qed.

Lemma split_nonempty (sep : ascii) (s : string) : Cors.split sep s <> [].
Proof.
  destruct s as [|c s]; simpl; [discriminate|].
  destruct (Ascii.eqb c sep); [discriminate|].
  destruct (Cors.split sep s); discriminate.
Qed.

Lemma split_comma_free (s : string) :
  Forall (fun item => comma_free item = true) (Cors.split "," s).
Proof.
  induction s as [|c s IH]; simpl; [repeat constructor|].
  destruct (Ascii.eqb c ",") eqn:E; [now constructor|].
  destruct (Cors.split "," s) as [|item items]; [repeat constructor; simpl; now rewrite E|].
  inversion IH; subst. constructor; [simpl; now rewrite E | assumption].
Qed.

(** X11. Whatever the environment variable holds, every configured origin is
    non-empty, has no whitespace at either end and holds no comma. *)
Theorem cors_origins_are_clean (HPC_CORS_ORIGINS : option string) :
  Forall clean_origin (Cors.cors_origins HPC_CORS_ORIGINS).
Proof.
  unfold Cors.cors_origins. cbv zeta.
  set (raw := Cors.strip _).
  destruct (String.eqb raw "*").
  - repeat constructor. discriminate.
  - apply Forall_forall. intros o Ho. apply in_map_iff in Ho.
    destruct Ho as (item & <- & Hitem). apply filter_In in Hitem.
    destruct Hitem as [Hin Hblank].
    split; [|split].
    + intros Hempty. rewrite Hempty in Hblank. discriminate.
    + apply strip_idem.
    + apply strip_comma_free.
      pose proof (split_comma_free raw) as Hall. rewrite Forall_forall in Hall.
      now apply Hall.
Qed.

Lemma clean_origin_starts (o : string) : clean_origin o -> starts_clean o = true.
Proof.
  intros (Hne & Hstrip & _). destruct o as [|c s]; [reflexivity|]. simpl.
  destruct (Cors.is_space c) eqn:E; [|reflexivity]. exfalso.
  assert (Hlen : (String.length (Cors.strip (String c s)) <= String.length s)%nat).
  { unfold Cors.strip. simpl. rewrite E.
    etransitivity; [apply rstrip_length | apply lstrip_length]. }
  rewrite Hstrip in Hlen. simpl in Hlen. lia.
Qed.

Lemma clean_origin_rstrip (o : string) : clean_origin o -> Cors.rstrip o = o.
Proof.
  intros Ho. pose proof (clean_origin_starts Ho) as Hs.
  destruct Ho as (_ & Hstrip & _). unfold Cors.strip in Hstrip.
  now rewrite (starts_clean_fixed o Hs) in Hstrip.
Qed.

Lemma rstrip_app (x y : string) :
  Cors.rstrip y <> "" -> Cors.rstrip (x ++ y) = x ++ Cors.rstrip y.
Proof.
  intros Hy. induction x as [|c x IH]; [reflexivity|].
  cbn [append Cors.rstrip]. rewrite IH.
  destruct (x ++ Cors.rstrip y) as [|d r] eqn:E; [|reflexivity].
  destruct x; [simpl in E; contradiction | discriminate].
Qed.

Lemma split_single (a : string) : comma_free a = true -> Cors.split "," a = [a].
Proof.
  induction a as [|c a IH]; simpl; [reflexivity|]. intros Ha.
  apply andb_true_iff in Ha. destruct Ha as [Hc Ha].
  apply negb_true_iff in Hc. rewrite Hc. now rewrite IH.
Qed.

Lemma split_app (a b : string) :
  comma_free a = true -> Cors.split "," (a ++ "," ++ b) = a :: Cors.split "," b.
Proof.
  induction a as [|c a IH]; [reflexivity|]. intros Ha. simpl in Ha.
  apply andb_true_iff in Ha. destruct Ha as [Hc Ha].
  apply negb_true_iff in Hc. cbn [append Cors.split]. rewrite Hc.
  change (a ++ String "," b) with (a ++ "," ++ b). now rewrite IH.
Qed.

Lemma split_join (l : list string) :
  l <> [] -> Forall clean_origin l -> Cors.split "," (String.concat "," l) = l.
Proof.
  induction l as [|o l IH]; intros Hne Hall; [contradiction|].
  inversion Hall as [|? ? (_ & _ & Ho) Hrest]; subst.
  destruct l as [|o' l]; [now apply split_single|].
  change (String.concat "," (o :: o' :: l)) with (o ++ "," ++ String.concat "," (o' :: l)).
  rewrite split_app by exact Ho. f_equal. apply IH; [discriminate | exact Hrest].
Qed.

Lemma join_stripped (l : list string) :
  l <> [] -> Forall clean_origin l ->
  String.concat "," l <> "" /\ starts_clean (String.concat "," l) = true /\
  Cors.rstrip (String.concat "," l) = String.concat "," l.
Proof.
  induction l as [|o l IH]; intros Hne Hall; [contradiction|].
  inversion Hall as [|? ? Ho Hrest]; subst.
  pose proof (clean_origin_starts Ho) as Hstart.
  pose proof (clean_origin_rstrip Ho) as Hend.
  destruct Ho as (Hnonempty & _).
  destruct l as [|o' l]; [now repeat split|].
  change (String.concat "," (o :: o' :: l)) with (o ++ "," ++ String.concat "," (o' :: l)).
  destruct (IH ltac:(discriminate) Hrest) as (Htail & _ & Hrtail).
  destruct o as [|c s]; [contradiction|]. split; [discriminate|]. split; [exact Hstart|].
  rewrite rstrip_app.
  - f_equal. change ("," ++ String.concat "," (o' :: l)) with
      (String "," "" ++ String.concat "," (o' :: l)).
    rewrite rstrip_app; now rewrite Hrtail.
  - change ("," ++ String.concat "," (o' :: l)) with
      (String "," "" ++ String.concat "," (o' :: l)).
    rewrite rstrip_app by now rewrite Hrtail. discriminate.
Qed.

Lemma clean_origins_kept (l : list string) :
  Forall clean_origin l ->
  map Cors.strip (filter (fun origin => negb (String.eqb (Cors.strip origin) "")) l) = l.
Proof.
  induction 1 as [|o l (Hne & Hstrip & _) _ IH]; [reflexivity|].
  cbn [filter]. rewrite Hstrip.
  destruct (String.eqb_spec o ""); [contradiction|]. cbn [negb map].
  now rewrite Hstrip, IH.
Qed.

(** X12. Configuration round trip: joining clean origins with commas and
    setting the variable to the result configures exactly these origins, in
    the same order. The empty value configures no origin. *)
Theorem cors_origins_round_trip (l : list string) :
  Forall clean_origin l ->
  Cors.cors_origins (Some (String.concat "," l)) = l.
Proof.
  intros Hall. destruct l as [|o l]; [reflexivity|].
  destruct (@join_stripped (o :: l) ltac:(discriminate) Hall) as (_ & Hstart & Hend).
  pose proof (@split_join (o :: l) ltac:(discriminate) Hall) as Hsplit.
  assert (Hraw : Cors.strip (String.concat "," (o :: l)) = String.concat "," (o :: l)).
  { unfold Cors.strip. now rewrite (starts_clean_fixed _ Hstart). }
  change (Cors.cors_origins (Some (String.concat "," (o :: l)))) with
    (if String.eqb (Cors.strip (String.concat "," (o :: l))) "*" then ["*"]
     else map Cors.strip
            (filter (fun origin => negb (String.eqb (Cors.strip origin) ""))
                    (Cors.split "," (Cors.strip (String.concat "," (o :: l)))))).
  rewrite Hraw.
  destruct (String.eqb_spec (String.concat "," (o :: l)) "*") as [Hstar | _].
  - rewrite Hstar in Hsplit. simpl in Hsplit. now symmetry.
  - rewrite Hsplit. now apply clean_origins_kept.
Qed.

(** Two origins. *)
Lemma cors_origins_round_trip_witness :
  Forall clean_origin ["http://localhost:3000"; "https://render.example"] /\
  Cors.cors_origins (Some "http://localhost:3000,https://render.example") =
    ["http://localhost:3000"; "https://render.example"].
Proof.
  assert (Hclean : Forall clean_origin
                     ["http://localhost:3000"; "https://render.example"]).
  { repeat constructor; try discriminate; reflexivity. }
  split; [exact Hclean|].
  exact (@cors_origins_round_trip
           ["http://localhost:3000"; "https://render.example"] Hclean).
Defined.

(** ** Reading a metric off the log *)

Lemma strip_prefix_spec (p s rest : string) :
  Comparison.strip_prefix p s = Some rest <-> s = p ++ rest.
Proof.
  revert s. induction p as [|a p IH]; intros s; simpl.
  - split; [now intros [= ->] | now intros ->].
  - destruct s as [|b s]; [split; discriminate|].
    destruct (Ascii.eqb_spec a b) as [-> | Hne].
    + rewrite IH. split; [now intros -> | now intros [= ->]].
    + split; [discriminate | intros [= Hab _]; congruence].
Qed.

Lemma span_number_spec (s : string) :
  exists post,
    s = Comparison.span_number s ++ post /\
    number_chars (Comparison.span_number s) = true /\
    starts_number post = false.
Proof.
  induction s as [|c s (post & Hs & Hchars & Hpost)]; simpl.
  - now exists "".
  - destruct (Comparison.is_digit_or_dot c) eqn:E.
    + exists post. repeat split; [simpl; now rewrite <- Hs | simpl; now rewrite E | exact Hpost].
    + exists (String c s). repeat split. simpl. exact E.
Qed.

Lemma span_number_empty (s : string) :
  Comparison.span_number s = "" <-> starts_number s = false.
Proof.
  destruct s as [|c s]; simpl; [tauto|].
  destruct (Comparison.is_digit_or_dot c); split; congruence.
Qed.

Lemma match_here_some (label s g : string) :
  Comparison.match_here label s = Some g <->
  exists rest, s = label ++ rest /\ g = Comparison.span_number rest /\ starts_number rest = true.
Proof.
  unfold Comparison.match_here. split.
  - destruct (Comparison.strip_prefix label s) as [rest|] eqn:Hp; [|discriminate].
    apply strip_prefix_spec in Hp.
    destruct (Comparison.span_number rest) as [|c g'] eqn:Hg; [discriminate|].
    intros [= <-]. exists rest. repeat split; [exact Hp | now symmetry|].
    destruct (starts_number rest) eqn:Hs; [reflexivity|].
    apply span_number_empty in Hs. congruence.
  - intros (rest & Hs & -> & Hstart). apply strip_prefix_spec in Hs. rewrite Hs.
    destruct (Comparison.span_number rest) eqn:Hg; [|reflexivity].
    apply span_number_empty in Hg. congruence.
Qed.

Lemma match_here_none (label s : string) :
  Comparison.match_here label s = None <->
  forall rest, s = label ++ rest -> starts_number rest = false.
Proof.
  split.
  - intros Hnone rest Hs. destruct (starts_number rest) eqn:Hstart; [|reflexivity].
    assert (Hsome : Comparison.match_here label s = Some (Comparison.span_number rest)).
    { apply match_here_some. now exists rest. }
    congruence.
  - intros Hall. destruct (Comparison.match_here label s) as [g|] eqn:Hm; [|reflexivity].
    apply match_here_some in Hm. destruct Hm as (rest & Hs & _ & Hstart).
    rewrite (Hall rest Hs) in Hstart. discriminate.
Qed.

Lemma search_number_unfold (label s : string) :
  Comparison.search_number label s =
  match Comparison.match_here label s with
  | Some group => Some group
  | None =>
      match s with
      | EmptyString => None
      | String _ s' => Comparison.search_number label s'
      end
  end.
Proof. destruct s; reflexivity. Qed.

(** X13. What the parsers read: the pattern [label([0-9.]+)] matches at the
    leftmost place where the label is followed by a digit or a dot, and the
    group is the longest run of digits and dots from there; what follows the
    run is ignored. *)
Theorem search_number_is_leftmost_longest (label s g : string) :
  Comparison.search_number label s = Some g ->
  exists pre post,
    s = pre ++ label ++ g ++ post /\
    g <> "" /\ number_chars g = true /\ starts_number post = false /\
    forall pre' rest',
      occurs_at label s pre' rest' ->
      (String.length pre' < String.length pre)%nat ->
      starts_number rest' = false.
Proof.
  revert g. induction s as [|c s IH]; intros g; rewrite search_number_unfold.
  - destruct (Comparison.match_here label "") as [g'|] eqn:Hm; [|discriminate].
    intros [= <-]. apply match_here_some in Hm. destruct Hm as (rest & Hs & -> & Hstart).
    destruct (span_number_spec rest) as (post & Hrest & Hchars & Hpost).
    exists "", post. repeat split.
    + simpl. now rewrite <- Hrest.
    + intros Hg. apply span_number_empty in Hg. congruence.
    + exact Hchars.
    + exact Hpost.
    + intros pre' rest' _ Hlt. simpl in Hlt. lia.
  - destruct (Comparison.match_here label (String c s)) as [g'|] eqn:Hm.
    + intros [= <-]. apply match_here_some in Hm.
      destruct Hm as (rest & Hs & -> & Hstart).
      destruct (span_number_spec rest) as (post & Hrest & Hchars & Hpost).
      exists "", post. repeat split.
      * simpl. now rewrite <- Hrest.
      * intros Hg. apply span_number_empty in Hg. congruence.
      * exact Hchars.
      * exact Hpost.
      * intros pre' rest' _ Hlt. simpl in Hlt. lia.
    + intros Hg. destruct (IH g Hg) as (pre & post & Hs & Hne & Hchars & Hpost & Hleft).
      exists (String c pre), post. repeat split; try assumption.
      * simpl. now rewrite <- Hs.
      * intros pre' rest' Hocc Hlt. unfold occurs_at in Hocc.
        destruct pre' as [|c' pre'].
        -- simpl in Hocc. exact (proj1 (match_here_none label (String c s)) Hm rest' Hocc).
        -- simpl in Hocc. injection Hocc as _ Hocc.
           apply (Hleft pre' rest' Hocc). simpl in Hlt. lia.
Qed.

(** X14. The parsers find nothing exactly when the label is nowhere followed by
    a digit or a dot. *)
Theorem search_number_none_iff (label s : string) :
  Comparison.search_number label s = None <->
  forall pre rest, occurs_at label s pre rest -> starts_number rest = false.
Proof.
  induction s as [|c s IH]; rewrite search_number_unfold.
  - destruct (Comparison.match_here label "") as [g|] eqn:Hm.
    + split; [discriminate|]. intros Hall. exfalso.
      apply match_here_some in Hm. destruct Hm as (rest & Hs & _ & Hstart).
      rewrite (Hall "" rest Hs) in Hstart. discriminate.
    + split; [|reflexivity]. intros _ pre rest Hocc. unfold occurs_at in Hocc.
      destruct pre; [|discriminate].
      exact (proj1 (match_here_none label "") Hm rest Hocc).
  - destruct (Comparison.match_here label (String c s)) as [g|] eqn:Hm.
    + split; [discriminate|]. intros Hall. exfalso.
      apply match_here_some in Hm. destruct Hm as (rest & Hs & _ & Hstart).
      rewrite (Hall "" rest Hs) in Hstart. discriminate.
    + rewrite IH. split.
      * intros Hall pre rest Hocc. unfold occurs_at in Hocc.
        destruct pre as [|c' pre].
        -- exact (proj1 (match_here_none label (String c s)) Hm rest Hocc).
        -- simpl in Hocc. injection Hocc as _ Hocc. exact (Hall pre rest Hocc).
      * intros Hall pre rest Hocc. apply (Hall (String c pre) rest).
        unfold occurs_at in *. simpl. now rewrite <- Hocc.
Qed.

(** The PSNR line of an ffmpeg log. *)
Lemma search_number_is_leftmost_longest_witness :
  Comparison.search_number "average:"
    "PSNR y:41.2 u:44.0 v:44.9 average:42.137 min:38.5 max:47.2" = Some "42.137" /\
  exists pre post,
    "PSNR y:41.2 u:44.0 v:44.9 average:42.137 min:38.5 max:47.2" =
      pre ++ "average:" ++ "42.137" ++ post /\
    starts_number post = false.
Proof.
  split; [reflexivity|].
  destruct (@search_number_is_leftmost_longest "average:"
              "PSNR y:41.2 u:44.0 v:44.9 average:42.137 min:38.5 max:47.2" "42.137"
              eq_refl) as (pre & post & Hs & _ & _ & Hpost & _).
  exists pre, post. split; [exact Hs | exact Hpost].
Defined.

(** ** The verdict of a comparison *)

Lemma fge_exact (a b : Q) : Comparison.fge a b = Qle_bool b a.
Proof.
  unfold Comparison.fge. cbn [flt feq Exact.exact].
  destruct (Qle_bool a b) eqn:Eab; cbn [negb orb].
  - destruct (Qeq_bool a b) eqn:Eeq.
    + apply Qeq_bool_iff in Eeq. symmetry. apply Qle_bool_iff. lra.
    + apply Qle_bool_iff in Eab. symmetry. apply Qle_bool_false.
      assert (Hne : ~ (a == b)%Q).
      { intros Heq. apply Qeq_bool_iff in Heq. congruence. }
      lra.
  - apply Qle_bool_gt in Eab. symmetry. apply Qle_bool_iff. lra.
Qed.

Lemma fle_exact (a b : Q) : Comparison.fle a b = Qle_bool a b.
Proof.
  unfold Comparison.fle. cbn [flt feq Exact.exact].
  destruct (Qle_bool b a) eqn:Eba; cbn [negb orb].
  - destruct (Qeq_bool a b) eqn:Eeq.
    + apply Qeq_bool_iff in Eeq. symmetry. apply Qle_bool_iff. lra.
    + apply Qle_bool_iff in Eba. symmetry. apply Qle_bool_false.
      assert (Hne : ~ (a == b)%Q).
      { intros Heq. apply Qeq_bool_iff in Heq. congruence. }
      lra.
  - apply Qle_bool_gt in Eba. symmetry. apply Qle_bool_iff. lra.
Qed.

Ltac order_cases :=
  repeat match goal with
         | |- context [Qle_bool ?a ?b] => destruct (Qle_bool a b) eqn:?
         end;
  try reflexivity; exfalso;
  repeat match goal with
         | E : Qle_bool _ _ = true |- _ => apply Qle_bool_iff in E
         | E : Qle_bool _ _ = false |- _ => apply Qle_bool_gt in E
         end;
  lra.

(** X15. In exact arithmetic the verdict on visual similarity is that of the
    weaker metric: PSNR is graded against 40, 35 and 30, SSIM against 0.99,
    0.97 and 0.94, and the lower of the two grades is reported. The verdict
    is "unknown" exactly when a metric is missing. The size note says
    smaller up to -5 percent, larger from 5 percent on. *)
Theorem summary_reports_weaker_metric (fmt_signed_1f : Q -> string)
    (psnr_avg ssim_all : option Q) (size_change_pct : Q) :
  Comparison._build_comparison_summary fmt_signed_1f psnr_avg ssim_all size_change_pct =
    "Visual similarity is "
      ++ match psnr_avg, ssim_all with
         | Some psnr, Some ssim =>
             verdict (Nat.min (grade (40 # 1) (35 # 1) (30 # 1) psnr)
                              (grade (99 # 100) (97 # 100) (94 # 100) ssim))
         | _, _ => "unknown"
         end
      ++ ". File size is "
      ++ (if Qle_bool size_change_pct (- (5 # 1)) then "smaller output size"
          else if Qle_bool (5 # 1) size_change_pct then "larger output size"
          else "roughly unchanged")
      ++ " (" ++ fmt_signed_1f size_change_pct ++ "%)." /\
  (Comparison.quality psnr_avg ssim_all = "unknown" <->
   psnr_avg = None \/ ssim_all = None).
Proof.
  split.
  - unfold Comparison._build_comparison_summary. f_equal. f_equal; [|f_equal; f_equal].
    + destruct psnr_avg as [psnr|], ssim_all as [ssim|]; try reflexivity.
      unfold Comparison.quality, Comparison.hundredths. rewrite !fge_exact.
      change (of_int 40 : Q) with (40 # 1)%Q. change (of_int 35 : Q) with (35 # 1)%Q.
      change (of_int 30 : Q) with (30 # 1)%Q.
      change (fquot (of_int 99) (of_int 100) : Q) with (99 # 100)%Q.
      change (fquot (of_int 97) (of_int 100) : Q) with (97 # 100)%Q.
      change (fquot (of_int 94) (of_int 100) : Q) with (94 # 100)%Q.
      unfold grade. order_cases.
    + unfold Comparison.size_note. rewrite fle_exact, fge_exact.
      change (of_int (-5) : Q) with (- (5 # 1))%Q. change (of_int 5 : Q) with (5 # 1)%Q.
      reflexivity.
  - destruct psnr_avg as [psnr|], ssim_all as [ssim|]; cbn [Comparison.quality];
      try (split; [intros _; auto | reflexivity]).
    split; [|intros [H | H]; discriminate].
    destruct (_ && _); [discriminate|]. destruct (_ && _); [discriminate|].
    destruct (_ && _); discriminate.
Qed.

(** ** The comparison report *)

Lemma exact_positive_is_nonzero : positive_is_nonzero Q.
Proof.
  intros x Hx. cbn [flt fis_zero of_int Exact.exact] in *.
  change (inject_Z 0) with 0%Q in *.
  destruct (Qle_bool x 0) eqn:E; [discriminate|]. apply Qle_bool_gt in E.
  apply Qeq_bool_false. lra.
Qed.

Lemma binary64_positive_is_nonzero : positive_is_nonzero float.
Proof.
  intros x Hx. cbn [flt fis_zero of_int Binary64.binary64] in *.
  change (Binary64.float_of_int 0) with PrimFloat.zero in Hx.
  rewrite FloatAxioms.ltb_spec in Hx. rewrite FloatAxioms.eqb_spec.
  change (Prim2SF PrimFloat.zero) with (S754_zero false) in *.
  destruct (Prim2SF x) as [s | s | | s m e]; cbn in *;
    try discriminate; try reflexivity; destruct s; reflexivity.
Qed.

Section ReportFacts.

Context {F : Type} `{PyFloat F}.
Hypothesis F_positive : positive_is_nonzero F.
Variable env : Comparison.Env F.
Variables (input_path output_path : string) (sample_seconds : F).

Local Notation "'report'" :=
  (Comparison.generate_comparison_report env input_path output_path sample_seconds).

(** X16. The report fails only when a file size cannot be read, and then with
    the error of [os.path.getsize]: the size of the input is read first. A
    comparison command that fails, prints no figure or prints one that
    [float] rejects leaves its metric empty and the report is returned all
    the same; an empty input file gives a size change of zero instead of a
    division by zero. *)
Theorem comparison_report_fails_only_on_sizes :
  (forall e, Comparison.getsize env input_path = inl e -> report = inl e) /\
  (forall a e,
      Comparison.getsize env input_path = inr a ->
      Comparison.getsize env output_path = inl e -> report = inl e) /\
  (forall a b,
      Comparison.getsize env input_path = inr a ->
      Comparison.getsize env output_path = inr b ->
      exists r,
        report = inr r /\
        (forall e,
            Comparison.run_capture env
              (Comparison.metric_cmd env input_path output_path sample_seconds
                 "[0:v][1:v]psnr") = inl e ->
            Comparison.Report.psnr_avg r = None) /\
        (forall e,
            Comparison.run_capture env
              (Comparison.metric_cmd env input_path output_path sample_seconds
                 "[0:v][1:v]ssim") = inl e ->
            Comparison.Report.ssim_all r = None)).
Proof.
  unfold Comparison.generate_comparison_report, truediv_ints.
  change (1024 * 1024 =? 0) with false. cbv zeta.
  split; [|split].
  - intros e ->. reflexivity.
  - intros a e -> ->. reflexivity.
  - intros a b -> ->. cbn [bind ret].
    set (input_size_mb := fquot (of_int a) (of_int (1024 * 1024))).
    set (output_size_mb := fquot (of_int b) (of_int (1024 * 1024))).
    destruct (flt (of_int 0) input_size_mb) eqn:Hpos.
    + unfold truediv. rewrite (F_positive _ Hpos). cbn [bind ret].
      eexists. split; [reflexivity|].
      cbn [Comparison.Report.psnr_avg Comparison.Report.ssim_all].
      split; intros e ->; reflexivity.
    + cbn [bind ret]. eexists. split; [reflexivity|].
      cbn [Comparison.Report.psnr_avg Comparison.Report.ssim_all].
      split; intros e ->; reflexivity.
Qed.

End ReportFacts.

(** ** The job store behind the endpoints *)

Section DictFacts.

Context {V : Type}.

Lemma dict_get_set_same (k : string) (v : V) (d : list (string * V)) :
  dict_get String.eqb k (dict_set String.eqb k v d) = Some v.
Proof.
  unfold dict_get. induction d as [|[k' v'] d IH]; simpl.
  - now rewrite String.eqb_refl.
  - destruct (String.eqb k k') eqn:E; simpl.
    + now rewrite String.eqb_refl.
    + now rewrite E.
Qed.

Lemma dict_get_set_other (k k' : string) (v : V) (d : list (string * V)) :
  k' <> k ->
  dict_get String.eqb k' (dict_set String.eqb k v d) = dict_get String.eqb k' d.
Proof.
  intros Hne. unfold dict_get. induction d as [|[k0 v0] d IH]; simpl.
  - destruct (String.eqb_spec k' k); [contradiction | reflexivity].
  - destruct (String.eqb_spec k k0) as [-> | Hk]; simpl.
    + destruct (String.eqb_spec k' k0); [contradiction | reflexivity].
    + destruct (String.eqb k' k0); [reflexivity | exact IH].
Qed.

Lemma dict_get_del_same (k : string) (d : list (string * V)) :
  dict_get String.eqb k (dict_del String.eqb k d) = None.
Proof.
  unfold dict_get, dict_del. induction d as [|[k0 v0] d IH]; simpl; [reflexivity|].
  destruct (String.eqb k k0) eqn:E; simpl; [exact IH | now rewrite E].
Qed.

Lemma dict_get_del_other (k k' : string) (d : list (string * V)) :
  k' <> k ->
  dict_get String.eqb k' (dict_del String.eqb k d) = dict_get String.eqb k' d.
Proof.
  intros Hne. unfold dict_get, dict_del. induction d as [|[k0 v0] d IH]; simpl;
    [reflexivity|].
  destruct (String.eqb_spec k k0) as [-> | Hk]; simpl.
  - destruct (String.eqb_spec k' k0); [contradiction | exact IH].
  - destruct (String.eqb k' k0); [reflexivity | exact IH].
Qed.

End DictFacts.

Section StoreFacts.

Context {F Report : Type} `{PyFloat F}.
Variables (v2_available : bool) (host : Server.Host F).

Local Notation "'not_found'" := (HTTPException 404 "Job not found").

(** X19. Submission round trip: the record [create_job] returns is the one
    [GET /jobs/{id}] serves afterwards under its id; it is queued at
    progress 0; the other ids answer as before; one task is scheduled, for
    this id and with the worker count and filter of the record. *)
Theorem created_job_can_be_fetched (job_req : JobCreate.t)
    (store store' : Server.Store F Report) (record : Job.t F Report) :
  Server.create_job v2_available host job_req store = (ret record, store') ->
  Api.get_job (Job.id record) store' = ret record /\
  Job.status record = Status.queued /\ Job.progress record = 0 /\
  (forall other, other <> Job.id record ->
                 Api.get_job other store' = Api.get_job other store) /\
  exists task,
    Server.background_tasks store' = (Server.background_tasks store ++ [task])%list /\
    Server.task_job_id task = Job.id record /\
    Server.task_workers task = Job.workers record /\
    Server.task_filter_chain task = Job.filter_chain record.
Proof.
  unfold Server.create_job.
  destruct (Server.resolve_input_path host (JobCreate.input_path job_req))
    as [e | [resolved display]]; [discriminate|].
  destruct (_ && _); [discriminate|].
  destruct (_ <? 1); [discriminate|].
  intros Hcreate. injection Hcreate as <- <-. cbn [Job.id Job.status Job.progress
    Job.workers Job.filter_chain]. unfold Api.get_job. cbn [Server.JOBS].
  split; [now rewrite dict_get_set_same|]. split; [reflexivity|]. split; [reflexivity|].
  split.
  - intros other Hother. now rewrite dict_get_set_other.
  - eexists. cbn [Server.background_tasks]. split; [reflexivity|]. repeat split.
Qed.

(** X21. Deleting a stored job answers "Job deleted" and removes exactly that
    record: its id is unknown afterwards, every other id answers as
    before, and the counters and the scheduled tasks are not touched.
    Deleting an unknown id is refused with 404 and changes nothing. *)
Theorem delete_job_forgets_one_job (job_id : string) (store : Server.Store F Report) :
  let outcome := Api.delete_job job_id store in
  (forall job, Api.get_job job_id store = ret job ->
     fst outcome = ret "Job deleted" /\
     Api.get_job job_id (snd outcome) = raise not_found /\
     (forall other, other <> job_id ->
                    Api.get_job other (snd outcome) = Api.get_job other store) /\
     Server.stats (snd outcome) = Server.stats store /\
     Server.background_tasks (snd outcome) = Server.background_tasks store) /\
  (Api.get_job job_id store = raise not_found ->
   outcome = (raise not_found, store)).
Proof.
  cbv zeta. unfold Api.delete_job, Api.get_job.
  destruct (dict_get String.eqb job_id (Server.JOBS store)) as [stored|] eqn:Hget.
  - split; [|discriminate]. intros job _. cbn [fst snd Server.JOBS Server.stats
      Server.background_tasks].
    split; [reflexivity|]. split; [now rewrite dict_get_del_same|].
    split; [|split; reflexivity].
    intros other Hother. now rewrite dict_get_del_other.
  - split; [discriminate | reflexivity].
Qed.

End StoreFacts.

(** The sample request on the sample host. *)
Lemma created_job_can_be_fetched_witness :
  Server.create_job false sample_host sample_request empty_store =
    (ret sample_job,
     Server.mkStore [("1a2b3c4d", sample_job)] sample_stats
       [Server.mkScheduled "1a2b3c4d" "/srv/app/uploads/input.mp4" 8
          Server.default_filter false "v1"]) /\
  Api.get_job "1a2b3c4d"
    (Server.mkStore [("1a2b3c4d", sample_job)] sample_stats
       [Server.mkScheduled "1a2b3c4d" "/srv/app/uploads/input.mp4" 8
          Server.default_filter false "v1"]) = ret sample_job.
Proof.
  split; [reflexivity|].
  exact (proj1 (@created_job_can_be_fetched float string false sample_host
                  sample_request empty_store _ sample_job eq_refl)).
Defined.

(** ** Cluster statistics *)

Section StatsFacts.

Context {F Report : Type} `{PyFloat F}.

Lemma count_status_partition (store : Server.Store F Report) :
  Api.count_status Status.processing store + Api.count_status Status.queued store +
  Api.count_status Status.completed store + Api.count_status Status.failed store =
  Z.of_nat (List.length (Server.JOBS store)).
Proof.
  unfold Api.count_status. induction (Server.JOBS store) as [|[k j] jobs IH];
    [reflexivity|].
  cbn [filter snd List.length]. destruct (Job.status j); cbn [Api.status_eqb List.length];
    lia.
Qed.

Lemma count_status_nonneg (status : Status.t) (store : Server.Store F Report) :
  0 <= Api.count_status status store.
Proof. unfold Api.count_status. lia. Qed.

Lemma throughput_returns (frames : Z) (time : F) :
  positive_is_nonzero F ->
  exists avg_fps,
    (if flt (of_int 0) time then truediv (of_int frames) time else ret (of_int 0))
      = inr avg_fps /\
    (flt (of_int 0) time = false -> avg_fps = of_int 0).
Proof.
  intros F_positive. destruct (flt (of_int 0) time) eqn:Hpos.
  - unfold truediv. rewrite (F_positive _ Hpos). eexists. split; [reflexivity|].
    discriminate.
  - eexists. split; reflexivity.
Qed.

Hypothesis F_positive : positive_is_nonzero F.
Variables (v2_available : bool) (psutil : Api.Psutil F) (round_1 : F -> F).
Variable store : Server.Store F Report.

(** X17. [GET /stats] always answers: neither rate divides by zero. Every
    stored job is counted in exactly one of the four status counters, so
    they add up to the total. With no finished job the success rate is
    100, and with no processing time the throughput is 0 (both as
    [round] returns them). *)
Theorem cluster_stats_count_every_job :
  exists s,
    Api.get_cluster_stats v2_available psutil round_1 store = inr s /\
    Api.ClusterStats.active_jobs s + Api.ClusterStats.queued_jobs s +
      Api.ClusterStats.completed_jobs s + Api.ClusterStats.failed_jobs s =
      Api.ClusterStats.total_jobs s /\
    Api.ClusterStats.total_jobs s = Z.of_nat (List.length (Server.JOBS store)) /\
    (Api.ClusterStats.completed_jobs s + Api.ClusterStats.failed_jobs s = 0 ->
     Api.ClusterStats.success_rate s = round_1 (of_int 100)) /\
    (flt (of_int 0) (GlobalStats.total_processing_time (Server.stats store)) = false ->
     Api.ClusterStats.avg_throughput_fps s = round_1 (of_int 0)).
Proof.
  unfold Api.get_cluster_stats. cbv zeta.
  pose proof (count_status_nonneg Status.completed store) as Hc.
  pose proof (count_status_nonneg Status.failed store) as Hf.
  set (time := GlobalStats.total_processing_time (Server.stats store)).
  pose proof (throughput_returns
                (GlobalStats.total_frames_processed (Server.stats store)) time
                F_positive) as Hfps.
  destruct Hfps as (avg_fps & -> & Hzero). cbn [bind].
  assert (Hrate : exists success_rate,
            (if 0 <? Api.count_status Status.completed store +
                     Api.count_status Status.failed store
             then ratio <- truediv_ints (Api.count_status Status.completed store)
                             (Api.count_status Status.completed store +
                              Api.count_status Status.failed store) ;;
                  ret (fmul ratio (of_int 100))
             else ret (of_int 100)) = inr success_rate /\
            (Api.count_status Status.completed store +
             Api.count_status Status.failed store = 0 -> success_rate = of_int 100)).
  { destruct (Z.ltb_spec 0 (Api.count_status Status.completed store +
                            Api.count_status Status.failed store)) as [Hpos | Hle].
    - unfold truediv_ints. destruct (Z.eqb_spec (Api.count_status Status.completed store +
                                                 Api.count_status Status.failed store) 0);
        [lia|].
      eexists. split; [reflexivity | lia].
    - eexists. split; reflexivity. }
  destruct Hrate as (success_rate & -> & Hnone). cbn [bind].
  unfold truediv_ints. change (1024 ^ 3 =? 0) with false. cbn [bind ret].
  eexists. split; [reflexivity|].
  cbn [Api.ClusterStats.active_jobs Api.ClusterStats.queued_jobs
       Api.ClusterStats.completed_jobs Api.ClusterStats.failed_jobs
       Api.ClusterStats.total_jobs Api.ClusterStats.success_rate
       Api.ClusterStats.avg_throughput_fps].
  split; [apply count_status_partition|]. split; [reflexivity|].
  split.
  - intros Hsum. now rewrite Hnone.
  - intros Hpos. now rewrite Hzero.
Qed.

End StatsFacts.

(** Three jobs, one of them running, on the binary64 instance. *)
Lemma cluster_stats_count_every_job_witness :
  positive_is_nonzero float /\
  exists s,
    Api.get_cluster_stats false
      (Api.mkPsutil 12.5%float 8 [10%float; 15%float] 40%float 0 (1024 ^ 3))
      (fun x => x)
      (Server.mkStore
         [("a", sample_job); ("b", Job.set_status Status.processing sample_job);
          ("c", Job.set_status Status.failed sample_job)]
         sample_stats []) = inr s /\
    Api.ClusterStats.total_jobs s = 3.
Proof.
  split; [exact binary64_positive_is_nonzero|].
  destruct (@cluster_stats_count_every_job float string _ binary64_positive_is_nonzero
              false (Api.mkPsutil 12.5%float 8 [10%float; 15%float] 40%float 0 (1024 ^ 3))
              (fun x => x)
              (Server.mkStore
                 [("a", sample_job); ("b", Job.set_status Status.processing sample_job);
                  ("c", Job.set_status Status.failed sample_job)]
                 sample_stats [])) as (s & Hs & _ & Htotal & _).
  exists s. split; [exact Hs | exact Htotal].
Defined.

(** ** Listing the jobs *)

Lemma filter_none {A} (p : A -> bool) (l : list A) :
  (forall a, In a l -> p a = false) -> filter p l = [].
Proof.
  induction l as [|a l IH]; intros Hp; [reflexivity|]. cbn [filter].
  rewrite (Hp a (or_introl eq_refl)). apply IH. intros b Hb. apply Hp. now right.
Qed.

Section SortedReverse.

Context {A : Type}.
Variable key : A -> Q.

Local Notation "'lt'" := (fun a b => flt (key a) (key b)).
Local Notation "'ascending'" := (fun a b => (key a <= key b)%Q).
Local Notation "'descending'" := (fun a b => (key b <= key a)%Q).

Lemma insert_lt_perm (x : A) (l : list A) :
  Permutation (Api.insert_lt lt x l) (x :: l).
Proof.
  induction l as [|y l IH]; simpl; [reflexivity|].
  destruct (negb (Qle_bool (key y) (key x))); [reflexivity|].
  rewrite IH. apply perm_swap.
Qed.

Lemma sorted_by_lt_fold_perm (l acc : list A) :
  Permutation (fold_left (fun acc x => Api.insert_lt lt x acc) l acc) (acc ++ l).
Proof.
  revert acc. induction l as [|x l IH]; intros acc; cbn [fold_left].
  - now rewrite app_nil_r.
  - rewrite IH, insert_lt_perm. apply Permutation_middle.
Qed.

Lemma insert_lt_sorted (x : A) (l : list A) :
  StronglySorted ascending l -> StronglySorted ascending (Api.insert_lt lt x l).
Proof.
  induction 1 as [|y l Hs IH Hall]; simpl.
  - repeat constructor.
  - cbn [flt Exact.exact]. destruct (Qle_bool (key y) (key x)) eqn:E; cbn [negb].
    + apply Qle_bool_iff in E. constructor; [exact IH|].
      eapply Permutation_Forall; [symmetry; exact (insert_lt_perm x l)|].
      constructor; assumption.
    + apply Qle_bool_gt in E. constructor; [now constructor|].
      constructor; [lra|]. eapply Forall_impl; [|exact Hall]. simpl. intros. lra.
Qed.

Lemma sorted_by_lt_fold_sorted (l acc : list A) :
  StronglySorted ascending acc ->
  StronglySorted ascending (fold_left (fun acc x => Api.insert_lt lt x acc) l acc).
Proof.
  revert acc. induction l as [|x l IH]; intros acc Hs; cbn [fold_left]; [exact Hs|].
  apply IH. now apply insert_lt_sorted.
Qed.

Lemma rev_sorted (l : list A) :
  StronglySorted ascending l -> StronglySorted descending (rev l).
Proof.
  induction 1 as [|a l _ IH Hall]; simpl; [constructor|].
  induction (rev l) as [|b m IHm] eqn:Hrev in IH, Hall, l |- *.
  - repeat constructor.
  - clear IHm. assert (Hin : forall c, In c (b :: m) -> (key a <= key c)%Q).
    { intros c Hc. rewrite Forall_forall in Hall. apply Hall.
      apply in_rev. now rewrite Hrev. }
    clear Hrev Hall. induction IH as [|c m' Hs IHs Hall']; simpl.
    + repeat constructor.
    + constructor.
      * apply IHs. intros d Hd. apply Hin. now right.
      * rewrite Forall_app. split; [exact Hall'|]. repeat constructor.
        apply Hin. now left.
Qed.

Lemma insert_lt_equal_keys (x : A) (l : list A) :
  Forall (fun y => (key y == key x)%Q) l -> Api.insert_lt lt x l = (l ++ [x])%list.
Proof.
  induction 1 as [|y l Hy _ IH]; cbn [Api.insert_lt]; [reflexivity|].
  rewrite IH. cbn [flt Exact.exact].
  assert (Hle : Qle_bool (key y) (key x) = true) by (apply Qle_bool_iff; lra).
  rewrite Hle. reflexivity.
Qed.

Lemma sorted_by_lt_equal_keys (l acc : list A) :
  (forall a b, In a (acc ++ l) -> In b (acc ++ l) -> (key a == key b)%Q) ->
  fold_left (fun acc x => Api.insert_lt lt x acc) l acc = (acc ++ l)%list.
Proof.
  revert acc. induction l as [|x l IH]; intros acc Heq; cbn [fold_left].
  - now rewrite app_nil_r.
  - rewrite insert_lt_equal_keys.
    + rewrite IH; rewrite <- app_assoc; [reflexivity | exact Heq].
    + apply Forall_forall. intros y Hy. apply Heq; apply in_or_app;
        [now left | right; now left].
Qed.

(** Stability: an element goes behind the elements already there that
    have its key. *)
Lemma insert_lt_filter (t : Q) (x : A) (l : list A) :
  StronglySorted ascending l ->
  filter (fun a => Qeq_bool (key a) t) (Api.insert_lt lt x l) =
  (filter (fun a => Qeq_bool (key a) t) l ++
   (if Qeq_bool (key x) t then [x] else []))%list.
Proof.
  induction 1 as [|y l Hs IH Hall]; cbn [Api.insert_lt].
  - cbn [filter app]. reflexivity.
  - cbv beta. destruct (flt (key x) (key y)) eqn:E.
    + cbn [flt Exact.exact] in E. apply negb_true_iff, Qle_bool_gt in E.
      assert (Hnone : filter (fun a => Qeq_bool (key a) t) (y :: l) = [] \/
                      Qeq_bool (key x) t = false).
      { destruct (Qeq_bool (key x) t) eqn:Ex; [left | now right].
        apply Qeq_bool_iff in Ex.
        apply filter_none. intros a Ha.
        apply not_true_iff_false. intros Hat. apply Qeq_bool_iff in Hat.
        destruct Ha as [<- | Ha]; [lra|].
        rewrite Forall_forall in Hall. specialize (Hall a Ha). simpl in Hall. lra. }
      change (filter (fun a => Qeq_bool (key a) t) (x :: y :: l))
        with (if Qeq_bool (key x) t
              then x :: filter (fun a => Qeq_bool (key a) t) (y :: l)
              else filter (fun a => Qeq_bool (key a) t) (y :: l)).
      destruct Hnone as [Hnone | Hx].
      * rewrite Hnone. destruct (Qeq_bool (key x) t); reflexivity.
      * rewrite Hx, app_nil_r. reflexivity.
    + change (filter (fun a => Qeq_bool (key a) t) (y :: Api.insert_lt lt x l))
        with (if Qeq_bool (key y) t
              then y :: filter (fun a => Qeq_bool (key a) t) (Api.insert_lt lt x l)
              else filter (fun a => Qeq_bool (key a) t) (Api.insert_lt lt x l)).
      rewrite IH. cbn [filter].
      destruct (Qeq_bool (key y) t); reflexivity.
Qed.

Lemma sorted_by_lt_fold_filter (t : Q) (l acc : list A) :
  StronglySorted ascending acc ->
  filter (fun a => Qeq_bool (key a) t)
    (fold_left (fun acc x => Api.insert_lt lt x acc) l acc) =
  (filter (fun a => Qeq_bool (key a) t) acc ++
   filter (fun a => Qeq_bool (key a) t) l)%list.
Proof.
  revert acc. induction l as [|x l IH]; intros acc Hs; cbn [fold_left].
  - cbn [filter]. now rewrite app_nil_r.
  - rewrite IH by now apply insert_lt_sorted.
    rewrite insert_lt_filter by exact Hs.
    rewrite <- app_assoc. cbn [filter].
    destruct (Qeq_bool (key x) t); reflexivity.
Qed.

End SortedReverse.

(** X22. [GET /jobs] lists every stored job once, the most recently created
    first (timestamps compared as exact numbers), and the sort is stable:
    for every instant, the jobs created at that instant are listed in the
    order in which [JOBS] holds them, which is the order of their
    submission. In particular, when all timestamps are equal the listing is
    [JOBS] in its own order. *)
Theorem list_jobs_newest_first {Report : Type} (store : Server.Store Q Report) :
  Permutation (Api.list_jobs store) (map snd (Server.JOBS store)) /\
  StronglySorted (fun a b => (Job.created_at b <= Job.created_at a)%Q)
    (Api.list_jobs store) /\
  (forall t : Q,
      filter (fun j => Qeq_bool (Job.created_at j) t) (Api.list_jobs store) =
      filter (fun j => Qeq_bool (Job.created_at j) t) (map snd (Server.JOBS store))) /\
  ((forall a b, In a (map snd (Server.JOBS store)) -> In b (map snd (Server.JOBS store)) ->
                (Job.created_at a == Job.created_at b)%Q) ->
   Api.list_jobs store = map snd (Server.JOBS store)).
Proof.
  unfold Api.list_jobs, Api.sorted_reverse, Api.sorted_by_lt.
  set (jobs := map snd (Server.JOBS store)). split; [|split; [|split]].
  - rewrite <- Permutation_rev.
    rewrite (sorted_by_lt_fold_perm (@Job.created_at Q Report) (rev jobs) []).
    simpl. symmetry. apply Permutation_rev.
  - apply rev_sorted. apply sorted_by_lt_fold_sorted. constructor.
  - intros t. rewrite filter_rev.
    rewrite (@sorted_by_lt_fold_filter _ (@Job.created_at Q Report) t (rev jobs) [])
      by constructor.
    cbn [filter app]. rewrite filter_rev. apply rev_involutive.
  - intros Hsame.
    rewrite (sorted_by_lt_equal_keys (@Job.created_at Q Report) (rev jobs) []).
    + simpl. apply rev_involutive.
    + simpl. intros a b Ha Hb. apply Hsame; now apply in_rev.
Qed.

(** X18. With exact arithmetic the success rate is the share of completed jobs
    among the finished ones, in percent: a number between 0 and 100, and
    100 when no job has finished yet. *)
Theorem success_rate_is_a_percentage {Report : Type} (v2_available : bool)
    (psutil : Api.Psutil Q) (round_1 : Q -> Q) (store : Server.Store Q Report) :
  let completed := Api.count_status Status.completed store in
  let failed := Api.count_status Status.failed store in
  exists s rate,
    Api.get_cluster_stats v2_available psutil round_1 store = inr s /\
    Api.ClusterStats.success_rate s = round_1 rate /\
    (0 <= rate <= 100)%Q /\
    (0 < completed + failed ->
     (rate == inject_Z completed / inject_Z (completed + failed) * 100)%Q) /\
    (completed + failed = 0 -> (rate == 100)%Q).
Proof.
  cbv zeta.
  pose proof (count_status_nonneg Status.completed store) as Hc.
  pose proof (count_status_nonneg Status.failed store) as Hf.
  unfold Api.get_cluster_stats. cbv zeta.
  destruct (@throughput_returns Q _
              (GlobalStats.total_frames_processed (Server.stats store))
              (GlobalStats.total_processing_time (Server.stats store))
              exact_positive_is_nonzero) as (avg_fps & -> & _).
  cbn [bind].
  destruct (Z.ltb_spec 0 (Api.count_status Status.completed store +
                          Api.count_status Status.failed store)) as [Hpos | Hle].
  - unfold truediv_ints in *.
    destruct (Z.eqb_spec (Api.count_status Status.completed store +
                          Api.count_status Status.failed store) 0); [lia|].
    change (1024 ^ 3 =? 0) with false. cbn [bind ret].
    eexists. eexists. split; [reflexivity|].
    cbn [Api.ClusterStats.success_rate]. split; [reflexivity|].
    cbn [fquot fmul of_int Exact.exact].
    set (a := Api.count_status Status.completed store) in *.
    set (b := Api.count_status Status.failed store) in *.
    assert (Hsum : (inject_Z (a + b) == inject_Z a + inject_Z b)%Q)
      by (rewrite inject_Z_plus; reflexivity).
    assert (Ha : (0 <= inject_Z a)%Q) by (change 0%Q with (inject_Z 0); now rewrite <- Zle_Qle).
    assert (Hb : (0 <= inject_Z b)%Q) by (change 0%Q with (inject_Z 0); now rewrite <- Zle_Qle).
    assert (Hab : (0 < inject_Z (a + b))%Q)
      by (change 0%Q with (inject_Z 0); now rewrite <- Zlt_Qlt).
    change (inject_Z 100) with 100%Q.
    assert (Hratio : (0 <= inject_Z a / inject_Z (a + b) <= 1)%Q).
    { split.
      - apply Qle_shift_div_l; [exact Hab | lra].
      - apply Qle_shift_div_r; [exact Hab | lra]. }
    split; [lra|]. split; [reflexivity | lia].
  - unfold truediv_ints. change (1024 ^ 3 =? 0) with false. cbn [bind ret].
    eexists. eexists. split; [reflexivity|].
    cbn [Api.ClusterStats.success_rate]. split; [reflexivity|].
    change (of_int 100 : Q) with 100%Q. split; [lra|]. split; [lia | reflexivity].
Qed.

Lemma dict_set_length {V : Type} (k : string) (v : V) (d : list (string * V)) :
  List.length (dict_set String.eqb k v d) =
  match dict_get String.eqb k d with
  | Some _ => List.length d
  | None => S (List.length d)
  end.
Proof.
  unfold dict_get. induction d as [|[k' v'] d IH]; simpl; [reflexivity|].
  destruct (String.eqb k k'); simpl; [reflexivity|].
  rewrite IH. destruct (find _ d); reflexivity.
Qed.

Section Refusal.

Context {F Report : Type}.
Variables (v2_available : bool) (host : Server.Host F).

(** X20. A submission that is refused changes nothing: no record is stored, no
    task is scheduled and the counter of jobs is not incremented. It is
    refused in three cases only: the input path does not resolve, with the
    error of the resolution; engine v2 is asked for and not available; the
    worker count is below 1. An accepted submission stores one more
    record, unless the id it drew is already in use, in which case the
    record under that id is replaced. *)
Theorem refused_submission_changes_nothing (job_req : JobCreate.t)
    (store : Server.Store F Report) :
  let outcome := Server.create_job v2_available host job_req store in
  (forall e, fst outcome = raise e ->
     snd outcome = store /\
     (Server.resolve_input_path host (JobCreate.input_path job_req) = inl e \/
      e = HTTPException 400 "V2 engine not available" \/
      e = HTTPException 400 "workers must be >= 1")) /\
  (forall record, fst outcome = ret record ->
     List.length (Server.JOBS (snd outcome)) =
     match dict_get String.eqb (Job.id record) (Server.JOBS store) with
     | Some _ => List.length (Server.JOBS store)
     | None => S (List.length (Server.JOBS store))
     end /\
     GlobalStats.total_jobs (Server.stats (snd outcome)) =
       GlobalStats.total_jobs (Server.stats store) + 1).
Proof.
  cbv zeta. unfold Server.create_job.
  destruct (Server.resolve_input_path host (JobCreate.input_path job_req))
    as [e0 | [resolved display]].
  { split; [|discriminate]. intros e [= <-]. split; [reflexivity | now left]. }
  destruct (_ && _).
  { split; [|discriminate]. intros e [= <-]. split; [reflexivity | right; now left]. }
  destruct (_ <? 1).
  { split; [|discriminate]. intros e [= <-]. split; [reflexivity | right; now right]. }
  cbn [fst snd]. split; [discriminate|].
  intros record [= <-]. cbn [Server.JOBS Server.stats Job.id GlobalStats.total_jobs].
  split; [apply dict_set_length | reflexivity].
Qed.

End Refusal.

(** ** Where a render task leaves its job *)

Section TaskEnd.

Context {F Report : Type} `{PyFloat F}.
Variable c : Server.Collaborators F Report.
Variables (job_id input_path : string) (workers : Z) (filter_chain : string).
Variables (smart_mode : bool) (engine_version : string).

(** X23. Once [job_temp.mkdir] has returned, a render task returns and
    never leaves its job queued or processing: whatever the collaborators
    do and whatever state it starts from, it ends with the phase at the
    terminal marker and the status either completed, with progress 100, or
    failed, with the text of the exception in the error field. When
    [job_temp.mkdir] raises, the task raises the same exception and leaves
    the job processing, in phase analyzing. *)
Theorem task_ends_completed_or_failed (st : Server.St F Report) :
  let outcome := fst (Server.run_render_task c job_id input_path workers filter_chain
                        smart_mode engine_version st) in
  let final := snd (Server.run_render_task c job_id input_path workers filter_chain
                      smart_mode engine_version st) in
  match fst (Server.mkdir c (Server.job_temp c job_id) (Server.disk st)) with
  | inr _ =>
      outcome = ret tt /\
      Job.phase (Server.job final) = Phase.completed /\
      ((Job.status (Server.job final) = Status.completed /\
        Job.progress (Server.job final) = 100) \/
       (Job.status (Server.job final) = Status.failed /\
        exists e, Job.error (Server.job final) = Some (str_exn e)))
  | inl e =>
      outcome = raise e /\
      Job.status (Server.job final) = Status.processing /\
      Job.phase (Server.job final) = Phase.analyzing
  end.
Proof.
  cbv zeta. unfold Server.run_render_task. rewrite prologue_eq.
  destruct (Server.mkdir c (Server.job_temp c job_id) (Server.disk st)) as [[e | u] fs'];
    cbn [fst snd]; [repeat split|].
  match goal with |- context [Server.try_block _ _ _ _ _ _ _ ?s] => set (st0 := s) end.
  pose proof (@try_block_finishes F Report _ c job_id input_path workers filter_chain
                smart_mode engine_version st0 I) as Hb.
  destruct (Server.try_block c job_id input_path workers filter_chain smart_mode
              engine_version st0) as [[e | u'] st1].
  - split; [apply finally_returns|].
    destruct (finally_keeps_job c job_id (snd (Server.except_block e st1))) as [-> _].
    split; [reflexivity|]. right. split; [reflexivity|]. now exists e.
  - split; [apply finally_returns|].
    destruct (finally_keeps_job c job_id st1) as [-> _].
    destruct Hb as (Hs & Hp & Hph). split; [exact Hph|]. left. now split.
Qed.

End TaskEnd.

(** ** What a render task leaves alone *)

Section ViewRules.

Context {F Report X : Type} `{PyFloat F}.
Variable c : Server.Collaborators F Report.
Variable view : Job.t F Report -> X.
Variable j0 : Job.t F Report.

Local Notation "'state'" := (Server.St F Report).

Lemma kept_silent : silent_on (kept view j0).
Proof. intros st fs g Hst. exact Hst. Qed.

Lemma keep_view (f : Job.t F Report -> Job.t F Report) (E : state -> Prop) :
  (forall j, view (f j) = view j) ->
  triple (kept view j0) (Server.assign f) (fun _ => kept view j0) E.
Proof.
  intros Hf. apply triple_assign. intros st [Hjob Hall].
  unfold kept, push. cbn [Server.job Server.observed]. rewrite Hf. split; [exact Hjob|].
  apply Forall_app. split; [exact Hall|]. constructor; [|constructor].
  now rewrite Hf.
Qed.

Hypothesis progress_hidden : forall p j, view (Job.set_progress p j) = view j.

Lemma call_run_parallel_kept (E : state -> Prop)
    (input_path output_path : string) (metadata : VideoMetadata.t F)
    (workers : Z) (filter_chain job_temp : string) :
  (forall st, kept view j0 st -> E st) ->
  triple (kept view j0)
    (Server.call_run_parallel c input_path output_path metadata workers
       filter_chain job_temp)
    (fun _ => kept view j0) E.
Proof.
  intros HE st Hst. unfold Server.call_run_parallel.
  destruct (Server.run_parallel c input_path output_path metadata workers
              filter_chain job_temp (Server.disk st)) as [[reported outcome] fs].
  assert (Ht : triple (kept view j0)
                 (Server.tbind (Server.for_each Server.on_progress reported)
                    (fun _ => Server.lift outcome))
                 (fun _ => kept view j0) E).
  { apply triple_bind with (R := fun _ => kept view j0).
    - apply (triple_for_each Server.on_progress (fun _ => kept view j0)).
      intros p rest. apply keep_view. intros j. apply progress_hidden.
    - intros u. apply triple_lift. exact HE. }
  apply Ht. now apply kept_silent.
Qed.

Lemma finally_kept (job_id : string) (st : state) :
  kept view j0 st -> kept view j0 (snd (Server.finally_block c job_id st)).
Proof.
  intros Hst. unfold Server.finally_block.
  destruct (exists_path (Server.job_temp c job_id) (Server.disk st)); exact Hst.
Qed.

End ViewRules.

Section TaskViewsTheorem.

Context {F Report : Type} `{PyFloat F}.
Variable c : Server.Collaborators F Report.
Variables (job_id input_path : string) (workers : Z) (filter_chain : string).
Variable engine_version : string.

Local Notation "'state'" := (Server.St F Report).

Ltac kept_side := first [ reflexivity | (intros ? Hside; exact Hside) ].

Ltac kept_rule :=
  first [ apply keep_view; intros ?; reflexivity
        | apply triple_lift; kept_side
        | apply triple_on_disk; [apply kept_silent | kept_side]
        | apply triple_update_stats; apply kept_silent
        | apply call_run_parallel_kept; [intros ? ?; reflexivity | kept_side] ].

Ltac kept_walk :=
  lazymatch goal with
  | |- triple (kept ?v ?j) (Server.tbind _ _) _ _ =>
      apply triple_bind with (R := fun _ => kept v j); [ kept_rule | intros ? ]
  | |- triple (kept ?v ?j) (Server.tret ?a) _ _ =>
      exact (@triple_ret _ _ _ a (fun _ => kept v j) _)
  | |- triple (kept _ _) _ _ _ => kept_rule
  end.

Lemma try_block_identity (smart_mode : bool) (j0 : Job.t F Report) :
  triple (kept job_identity j0)
    (Server.try_block c job_id input_path workers filter_chain smart_mode engine_version)
    (fun _ => kept job_identity j0) (kept job_identity j0).
Proof.
  unfold Server.try_block. kept_walk.
  apply triple_bind with (R := fun _ => kept job_identity j0).
  { destruct smart_mode; repeat kept_walk. }
  intros wf. repeat kept_walk.
Qed.

Lemma try_block_settings (j0 : Job.t F Report) :
  triple (kept job_settings j0)
    (Server.try_block c job_id input_path workers filter_chain false engine_version)
    (fun _ => kept job_settings j0) (kept job_settings j0).
Proof.
  unfold Server.try_block. kept_walk.
  apply triple_bind with (R := fun _ => kept job_settings j0).
  { repeat kept_walk. }
  intros wf. repeat kept_walk.
Qed.

Lemma handlers_keep {X : Type} (view : Job.t F Report -> X) (j0 : Job.t F Report) :
  (forall s j, view (Job.set_status s j) = view j) ->
  (forall p j, view (Job.set_phase p j) = view j) ->
  (forall e j, view (Job.set_error e j) = view j) ->
  triple (kept view j0) (Server.prologue c job_id) (fun _ => kept view j0)
    (kept view j0) /\
  (forall e st, kept view j0 st ->
                kept view j0 (snd (Server.except_block (F:=F) (Report:=Report) e st))).
Proof.
  intros Hstatus Hphase Herror. split.
  - unfold Server.prologue.
    apply triple_bind with (R := fun _ => kept view j0);
      [apply keep_view; apply Hstatus | intros ?].
    apply triple_bind with (R := fun _ => kept view j0);
      [apply keep_view; apply Hphase | intros ?].
    apply triple_on_disk; [apply kept_silent | auto].
  - intros e st Hst.
    eapply triple_run with (P := kept view j0) (Q := fun _ => kept view j0)
                           (E := kept view j0); [|exact Hst|auto|auto].
    unfold Server.except_block.
    apply triple_bind with (R := fun _ => kept view j0);
      [apply keep_view; apply Hstatus | intros ?].
    apply triple_bind with (R := fun _ => kept view j0);
      [apply keep_view; apply Hphase | intros ?].
    apply triple_bind with (R := fun _ => kept view j0);
      [apply keep_view; apply Herror | intros ?].
    apply triple_update_stats. apply kept_silent.
Qed.

Lemma run_keeps {X : Type} (view : Job.t F Report -> X) (smart_mode : bool)
    (j0 : Job.t F Report) (st : state) :
  (forall s j, view (Job.set_status s j) = view j) ->
  (forall p j, view (Job.set_phase p j) = view j) ->
  (forall e j, view (Job.set_error e j) = view j) ->
  triple (kept view j0)
    (Server.try_block c job_id input_path workers filter_chain smart_mode engine_version)
    (fun _ => kept view j0) (kept view j0) ->
  kept view j0 st ->
  kept view j0
    (snd (Server.run_render_task c job_id input_path workers filter_chain smart_mode
            engine_version st)).
Proof.
  intros Hstatus Hphase Herror Hbody Hst.
  destruct (handlers_keep view j0 Hstatus Hphase Herror) as [Hpro Hexc].
  eapply triple_run with (P := kept view j0) (Q := fun _ => kept view j0)
                         (E := kept view j0); [|exact Hst|auto|auto].
  eapply triple_run_render_task.
  - exact Hpro.
  - exact Hbody.
  - intros st' Hst'. now apply finally_kept.
  - intros e st' Hst'. apply finally_kept. now apply Hexc.
Qed.

(** X24. A render task never changes the id, the input, the creation time or
    the engine version of its job; and when smart mode is off it never
    changes the worker count, the filter chain or the smart configuration
    either: every value the record takes during the run shows them as
    they were submitted. *)
Theorem task_keeps_identity_and_manual_settings (j : Job.t F Report) (fs : FS)
    (g : GlobalStats.t F) :
  (forall smart_mode,
      Forall (fun j' => job_identity j' = job_identity j)
        (Server.observed
           (snd (Server.run_render_task c job_id input_path workers filter_chain
                   smart_mode engine_version (submitted j fs g))))) /\
  Forall (fun j' => job_settings j' = job_settings j)
    (Server.observed
       (snd (Server.run_render_task c job_id input_path workers filter_chain
               false engine_version (submitted j fs g)))).
Proof.
  split.
  - intros smart_mode.
    apply (@run_keeps _ job_identity smart_mode j (submitted j fs g));
      try (intros; reflexivity).
    + apply try_block_identity.
    + split; [reflexivity | repeat constructor].
  - apply (@run_keeps _ job_settings false j (submitted j fs g));
      try (intros; reflexivity).
    + apply try_block_settings.
    + split; [reflexivity | repeat constructor].
Qed.

End TaskViewsTheorem.

(** ** The global counters *)

Section StatsRules.

Context {F Report : Type} `{PyFloat F}.
Variable c : Server.Collaborators F Report.

Local Notation "'state'" := (Server.St F Report).

Lemma stats_assign (R : GlobalStats.t F -> Prop) (f : Job.t F Report -> Job.t F Report)
    (E : state -> Prop) :
  triple (stats_are R) (Server.assign f) (fun _ => stats_are R) E.
Proof. apply triple_assign. intros st Hst. exact Hst. Qed.

Lemma stats_lift {A} (R : GlobalStats.t F -> Prop) (r : Result A) (E : state -> Prop) :
  (forall st, stats_are R st -> E st) ->
  triple (stats_are R) (Server.lift r) (fun _ => stats_are R) E.
Proof. apply triple_lift. Qed.

Lemma stats_on_disk {A} (R : GlobalStats.t F -> Prop) (call : FS -> Result A * FS)
    (E : state -> Prop) :
  (forall st, stats_are R st -> E (Server.mkSt (Server.job st) (Server.observed st)
                                     (snd (call (Server.disk st)))
                                     (Server.GLOBAL_STATS st))) ->
  triple (stats_are R) (Server.on_disk call) (fun _ => stats_are R) E.
Proof.
  intros HE st Hst. unfold Server.on_disk. specialize (HE st Hst).
  destruct (call (Server.disk st)) as [[e | a] fs]; [exact HE | exact Hst].
Qed.

Lemma stats_update (R R' : GlobalStats.t F -> Prop)
    (f : GlobalStats.t F -> GlobalStats.t F) (E : state -> Prop) :
  (forall g, R g -> R' (f g)) ->
  triple (stats_are R) (Server.update_stats f) (fun _ => stats_are R') E.
Proof. intros Hf st Hst. apply Hf. exact Hst. Qed.

Lemma stats_for_each (R : GlobalStats.t F -> Prop) (reported : list Z)
    (E : state -> Prop) :
  triple (stats_are R) (Server.for_each Server.on_progress reported)
    (fun _ => stats_are R) E.
Proof.
  apply (triple_for_each Server.on_progress (fun _ => stats_are R)).
  intros p rest. apply stats_assign.
Qed.

Lemma stats_call_run_parallel (R : GlobalStats.t F -> Prop) (E : state -> Prop)
    (input_path output_path : string) (metadata : VideoMetadata.t F)
    (workers : Z) (filter_chain job_temp : string) :
  (forall (st : state), stats_are R st -> E st) ->
  triple (stats_are R)
    (Server.call_run_parallel c input_path output_path metadata workers
       filter_chain job_temp)
    (fun _ => stats_are R) E.
Proof.
  intros HE st Hst. unfold Server.call_run_parallel.
  destruct (Server.run_parallel c input_path output_path metadata workers
              filter_chain job_temp (Server.disk st)) as [[reported outcome] fs].
  assert (Ht : triple (stats_are R)
                 (Server.tbind (Server.for_each Server.on_progress reported)
                    (fun _ => Server.lift outcome))
                 (fun _ => stats_are R) E).
  { apply triple_bind with (R := fun _ => stats_are R).
    - apply stats_for_each.
    - intros u. apply stats_lift. exact HE. }
  apply Ht. exact Hst.
Qed.

Variables (job_id input_path : string) (workers : Z) (filter_chain : string).
Variables (smart_mode : bool) (engine_version : string).
Variable g0 : GlobalStats.t F.

Lemma eq_counted (st : state) : stats_are (eq g0) st -> stats_are (counted g0) st.
Proof. unfold stats_are. intros <-. repeat split. now left. Qed.

Lemma bumped_counted (st : state) :
  stats_are (bumped g0) st -> stats_are (counted g0) st.
Proof. unfold stats_are. intros (Ht & Hf & Hs). repeat split; auto. Qed.

Ltac stats_rule side :=
  first [ apply stats_assign
        | apply stats_lift; side
        | apply stats_on_disk; side
        | apply stats_call_run_parallel; side ].

Ltac same_walk :=
  lazymatch goal with
  | |- triple (stats_are (eq g0)) (Server.tbind (Server.update_stats _) _) _ _ =>
      apply triple_bind with (R := fun _ => stats_are (bumped g0));
      [ apply stats_update; intros ? <-; repeat split | intros ? ]
  | |- triple (stats_are (eq g0)) (Server.tbind _ _) _ _ =>
      apply triple_bind with (R := fun _ => stats_are (eq g0));
      [ stats_rule ltac:(intros ? Hside; apply eq_counted; exact Hside) | intros ? ]
  | |- triple (stats_are (eq g0)) (Server.tret ?a) _ _ =>
      exact (@triple_ret _ _ _ a (fun _ => stats_are (eq g0)) _)
  | |- triple (stats_are (bumped g0)) (Server.tbind (Server.update_stats _) _) _ _ =>
      apply triple_bind with (R := fun _ => stats_are (bumped g0));
      [ apply stats_update; intros ? Hb; exact Hb | intros ? ]
  | |- triple (stats_are (bumped g0)) (Server.tbind _ _) _ _ =>
      apply triple_bind with (R := fun _ => stats_are (bumped g0));
      [ stats_rule ltac:(intros ? Hside; apply bumped_counted; exact Hside) | intros ? ]
  | |- triple (stats_are (bumped g0)) (Server.update_stats _) _ _ =>
      apply stats_update; intros ? Hb; exact Hb
  end.

Lemma try_block_stats :
  triple (stats_are (eq g0))
    (Server.try_block c job_id input_path workers filter_chain smart_mode engine_version)
    (fun _ => stats_are (bumped g0)) (stats_are (counted g0)).
Proof.
  unfold Server.try_block. same_walk.
  apply triple_bind with (R := fun _ => stats_are (F:=F) (Report:=Report) (eq g0)).
  { destruct smart_mode; repeat same_walk. }
  intros wf. repeat same_walk.
Qed.

End StatsRules.

Section StatsTheorem.

Context {F Report : Type} `{PyFloat F}.
Variable c : Server.Collaborators F Report.
Variables (job_id input_path : string) (workers : Z) (filter_chain : string).
Variables (smart_mode : bool) (engine_version : string).

(** X25. How a render task is counted. It never touches the total. A job that
    ends completed has been counted as successful once and not as failed.
    A job that ends failed has been counted as failed once; it has been
    counted as successful as well when the failure came after the success
    was recorded, and not otherwise. *)
Theorem task_counts_its_outcome (st : Server.St F Report) :
  let final := snd (Server.run_render_task c job_id input_path workers filter_chain
                      smart_mode engine_version st) in
  let g0 := Server.GLOBAL_STATS st in
  let g := Server.GLOBAL_STATS final in
  GlobalStats.total_jobs g = GlobalStats.total_jobs g0 /\
  (Job.status (Server.job final) = Status.completed ->
   GlobalStats.successful_jobs g = GlobalStats.successful_jobs g0 + 1 /\
   GlobalStats.failed_jobs g = GlobalStats.failed_jobs g0) /\
  (Job.status (Server.job final) = Status.failed ->
   GlobalStats.failed_jobs g = GlobalStats.failed_jobs g0 + 1 /\
   (GlobalStats.successful_jobs g = GlobalStats.successful_jobs g0 \/
    GlobalStats.successful_jobs g = GlobalStats.successful_jobs g0 + 1)).
Proof.
  cbv zeta. unfold Server.run_render_task. rewrite prologue_eq.
  destruct (Server.mkdir c (Server.job_temp c job_id) (Server.disk st)) as [[e | u] fs'];
    cbn [fst snd].
  { cbn. split; [reflexivity|]. split; discriminate. }
  match goal with |- context [Server.try_block _ _ _ _ _ _ _ ?s] => set (st0 := s) end.
  assert (H0 : stats_are (eq (Server.GLOBAL_STATS st)) st0) by reflexivity.
  pose proof (@try_block_stats F Report _ c job_id input_path workers filter_chain
                smart_mode engine_version (Server.GLOBAL_STATS st) st0 H0) as Hstats.
  pose proof (@try_block_finishes F Report _ c job_id input_path workers filter_chain
                smart_mode engine_version st0 I) as Hdone.
  destruct (Server.try_block c job_id input_path workers filter_chain smart_mode
              engine_version st0) as [[e | u'] st1].
  - destruct Hstats as (Ht & Hf & Hs).
    assert (Hfinal : forall st', Server.GLOBAL_STATS (snd (Server.finally_block c job_id st'))
                                 = Server.GLOBAL_STATS st' /\
                                 Server.job (snd (Server.finally_block c job_id st'))
                                 = Server.job st').
    { intros st'. unfold Server.finally_block.
      destruct (exists_path _ _); split; reflexivity. }
    destruct (Hfinal (snd (Server.except_block e st1))) as [-> ->].
    cbn.
    split; [exact Ht|]. split; [discriminate|]. intros _. split; [lia | exact Hs].
  - destruct Hstats as (Ht & Hf & Hs). destruct Hdone as (Hstatus & _).
    assert (Hfinal : Server.GLOBAL_STATS (snd (Server.finally_block c job_id st1))
                     = Server.GLOBAL_STATS st1 /\
                     Server.job (snd (Server.finally_block c job_id st1))
                     = Server.job st1).
    { unfold Server.finally_block. destruct (exists_path _ _); split; reflexivity. }
    destruct Hfinal as [-> ->].
    split; [exact Ht|]. split; [intros _; split; assumption|].
    rewrite Hstatus. discriminate.
Qed.

End StatsTheorem.

(** Both branches of the last clause occur. A run whose encoding fails is
    counted as failed only; a run on a clip with an infinite frame rate
    fails after its success was recorded and is counted twice. *)
Example failed_run_counted_twice :
  let once := snd (Server.run_render_task parallel_fails "1a2b3c4d"
                     "/srv/app/uploads/input.mp4" 8 Server.default_filter false "v1"
                     (submitted sample_job server_dirs sample_stats)) in
  let twice := snd (Server.run_render_task
                      (scripted (ret endless_rate)
                         (ret (SmartConf.mk 4 Server.default_filter)) (ret 1%float)
                         [100] (ret 2%float) (ret "report"))
                      "1a2b3c4d" "/srv/app/uploads/input.mp4" 8 Server.default_filter
                      false "v1" (submitted sample_job server_dirs sample_stats)) in
  (Job.status (Server.job once), GlobalStats.successful_jobs (Server.GLOBAL_STATS once),
   GlobalStats.failed_jobs (Server.GLOBAL_STATS once)) = (Status.failed, 0, 1) /\
  (Job.status (Server.job twice), GlobalStats.successful_jobs (Server.GLOBAL_STATS twice),
   GlobalStats.failed_jobs (Server.GLOBAL_STATS twice)) = (Status.failed, 1, 1) /\
  Job.error (Server.job twice) = Some "cannot convert float infinity to integer".
Proof. cbv zeta. repeat split; vm_compute; reflexivity. Qed.

(** ** A clip of no length *)

Section ZeroLength.

Context {F Report : Type} `{PyFloat F}.
Variable c : Server.Collaborators F Report.
Variables (job_id input_path : string) (workers : Z) (filter_chain : string).
Variable engine_version : string.
Variable metadata : VideoMetadata.t F.

Hypothesis analysis : Server.analyze_video c input_path = inr metadata.
Hypothesis no_window :
  fis_zero (fmin (of_int 2) (VideoMetadata.duration metadata)) = true.

Local Notation "'state'" := (Server.St F Report).
Local Notation "'before_parallel'" :=
  (fun st : Server.St F Report =>
     phases_are [Phase.queued; Phase.analyzing] st \/
     phases_are [Phase.queued; Phase.analyzing; Phase.benchmarking] st).

Lemma triple_dead {A} (m : Server.Task A) (Q : A -> state -> Prop) (E : state -> Prop) :
  triple (fun _ => False) m Q E.
Proof. intros st []. Qed.

Lemma triple_given {A B} (x : A) (k : A -> Server.Task B) (P : state -> Prop)
    (Q : B -> state -> Prop) (E : state -> Prop) :
  triple P (k x) Q E ->
  triple P (Server.tbind (Server.lift (F:=F) (Report:=Report) (inr x)) k) Q E.
Proof. intros Hk st HP. exact (Hk st HP). Qed.

Lemma step_given {A B} (x : A) (k : A -> Server.Task B) (st : state) :
  Server.tbind (Server.lift (inr x)) k st = k x st.
Proof. reflexivity. Qed.

Lemma step_raise {A B} (e : PyExn) (k : A -> Server.Task B) (st : state) :
  Server.tbind (Server.lift (inl e)) k st = (inl e, st).
Proof. reflexivity. Qed.

Lemma step_ret {A B} (a : A) (k : A -> Server.Task B) (st : state) :
  Server.tbind (Server.tret a) k st = k a st.
Proof. reflexivity. Qed.

Lemma step_assign {B} (f : Job.t F Report -> Job.t F Report)
    (k : unit -> Server.Task B) (st : state) :
  Server.tbind (Server.assign f) k st = k tt (push f st).
Proof. reflexivity. Qed.

Lemma step_on_disk {A B} (call : FS -> Result A * FS) (k : A -> Server.Task B)
    (st : state) (a : A) (disk' : FS) :
  call (Server.disk st) = (inr a, disk') ->
  Server.tbind (Server.on_disk call) k st =
  k a (Server.mkSt (Server.job st) (Server.observed st) disk' (Server.GLOBAL_STATS st)).
Proof. intros Hcall. unfold Server.tbind, Server.on_disk. now rewrite Hcall. Qed.

Lemma projection_raises :
  truediv (VideoMetadata.duration metadata)
    (fmin (of_int 2) (VideoMetadata.duration metadata)) =
  raise (ZeroDivisionError "float division by zero").
Proof. unfold truediv. now rewrite no_window. Qed.

Lemma try_block_stops (smart_mode : bool) :
  triple (phases_are [Phase.queued; Phase.analyzing])
    (Server.try_block c job_id input_path workers filter_chain smart_mode engine_version)
    (fun _ _ => False) before_parallel.
Proof.
  unfold Server.try_block. rewrite analysis. apply triple_given.
  apply triple_bind with
    (R := fun _ => phases_are (F:=F) (Report:=Report) [Phase.queued; Phase.analyzing]).
  { destruct smart_mode.
    - apply triple_bind with
        (R := fun _ => phases_are (F:=F) (Report:=Report) [Phase.queued; Phase.analyzing]);
        [apply triple_lift; intros st Hst; now left | intros conf].
      apply triple_bind with
        (R := fun _ => phases_are (F:=F) (Report:=Report) [Phase.queued; Phase.analyzing]);
        [apply keep_phase; reflexivity | intros ?].
      apply triple_bind with
        (R := fun _ => phases_are (F:=F) (Report:=Report) [Phase.queued; Phase.analyzing]);
        [apply keep_phase; reflexivity | intros ?].
      apply triple_bind with
        (R := fun _ => phases_are (F:=F) (Report:=Report) [Phase.queued; Phase.analyzing]);
        [apply keep_phase; reflexivity | intros ?].
      exact (@triple_ret _ _ _ _
               (fun _ => phases_are [Phase.queued; Phase.analyzing]) _).
    - exact (@triple_ret _ _ _ _
               (fun _ => phases_are [Phase.queued; Phase.analyzing]) _). }
  intros wf.
  apply triple_bind with
    (R := fun _ => phases_are (F:=F) (Report:=Report)
                     [Phase.queued; Phase.analyzing; Phase.benchmarking]).
  { exact (@move_phase F Report Phase.benchmarking [Phase.queued; Phase.analyzing] _). }
  intros ?.
  apply triple_bind with
    (R := fun _ => phases_are (F:=F) (Report:=Report)
                     [Phase.queued; Phase.analyzing; Phase.benchmarking]).
  { apply triple_on_disk; [apply phases_silent | intros st Hst; now right]. }
  intros sample.
  apply triple_bind with (R := fun _ (_ : state) => False); [|intros ?; apply triple_dead].
  intros st Hst. unfold Server.lift. rewrite projection_raises. now right.
Qed.

(** X26. A clip whose benchmark window [min(2.0, duration)] is zero never
    reaches the parallel phase, in either mode. Once [job_temp.mkdir] has
    returned the job ends failed, in or before the benchmarking phase;
    when smart mode is off and the serial benchmark returns, the error
    recorded is the division by zero of the projection, and the phases
    are queued, analyzing, benchmarking, completed. When [job_temp.mkdir]
    raises, the job is left processing. *)
Theorem zero_length_clip_fails (smart_mode : bool) (j : Job.t F Report) (fs : FS)
    (g : GlobalStats.t F) :
  Job.phase j = Phase.queued ->
  let final := fun mode =>
    snd (Server.run_render_task c job_id input_path workers filter_chain mode
           engine_version (submitted j fs g)) in
  ~ In Phase.parallel (transitions (phase_history (final smart_mode))) /\
  match fst (Server.mkdir c (Server.job_temp c job_id) fs) with
  | inr _ =>
      Job.status (Server.job (final smart_mode)) = Status.failed /\
      ((forall disk, exists sample disk',
           Server.benchmark_serial c input_path (Server.job_temp c job_id) filter_chain
             disk = (inr sample, disk')) ->
       Job.error (Server.job (final false)) = Some "float division by zero" /\
       transitions (phase_history (final false)) =
         [Phase.queued; Phase.analyzing; Phase.benchmarking; Phase.completed])
  | inl _ => Job.status (Server.job (final smart_mode)) = Status.processing
  end.
Proof.
  intros Hq final.
  assert (Hend : forall e st1 hs, phases_are hs st1 ->
            phases_are (if Phase.eqb (last hs Phase.queued) Phase.completed
                        then hs else (hs ++ [Phase.completed])%list)
              (snd (Server.finally_block c job_id (snd (Server.except_block e st1))))).
  { intros e st1 hs Hs. apply finally_phases.
    eapply triple_run; [apply (@except_block_phases F Report e hs) | exact Hs | | ];
      [intros ? ? Hr; exact Hr | contradiction]. }
  assert (Hpro : forall st0,
            snd (Server.prologue c job_id (submitted j fs g)) = st0 ->
            phases_are [Phase.queued; Phase.analyzing] st0).
  { intros st0 <-.
    eapply triple_run;
      [apply prologue_phases | apply submitted_phases; exact Hq | auto | auto]. }
  split.
  - unfold final.
    eapply triple_run with
      (P := phases_are [Phase.queued])
      (Q := fun _ (st : state) =>
              ~ In Phase.parallel (transitions (phase_history st)))
      (E := phases_are [Phase.queued; Phase.analyzing]).
    + eapply triple_run_render_task.
      * apply prologue_phases.
      * apply (@try_block_stops smart_mode).
      * intros st [].
      * intros e st [Hb | Hb]; apply (Hend e) in Hb; destruct Hb as [_ Hb];
          cbn [last Phase.eqb app] in Hb; rewrite Hb; cbn; intuition congruence.
    + apply submitted_phases; exact Hq.
    + auto.
    + intros st [_ Hh]. rewrite Hh. cbn. intuition congruence.
  - unfold final, Server.run_render_task.
    specialize (Hpro _ eq_refl). revert Hpro.
    rewrite !prologue_eq. cbn [fst snd submitted Server.disk].
    destruct (Server.mkdir c (Server.job_temp c job_id) fs) as [[e | u] fs'];
      cbn [fst snd]; [reflexivity|].
    match goal with |- phases_are _ ?s -> _ => set (st0 := s) end.
    intros H0. split.
    + pose proof (@try_block_stops smart_mode) as Hb. specialize (Hb _ H0).
      destruct (Server.try_block c job_id input_path workers filter_chain smart_mode
                  engine_version st0) as [[e | u'] st1]; [|contradiction].
      destruct (finally_keeps_job c job_id (snd (Server.except_block e st1))) as [-> _].
      reflexivity.
    + intros Hbench.
      assert (Hbody : exists st1,
                Server.try_block c job_id input_path workers filter_chain false
                  engine_version st0 =
                (inl (ZeroDivisionError "float division by zero"), st1) /\
                phases_are [Phase.queued; Phase.analyzing; Phase.benchmarking] st1).
      { unfold Server.try_block. rewrite analysis, step_given.
        cbv beta iota. rewrite step_ret. cbn [fst snd]. rewrite step_assign.
        destruct (Hbench (Server.disk (push (Job.set_phase Phase.benchmarking) st0)))
          as (sample & disk' & Hsample).
        rewrite (step_on_disk _ _ _ Hsample), projection_raises, step_raise.
        eexists. split; [reflexivity|].
        apply phases_silent.
        exact (@move_phase F Report Phase.benchmarking [Phase.queued; Phase.analyzing]
                 (fun _ => True) st0 H0). }
      destruct Hbody as (st1 & -> & Hphases).
      destruct (finally_keeps_job c job_id
                  (snd (Server.except_block
                          (ZeroDivisionError "float division by zero") st1))) as [Hjob _].
      split; [now rewrite Hjob|].
      apply (Hend (ZeroDivisionError "float division by zero")) in Hphases.
      destruct Hphases as [_ Hh]. exact Hh.
Qed.

End ZeroLength.

(** ** Sample runs of the statements above *)

(** A clip of no length on the sample job: the projection divides by zero. *)
Lemma zero_length_clip_fails_witness :
  (Server.analyze_video
     (scripted (ret still_frame) (ret (SmartConf.mk 4 Server.default_filter))
        (ret 1%float) [] (ret 2%float) (ret "report"))
     "/srv/app/uploads/input.mp4" = inr still_frame /\
   fis_zero (fmin (of_int 2) (VideoMetadata.duration still_frame)) = true /\
   Job.phase sample_job = Phase.queued) /\
  Job.status
    (Server.job
       (snd (Server.run_render_task
               (scripted (ret still_frame) (ret (SmartConf.mk 4 Server.default_filter))
                  (ret 1%float) [] (ret 2%float) (ret "report"))
               "1a2b3c4d" "/srv/app/uploads/input.mp4" 8 Server.default_filter false "v1"
               (submitted sample_job server_dirs sample_stats)))) = Status.failed.
Proof.
  split; [repeat split|].
  pose proof (proj2 (@zero_length_clip_fails float string _
                       (scripted (ret still_frame)
                          (ret (SmartConf.mk 4 Server.default_filter))
                          (ret 1%float) [] (ret 2%float) (ret "report"))
                       "1a2b3c4d" "/srv/app/uploads/input.mp4" 8 Server.default_filter
                       "v1" still_frame eq_refl eq_refl false sample_job server_dirs
                       sample_stats eq_refl)) as Hrun.
  change (fst (Server.mkdir _ _ server_dirs)) with (@inr PyExn unit tt) in Hrun.
  exact (proj1 Hrun).
Defined.

Lemma all_succeed_reports_percentages : reports_percentages all_succeed.
Proof.
  intros input output metadata workers filter_chain temp fs. cbn. split.
  - repeat constructor; lia.
  - repeat constructor; lia.
Qed.

(** The run in which every step succeeds and the callback sees 50 and 100. *)
Lemma progress_never_decreases_witness :
  (reports_percentages all_succeed /\ Job.progress sample_job = 0) /\
  StronglySorted Z.le
    (progress_history
       (snd (Server.run_render_task all_succeed "1a2b3c4d"
               "/srv/app/uploads/input.mp4" 8 Server.default_filter false "v1"
               (submitted sample_job server_dirs sample_stats)))).
Proof.
  split; [split; [exact all_succeed_reports_percentages | reflexivity]|].
  exact (proj1 (@progress_never_decreases float string _ all_succeed
                  all_succeed_reports_percentages "1a2b3c4d"
                  "/srv/app/uploads/input.mp4" 8 Server.default_filter false "v1"
                  sample_job server_dirs sample_stats eq_refl)).
Defined.

(** The report on the sample environment: the PSNR command fails, the
    report is returned without that metric. *)
Lemma comparison_report_fails_only_on_sizes_witness :
  positive_is_nonzero float /\
  exists r,
    Comparison.generate_comparison_report sample_env "uploads/input.mp4"
      "outputs/output_1a2b3c4d.mp4" 8%float = inr r /\
    Comparison.Report.psnr_avg r = None.
Proof.
  split; [exact binary64_positive_is_nonzero|].
  destruct (proj2 (proj2 (@comparison_report_fails_only_on_sizes float _
                            binary64_positive_is_nonzero sample_env "uploads/input.mp4"
                            "outputs/output_1a2b3c4d.mp4" 8%float))
              (10 * 1024 * 1024) (5 * 1024 * 1024) eq_refl eq_refl)
    as (r & Hr & Hpsnr & _).
  exists r. split; [exact Hr|].
  apply (Hpsnr (CalledProcessError sample_failure_text sample_diagnostic)).
  reflexivity.
Defined.

(** A serial run of 2 s against 1 s at 4 workers. *)
Lemma reported_fraction_misses_witness :
  (2 <= 4 /\ (0 < 1 # 1)%Q /\ (1 # 1 < 2 # 1)%Q /\ (2 # 1 < inject_Z 4 * (1 # 1))%Q) /\
  exists r,
    amdahl_analysis (F:=Q) (2 # 1) (1 # 1) 4 = inr (Some r) /\
    (amdahl_speedup (Amdahl.serial_fraction r) 4 < (2 # 1) / (1 # 1))%Q.
Proof.
  split; [repeat split; lia|].
  destruct (amdahl_analysis (F:=Q) (2 # 1) (1 # 1) 4) as [e | [r|]] eqn:Hr;
    [discriminate Hr| |discriminate Hr].
  exists r. split; [reflexivity|].
  exact (proj1 (proj2 (proj2 (@reported_fraction_misses (2 # 1) (1 # 1) 4
                                ltac:(lia) ltac:(reflexivity) ltac:(reflexivity)
                                ltac:(reflexivity) r Hr)))).
Defined.
